(** * Stardazed TX: the FBX importer

    A shallow embedding of the FBX text tokenizer and parser
    (asset-fbx-text.ts) and of the document graph builder and resolver
    (asset-fbx.ts), with the properties of the importer proved about it.

    Layout: part I holds the definitions, one module per TypeScript class;
    part II holds the lemmas and theorems; part III holds further
    properties of the tokenizer, the parser, the document graph and of the
    path and byte helpers of asset-io.ts and core.ts. *)

From Stdlib Require Import ZArith String Ascii Bool Lia Sorted.
From stdpp Require Import base tactics option list.

Local Open Scope Z_scope.
Local Set Warnings "-register-all".

(* ===================================================================== *)
(** * Part I: definitions *)
(* ===================================================================== *)

(** ** JavaScript values *)

(** What a [throw] carries.  [Untyped] marks a value that does not have the
    type its TypeScript cast gives it; the code's behaviour there is outside
    this model. *)
Inductive Exn :=
| TypeError (what : string)
| AssertionFailed (msg : string)
| Untyped (what : string).

(** The outcome of a synchronous call: a value or a thrown exception. *)
Inductive Result (A : Type) :=
| Ok (a : A)
| Throw (e : Exn).
Arguments Ok {A} a.
Arguments Throw {A} e.

Global Instance Result_bind : MBind Result := fun A B k r =>
  match r with
  | Ok a => k a
  | Throw e => Throw e
  end.
Global Instance Result_ret : MRet Result := fun A a => Ok a.

(** [assert(cond, msg)] *)
Definition assert (cond : bool) (msg : string) : Result unit :=
  if cond then Ok tt else Throw (AssertionFailed msg).

(** JavaScript numbers are IEEE doubles.  The tokenizer and the parser only
    move them around, so they are generic in the number type [N]; what they
    need of it is collected here. *)
Class JSNumber (N : Type) := {
  (** [parseFloat(s)], [None] when the result is NaN *)
  parseFloat : string -> option N;
  (** [x | 0] *)
  toInt32 : N -> Z;
  (** [x == (x | 0)] *)
  isInt32 : N -> bool;
  (** [Math.fround(x)], what a Float32Array stores *)
  fround : N -> N;
  (** the number 0, with which typed arrays are filled when created *)
  zero : N;
  (** the number whose value is the given int32, what an Int32Array yields *)
  ofInt32 : Z -> N;
  (** [x.toString()] *)
  numberToString : N -> string
}.

(** The characters of a JavaScript string. *)
Definition chars (s : string) : list ascii := list_ascii_of_string s.
Definition str (cs : list ascii) : string := string_of_list_ascii cs.

(** [s.substring(a, b)]: both indices are clamped to the string and swapped
    when out of order. *)
Definition substring (s : list ascii) (a b : Z) : list ascii :=
  let clamp x := Z.to_nat (Z.min (Z.max x 0) (Z.of_nat (length s))) in
  let lo := Nat.min (clamp a) (clamp b) in
  let hi := Nat.max (clamp a) (clamp b) in
  take (hi - lo) (drop lo s).

(** [s[i]] *)
Definition charAt (s : list ascii) (i : Z) : option ascii :=
  if i <? 0 then None else s !! Z.to_nat i.

(** Comparisons of a possibly null one-character string with a character. *)
Definition ceq (c : option ascii) (x : ascii) : bool :=
  match c with
  | Some y => Ascii.eqb y x
  | None => false
  end.

Definition cbetween (c : option ascii) (lo hi : ascii) : bool :=
  match c with
  | Some y => (N_of_ascii lo <=? N_of_ascii y)%N && (N_of_ascii y <=? N_of_ascii hi)%N
  | None => false
  end.

(** [(c >= 'A' && c <= 'Z') || (c >= 'a' && c <= 'z')] *)
Definition isLetter (c : option ascii) : bool :=
  cbetween c "A" "Z" || cbetween c "a" "z".

(** ** asset-fbx-text.ts: tokens *)

Module TokenType.
Inductive t :=
| Invalid
| EOF
| Key
| String
| Number
| ArrayCount
| OpenBlock
| CloseBlock
| Comma.

Definition eqb (a b : t) : bool :=
  match a, b with
  | Invalid, Invalid | EOF, EOF | Key, Key | String, String
  | Number, Number | ArrayCount, ArrayCount | OpenBlock, OpenBlock
  | CloseBlock, CloseBlock | Comma, Comma => true
  | _, _ => false
  end.
End TokenType.

(** [val?: string | number] *)
Inductive TokenVal (N : Type) :=
| undefined
| vstring (s : string)
| vnumber (n : N).
Arguments undefined {N}.
Arguments vstring {N} s.
Arguments vnumber {N} n.

Module Token.
Record t (N : Type) := mk {
  type : TokenType.t;
  offset : Z;
  val : TokenVal N
}.
Arguments mk {N} type offset val.
Arguments type {N} t.
Arguments offset {N} t.
Arguments val {N} t.
End Token.

(** ** asset-fbx-text.ts: class FBXTextTokenizer *)

Module FBXTextTokenizer.
Record t := mk {
  source : list ascii;
  offset : Z;
  lastChar : option ascii
}.

(** [this.length], set once by the constructor *)
Definition length (this : t) : Z := Z.of_nat (List.length (source this)).

(** [new FBXTextTokenizer(source)] *)
Definition new (text : string) : t :=
  {| source := chars text; offset := -1; lastChar := None |}.

Definition nextChar (this : t) : option ascii * t :=
  let offset' := offset this + 1 in
  let c := if offset' <? length this then charAt (source this) offset' else None in
  (c, {| source := source this; offset := offset'; lastChar := c |}).

(** The shape shared by the four scanning loops of the class,
    [while (c = this.nextChar()) { if (stop(c)) break; }]: a one-character
    string is truthy, so the loop ends on [null] or on a stop character.
    Each round advances the cursor, so [fuel] bounds the rounds. *)
Fixpoint scan (stop : ascii -> bool) (fuel : nat) (this : t) : t :=
  match fuel with
  | O => this
  | S fuel' =>
      let '(c, this') := nextChar this in
      match c with
      | None => this'
      | Some ch => if stop ch then this' else scan stop fuel' this'
      end
  end.

(** More rounds than any scan can take from a cursor at or after -1. *)
Definition rounds (this : t) : nat := S (List.length (source this)).

Definition isWS (c : ascii) : bool :=
  Ascii.eqb c " " || Ascii.eqb c "009" || Ascii.eqb c "013" || Ascii.eqb c "010".

Definition isEOL (c : ascii) : bool :=
  Ascii.eqb c "013" || Ascii.eqb c "010".

Definition isStringEnd (c : ascii) : bool :=
  Ascii.eqb c "034" || Ascii.eqb c "013" || Ascii.eqb c "010".

Definition isBreak (c : ascii) : bool :=
  Ascii.eqb c " " || Ascii.eqb c "009" || Ascii.eqb c "013" || Ascii.eqb c "010"
  || Ascii.eqb c "," || Ascii.eqb c "{" || Ascii.eqb c "}".

Definition skipWS (this : t) : t :=
  scan (fun c => negb (isWS c)) (rounds this) this.

Definition skipToLineEnd (this : t) : t :=
  scan isEOL (rounds this) this.

Section WithNumbers.
Context {N : Type} `{JSNumber N}.

(** The closure [invalid()] of [nextToken], with the values of the
    variables it captures at the time of the call. *)
Definition invalid (this : t) (tokenStart tokenEnd : Z) : Token.t N :=
  Token.mk TokenType.Invalid tokenStart
    (vstring (str (substring (source this) tokenStart (tokenEnd + 1)))).

(** The branch of [nextToken] for a token that is neither a comment, a
    string literal nor a single-character token. *)
Definition word (this : t) (tokenStart : Z) (firstChar : option ascii)
  : Token.t N * t :=
  let this1 := scan isBreak (rounds this) this in
  let tokenEnd := offset this1 in
  let this2 := {| source := source this1; offset := offset this1 - 1;
                  lastChar := lastChar this1 |} in
  let token := substring (source this) tokenStart tokenEnd in
  if isLetter firstChar then
    if String.eqb (str token) "T" || String.eqb (str token) "Y" then
      (Token.mk TokenType.String tokenStart (vstring (str token)), this2)
    else if (List.length token <? 2)%nat || negb (ceq (last token) ":") then
      (invalid this tokenStart tokenEnd, this2)
    else
      (Token.mk TokenType.Key tokenStart
         (vstring (str (take (List.length token - 1) token))), this2)
  else if ceq firstChar "*" || ceq firstChar "-" || cbetween firstChar "0" "9" then
    if ceq firstChar "*" then
      if (List.length token <? 2)%nat then
        (invalid this tokenStart tokenEnd, this2)
      else
        match parseFloat (str (drop 1 token)) with
        | None => (invalid this tokenStart tokenEnd, this2)
        | Some count =>
            if negb (isInt32 count) || (toInt32 count <? 1) then
              (invalid this tokenStart tokenEnd, this2)
            else
              (Token.mk TokenType.ArrayCount tokenStart
                 (vnumber (ofInt32 (toInt32 count))), this2)
        end
    else
      match parseFloat (str token) with
      | None => (invalid this tokenStart tokenEnd, this2)
      | Some number => (Token.mk TokenType.Number tokenStart (vnumber number), this2)
      end
  else
    (invalid this tokenStart tokenEnd, this2).

(** [nextToken()].  It calls itself after a comment; the comment is at
    least one character long, so [fuel] bounds the depth of the calls and
    [None] is the model running out of it. *)
Fixpoint nextToken_fuel (fuel : nat) (this : t) : option (Token.t N * t) :=
  match fuel with
  | O => None
  | S fuel' =>
      let this := skipWS this in
      if length this <=? offset this then
        Some (Token.mk TokenType.EOF (length this) undefined,
              {| source := source this; offset := length this;
                 lastChar := lastChar this |})
      else
        let tokenStart := offset this in
        let c := lastChar this in
        if ceq c ";" then
          nextToken_fuel fuel' (skipToLineEnd this)
        else if ceq c "034" then
          let this1 := scan isStringEnd (rounds this) this in
          let tokenEnd := offset this1 in
          if negb (ceq (lastChar this1) "034") then
            Some (invalid this1 tokenStart tokenEnd, this1)
          else
            Some (Token.mk TokenType.String tokenStart
                    (vstring (str (substring (source this) (tokenStart + 1) tokenEnd))),
                  this1)
        else if ceq c "," then
          Some (Token.mk TokenType.Comma tokenStart undefined, this)
        else if ceq c "{" then
          Some (Token.mk TokenType.OpenBlock tokenStart undefined, this)
        else if ceq c "}" then
          Some (Token.mk TokenType.CloseBlock tokenStart undefined, this)
        else
          Some (word this tokenStart c)
  end.

Definition nextToken (this : t) : option (Token.t N * t) :=
  nextToken_fuel (rounds this) this.

(** [n] calls of [nextToken] in a row: the tokens they return and the
    tokenizer after them. *)
Fixpoint nextTokens (n : nat) (this : t) : option (list (Token.t N) * t) :=
  match n with
  | O => Some ([], this)
  | S n' =>
      match nextToken this with
      | None => None
      | Some (tok, this') =>
          match nextTokens n' this' with
          | None => None
          | Some (toks, this'') => Some (tok :: toks, this'')
          end
      end
  end.

(** The tokens handed out by successive calls, up to and without the
    first [EOF]; [fuel] bounds their number. *)
Fixpoint tokens_fuel (fuel : nat) (this : t) : option (list (Token.t N)) :=
  match fuel with
  | O => None
  | S fuel' =>
      match nextToken this with
      | None => None
      | Some (tok, this') =>
          if TokenType.eqb (Token.type tok) TokenType.EOF then Some []
          else option_map (cons tok) (tokens_fuel fuel' this')
      end
  end.

Definition tokenize (text : string) : option (list (Token.t N)) :=
  tokens_fuel (S (String.length text)) (new text).
End WithNumbers.
End FBXTextTokenizer.


(** ** asset-fbx.ts: namespace parse *)

(** Which typed array constructor made an array. *)
Inductive ArrayKind :=
| Int32Array
| Float32Array
| Float64Array.

(** A typed array: its constructor and its elements, as numbers. *)
Record TypedArray (N : Type) := mkTypedArray {
  kind : ArrayKind;
  elems : list N
}.
Arguments mkTypedArray {N} kind elems.
Arguments kind {N} t.
Arguments elems {N} t.

(** [type FBXValue = number | string | ArrayBuffer | TypedArray] *)
Inductive FBXValue (N : Type) :=
| VNumber (n : N)
| VString (s : string)
| VBuffer (bytes : list Byte.byte)
| VArray (a : TypedArray N).
Arguments VNumber {N} n.
Arguments VString {N} s.
Arguments VBuffer {N} bytes.
Arguments VArray {N} a.

Inductive FBXBlockAction :=
| Enter
| Skip.

Inductive FBXPropertyType :=
| Unknown
| Int
| Double
| Bool
| Time
| String
| Vector3D
| Vector4D
| Object
| Empty.

(** [s.toLowerCase()] for a string whose code units are below 256: the
    capital letters among them are A to Z and U+00C0 to U+00DE without the
    multiplication sign U+00D7, and the small letter of each is 32 code
    units further on. *)
Definition isUpper (c : ascii) : bool :=
  let n := N_of_ascii c in
  ((65 <=? n) && (n <=? 90) || (192 <=? n) && (n <=? 222) && negb (n =? 215))%N.

Definition lowerChar (c : ascii) : ascii :=
  if isUpper c then ascii_of_N (N_of_ascii c + 32) else c.

Definition toLowerCase (s : string) : string := str (map lowerChar (chars s)).

(** The table [fbxTypeNameMapping]. *)
Definition fbxTypeNameMapping : list (string * FBXPropertyType) :=
  [ ("enum", Int); ("int", Int); ("integer", Int);
    ("float", Double); ("double", Double); ("number", Double);
    ("ulonglong", Double); ("fieldofview", Double); ("fieldofviewx", Double);
    ("fieldofviewy", Double); ("roll", Double); ("opticalcenterx", Double);
    ("opticalcentery", Double);
    ("bool", Bool); ("visibility", Bool); ("visibility inheritance", Bool);
    ("ktime", Time);
    ("kstring", String); ("datetime", String);
    ("vector3d", Vector3D); ("vector", Vector3D); ("color", Vector3D);
    ("colorrgb", Vector3D); ("lcl translation", Vector3D);
    ("lcl rotation", Vector3D); ("lcl scaling", Vector3D);
    ("colorandalpha", Vector4D);
    ("object", Object); ("compound", Empty) ]%string.

(** The value that a table has for a key of its own. *)
Fixpoint tableLookup {A} (table : list (string * A)) (key : string) : option A :=
  match table with
  | [] => None
  | (k, v) :: rest => if String.eqb k key then Some v else tableLookup rest key
  end.

(** The names of the members of [Object.prototype]: every table that is
    written as an object literal inherits them, so that [table[key]] finds
    one of them for a key that is such a name and no key of the table.
    They are functions, but for [__proto__], which is [Object.prototype]
    itself; all of them are truthy and none is a value of the type that
    the table is declared with. *)
Definition objectPrototypeMembers : list string :=
  [ "constructor"; "hasOwnProperty"; "isPrototypeOf"; "propertyIsEnumerable";
    "toLocaleString"; "toString"; "valueOf"; "__proto__";
    "__defineGetter__"; "__defineSetter__"; "__lookupGetter__";
    "__lookupSetter__" ]%string.

Definition isPrototypeMember (key : string) : bool :=
  existsb (String.eqb key) objectPrototypeMembers.

(** What is read out of an object literal under a computed name: a value
    of the table, or the member of [Object.prototype] of that name. *)
Inductive Member (A : Type) :=
| Own (a : A)
| Inherited (name : string).
Arguments Own {A} a.
Arguments Inherited {A} name.

(** [table[key]] for a table written as an object literal; [None] is
    [undefined]. *)
Definition objectLookup {A} (table : list (string * A)) (key : string)
  : option (Member A) :=
  match tableLookup table key with
  | Some v => Some (Own v)
  | None => if isPrototypeMember key then Some (Inherited key) else None
  end.

(** [fbxTypeNameMapping[typeName.toLowerCase()] || FBXPropertyType.Unknown]:
    the values of the table and the inherited members are all truthy. *)
Definition propertyTypeFor (typeName : string) : Member FBXPropertyType :=
  default (Own Unknown) (objectLookup fbxTypeNameMapping (toLowerCase typeName)).

Record FBXProp70Prop (N : Type) := mkFBXProp70Prop {
  p70_name : string;
  p70_typeName : string;
  p70_type : Member FBXPropertyType;
  p70_values : list (FBXValue N)
}.
Arguments mkFBXProp70Prop {N} _ _ _ _.
Arguments p70_name {N} _.
Arguments p70_typeName {N} _.
Arguments p70_type {N} _.
Arguments p70_values {N} _.

(** [<string>v] where the string is then only passed on *)
Definition asString {N} (what : string) (v : option (FBXValue N)) : Result string :=
  match v with
  | Some (VString s) => Ok s
  | _ => Throw (Untyped what)
  end.

(** [interpretProp70P(pValues)]; the warning for an unknown type name is
    the [Unknown] of the result. *)
Definition interpretProp70P {N} (pValues : list (FBXValue N)) : Result (FBXProp70Prop N) :=
  _ ← assert (4 <=? length pValues)%nat "A P must have 4 or more values.";
  typeName ← match pValues !! 1%nat with
             | Some (VString s) => Ok s
             | _ => Throw (TypeError "typeName.toLowerCase is not a function")
             end;
  name ← asString "P name" (pValues !! 0%nat);
  Ok {| p70_name := name;
        p70_typeName := typeName;
        p70_type := propertyTypeFor typeName;
        p70_values := drop 4 pValues |}.

(** [interface FBXParserDelegate], over the state [D] of the object that
    implements it; every callback may throw. *)
Class FBXParserDelegate (N D : Type) := {
  block : string -> list (FBXValue N) -> D -> Result (FBXBlockAction * D);
  endBlock : D -> Result D;
  property : string -> list (FBXValue N) -> D -> Result D;
  typedProperty : string -> Member FBXPropertyType -> string -> list (FBXValue N) -> D
                  -> Result D;
  error : string -> Z -> string -> D -> Result D;
  completed : D -> Result D
}.

(** ** asset-fbx-text.ts: class FBXTextParser *)

Module Expect.
Definition Key : Z := 0x0001.
Definition Value : Z := 0x0002.
Definition Comma : Z := 0x0004.
Definition Open : Z := 0x0008.
Definition Close : Z := 0x0010.
Definition ArrayCount : Z := 0x0020.
Definition ValueOrOpen : Z := Z.lor Value Open.
Definition CommaOrOpenOrKey : Z := Z.lor (Z.lor Key Open) Comma.
End Expect.

Module FBXTextParser.
Record t (N D : Type) := mk {
  expect_ : Z;
  expectNextKey_ : option string;
  eof_ : bool;
  depth_ : Z;
  inProp70Block_ : bool;
  skippingUntilDepth_ : Z;
  array_ : option (TypedArray N);
  arrayLength_ : Z;
  arrayIndex_ : Z;
  values_ : list (FBXValue N);
  delegate_ : D
}.
Arguments mk {N D} _ _ _ _ _ _ _ _ _ _ _.
Arguments expect_ {N D} _.
Arguments expectNextKey_ {N D} _.
Arguments eof_ {N D} _.
Arguments depth_ {N D} _.
Arguments inProp70Block_ {N D} _.
Arguments skippingUntilDepth_ {N D} _.
Arguments array_ {N D} _.
Arguments arrayLength_ {N D} _.
Arguments arrayIndex_ {N D} _.
Arguments values_ {N D} _.
Arguments delegate_ {N D} _.

(** How a round of the loop of [parse] ends: at the end of the [switch], or
    by a [return] out of [parse]. *)
Inductive Flow :=
| Break
| Return.

Section Parser.
Context {N D : Type} `{JSNumber N} `{FBXParserDelegate N D}.

Local Abbreviation Parser := (t N D).

(** The parser before its first token; the tokenizer is kept apart, the
    parser sees it through the tokens it hands out. *)
Definition new (delegate : D) : Parser :=
  mk Expect.Key None false 0 false 1000 None 0 0 [] delegate.

Definition set_expect (e : Z) (p : Parser) : Parser :=
  mk e (expectNextKey_ p) (eof_ p) (depth_ p) (inProp70Block_ p)
     (skippingUntilDepth_ p) (array_ p) (arrayLength_ p) (arrayIndex_ p)
     (values_ p) (delegate_ p).
Definition set_expectNextKey (k : option string) (p : Parser) : Parser :=
  mk (expect_ p) k (eof_ p) (depth_ p) (inProp70Block_ p)
     (skippingUntilDepth_ p) (array_ p) (arrayLength_ p) (arrayIndex_ p)
     (values_ p) (delegate_ p).
Definition set_eof (b : bool) (p : Parser) : Parser :=
  mk (expect_ p) (expectNextKey_ p) b (depth_ p) (inProp70Block_ p)
     (skippingUntilDepth_ p) (array_ p) (arrayLength_ p) (arrayIndex_ p)
     (values_ p) (delegate_ p).
Definition set_depth (d : Z) (p : Parser) : Parser :=
  mk (expect_ p) (expectNextKey_ p) (eof_ p) d (inProp70Block_ p)
     (skippingUntilDepth_ p) (array_ p) (arrayLength_ p) (arrayIndex_ p)
     (values_ p) (delegate_ p).
Definition set_inProp70Block (b : bool) (p : Parser) : Parser :=
  mk (expect_ p) (expectNextKey_ p) (eof_ p) (depth_ p) b
     (skippingUntilDepth_ p) (array_ p) (arrayLength_ p) (arrayIndex_ p)
     (values_ p) (delegate_ p).
Definition set_skippingUntilDepth (d : Z) (p : Parser) : Parser :=
  mk (expect_ p) (expectNextKey_ p) (eof_ p) (depth_ p) (inProp70Block_ p)
     d (array_ p) (arrayLength_ p) (arrayIndex_ p)
     (values_ p) (delegate_ p).
Definition set_array (a : option (TypedArray N)) (p : Parser) : Parser :=
  mk (expect_ p) (expectNextKey_ p) (eof_ p) (depth_ p) (inProp70Block_ p)
     (skippingUntilDepth_ p) a (arrayLength_ p) (arrayIndex_ p)
     (values_ p) (delegate_ p).
Definition set_arrayLength (n : Z) (p : Parser) : Parser :=
  mk (expect_ p) (expectNextKey_ p) (eof_ p) (depth_ p) (inProp70Block_ p)
     (skippingUntilDepth_ p) (array_ p) n (arrayIndex_ p)
     (values_ p) (delegate_ p).
Definition set_arrayIndex (n : Z) (p : Parser) : Parser :=
  mk (expect_ p) (expectNextKey_ p) (eof_ p) (depth_ p) (inProp70Block_ p)
     (skippingUntilDepth_ p) (array_ p) (arrayLength_ p) n
     (values_ p) (delegate_ p).
Definition set_values (vs : list (FBXValue N)) (p : Parser) : Parser :=
  mk (expect_ p) (expectNextKey_ p) (eof_ p) (depth_ p) (inProp70Block_ p)
     (skippingUntilDepth_ p) (array_ p) (arrayLength_ p) (arrayIndex_ p)
     vs (delegate_ p).
Definition set_delegate (d : D) (p : Parser) : Parser :=
  mk (expect_ p) (expectNextKey_ p) (eof_ p) (depth_ p) (inProp70Block_ p)
     (skippingUntilDepth_ p) (array_ p) (arrayLength_ p) (arrayIndex_ p)
     (values_ p) d.

(** [e & flag] as a condition *)
Definition has (e flag : Z) : bool := negb (Z.land e flag =? 0).

(** [t.val.toString()] *)
Definition valToString (v : TokenVal N) : Result string :=
  match v with
  | undefined => Throw (TypeError "Cannot read property 'toString' of undefined")
  | vstring s => Ok s
  | vnumber n => Ok (numberToString n)
  end.

(** [token.val] stored as a value *)
Definition valValue (v : TokenVal N) : Result (FBXValue N) :=
  match v with
  | undefined => Throw (Untyped "token.val")
  | vstring s => Ok (VString s)
  | vnumber n => Ok (VNumber n)
  end.

(** [x == token.val] for a string [x] and the value of a [Key] token *)
Definition valIs (v : TokenVal N) (x : string) : bool :=
  match v with
  | vstring s => String.eqb x s
  | _ => false
  end.

Definition unexpected (this : Parser) (tok : Token.t N) : Result Parser :=
  s ← valToString (Token.val tok);
  d ← error (if TokenType.eqb (Token.type tok) TokenType.Invalid
             then "Invalid token" else "Unexpected token")%string
            (Token.offset tok) s (delegate_ this);
  Ok (set_eof true (set_delegate d this)).

Definition reportBlock (this : Parser) : Result (FBXBlockAction * Parser) :=
  _ ← assert (0 <? length (values_ this))%nat EmptyString;
  match array_ this with
  | None =>
      blockName ← asString "blockName" (values_ this !! 0%nat);
      if String.eqb blockName "Properties70" then
        Ok (Enter, set_values [] (set_inProp70Block true this))
      else if depth_ this <=? skippingUntilDepth_ this then
        '(blockAction, d) ← block blockName (drop 1 (values_ this)) (delegate_ this);
        Ok (blockAction, set_values [] (set_delegate d this))
      else
        Ok (Enter, set_values [] this)
  | Some _ => Ok (Enter, this)
  end.

Definition reportProperty (this : Parser) : Result Parser :=
  _ ← assert (0 <? length (values_ this))%nat EmptyString;
  let propName := values_ this !! 0%nat in
  let values := drop 1 (values_ this) in
  this' ←
    (if depth_ this <=? skippingUntilDepth_ this then
       if inProp70Block_ this then
         _ ← assert (match propName with
                     | Some (VString s) => String.eqb s "P"
                     | _ => false
                     end)
                    "Only P properties are allowed in a Properties70 block.";
         p70p ← interpretProp70P values;
         d ← typedProperty (p70_name p70p) (p70_type p70p) (p70_typeName p70p)
                           (p70_values p70p) (delegate_ this);
         Ok (set_delegate d this)
       else
         name ← asString "propName" propName;
         d ← property name values (delegate_ this);
         Ok (set_delegate d this)
     else Ok this);
  Ok (set_values [] this').

(** [==] between the first pending value and a key of the table *)
Definition keyIs (key : option (FBXValue N)) (x : string) : bool :=
  match key with
  | Some (VString s) => String.eqb s x
  | _ => false
  end.

(** The constructor [arrayForKey] picks; the warning for a key outside the
    table is left out. *)
Definition arrayKindForKey (key : option (FBXValue N)) : ArrayKind :=
  if keyIs key "PolygonVertexIndex" || keyIs key "UVIndex" || keyIs key "Edges"
     || keyIs key "Materials" || keyIs key "KeyAttrFlags" || keyIs key "KeyAttrRefCount"
  then Int32Array
  else if keyIs key "KeyValueFloat" || keyIs key "KeyAttrDataFloat"
  then Float32Array
  else if keyIs key "Vertices" || keyIs key "Normals" || keyIs key "NormalsW"
          || keyIs key "UV" || keyIs key "KeyTime"
  then Float64Array
  else Float64Array.

(** [new Int32Array(n)] and the like: [n] zeroes *)
Definition newArray (k : ArrayKind) (elementCount : Z) : TypedArray N :=
  mkTypedArray k (replicate (Z.to_nat elementCount) zero).

Definition arrayForKey (key : option (FBXValue N)) (elementCount : Z) : TypedArray N :=
  newArray (arrayKindForKey key) elementCount.

(** What a typed array keeps of a number stored in it. *)
Definition stored (k : ArrayKind) (x : N) : N :=
  match k with
  | Int32Array => ofInt32 (toInt32 x)
  | Float32Array => fround x
  | Float64Array => x
  end.

(** [a[i] = x]; a typed array ignores a store outside of it. *)
Definition arraySet (a : TypedArray N) (i : Z) (x : N) : TypedArray N :=
  if i <? 0 then a
  else mkTypedArray (kind a) (<[Z.to_nat i := stored (kind a) x]> (elems a)).

Definition withClose (this : Parser) : Parser :=
  if 0 <? depth_ this then set_expect (Z.lor (expect_ this) Expect.Close) this else this.

(** One round of the [do ... while] loop of [parse], for the token that
    [nextToken] returned. *)
Definition step (tok : Token.t N) (this : Parser) : Result (Flow * Parser) :=
  match Token.type tok with
  | TokenType.Key =>
      if has (expect_ this) Expect.Key then
        if match expectNextKey_ this with
           | None => true
           | Some k => valIs (Token.val tok) k
           end
        then
          this1 ←
            (if negb (valIs (Token.val tok) "a") then
               this' ← (if (0 <? length (values_ this))%nat
                        then reportProperty this else Ok this);
               v ← valValue (Token.val tok);
               Ok (set_values (values_ this' ++ [v]) this')
             else Ok this);
          Ok (Break, set_expectNextKey None (set_expect Expect.ValueOrOpen this1))
        else
          this' ← unexpected this tok; Ok (Return, this')
      else
        this' ← unexpected this tok; Ok (Return, this')
  | TokenType.String | TokenType.Number =>
      if match expectNextKey_ this with None => true | Some _ => false end
         && has (expect_ this) Expect.Value
      then
        match array_ this with
        | Some a =>
            match Token.type tok, Token.val tok with
            | TokenType.Number, vnumber x =>
                let a' := arraySet a (arrayIndex_ this) x in
                let this1 := set_arrayIndex (arrayIndex_ this + 1) (set_array (Some a') this) in
                let this2 :=
                  if arrayIndex_ this1 =? arrayLength_ this1 then
                    set_expect Expect.Close
                      (set_values (values_ this1 ++ [VArray a']) this1)
                  else set_expect Expect.Comma this1 in
                Ok (Break, withClose this2)
            | TokenType.Number, _ => Throw (Untyped "token.val")
            | _, _ =>
                s ← valToString (Token.val tok);
                d ← error "Only numbers are allowed in arrays" (Token.offset tok) s
                          (delegate_ this);
                Ok (Return, set_delegate d this)
            end
        | None =>
            v ← valValue (Token.val tok);
            Ok (Break, withClose (set_expect Expect.CommaOrOpenOrKey
                                    (set_values (values_ this ++ [v]) this)))
        end
      else
        this' ← unexpected this tok; Ok (Return, this')
  | TokenType.ArrayCount =>
      if match expectNextKey_ this with None => true | Some _ => false end
         && (expect_ this =? Expect.ValueOrOpen)
      then
        match Token.val tok with
        | vnumber n =>
            let a := arrayForKey (values_ this !! 0%nat) (toInt32 n) in
            Ok (Break,
                set_expectNextKey (Some "a"%string)
                  (set_expect Expect.Open
                     (set_arrayLength (Z.of_nat (length (elems a)))
                        (set_arrayIndex 0 (set_array (Some a) this)))))
        | _ => Throw (Untyped "token.val")
        end
      else
        this' ← unexpected this tok; Ok (Return, this')
  | TokenType.OpenBlock =>
      if has (expect_ this) Expect.Open then
        '(blockAction, this1) ← reportBlock this;
        let this2 :=
          match blockAction with
          | Skip => set_skippingUntilDepth (depth_ this1) this1
          | Enter => this1
          end in
        let this3 := set_depth (depth_ this2 + 1) this2 in
        let this4 := set_expect Expect.Key this3 in
        Ok (Break,
            match expectNextKey_ this4 with
            | None => set_expect (Z.lor (expect_ this4) Expect.Close) this4
            | Some _ => this4
            end)
      else
        this' ← unexpected this tok; Ok (Break, this')
  | TokenType.CloseBlock =>
      if match expectNextKey_ this with None => true | Some _ => false end
         && has (expect_ this) Expect.Close
      then
        this1 ← (if (0 <? length (values_ this))%nat
                 then reportProperty this else Ok this);
        this2 ←
          match array_ this1 with
          | Some _ => Ok (set_array None this1)
          | None =>
              if inProp70Block_ this1 then Ok (set_inProp70Block false this1)
              else if depth_ this1 <=? skippingUntilDepth_ this1 then
                d ← endBlock (delegate_ this1); Ok (set_delegate d this1)
              else Ok this1
          end;
        let this3 := set_depth (depth_ this2 - 1) this2 in
        let this4 :=
          if depth_ this3 =? skippingUntilDepth_ this3
          then set_skippingUntilDepth 1000 this3 else this3 in
        Ok (Break, withClose (set_expect Expect.Key this4))
      else
        this' ← unexpected this tok; Ok (Break, this')
  | TokenType.Comma =>
      if match expectNextKey_ this with None => true | Some _ => false end
         && has (expect_ this) Expect.Comma
      then Ok (Break, set_expect Expect.Value this)
      else
        this' ← unexpected this tok; Ok (Break, this')
  | TokenType.Invalid =>
      this' ← unexpected this tok; Ok (Break, this')
  | TokenType.EOF =>
      Ok (Break, set_eof true this)
  end.

(** The loop of [parse] over the tokens that successive calls of
    [nextToken] return before [EOF]; when they are used up the tokenizer
    returns [EOF], at the offset [eofOffset]. *)
Fixpoint run (eofOffset : Z) (toks : list (Token.t N)) (this : Parser) : Result Parser :=
  match toks with
  | [] =>
      '(_, this') ← step (Token.mk TokenType.EOF eofOffset undefined) this;
      Ok this'
  | tok :: rest =>
      '(flow, this') ← step tok this;
      match flow with
      | Return => Ok this'
      | Break => if eof_ this' then Ok this' else run eofOffset rest this'
      end
  end.

(** [new FBXTextParser(text, delegate).parse()]; [None] is the model of the
    tokenizer running out of fuel. *)
Definition parse (text : string) (delegate : D) : option (Result Parser) :=
  match FBXTextTokenizer.tokenize text with
  | None => None
  | Some toks => Some (run (Z.of_nat (String.length text)) toks (new delegate))
  end.
End Parser.
End FBXTextParser.


(** ** A delegate that records the calls it receives

    What a delegate answers to [block] can depend on all the calls it has
    seen, so the recorder carries that answer as a function of its
    history. *)

Inductive Call (N : Type) :=
| CBlock (name : string) (values : list (FBXValue N)) (action : FBXBlockAction)
| CEndBlock
| CProperty (name : string) (values : list (FBXValue N))
| CTypedProperty (name : string) (type : Member FBXPropertyType) (typeName : string)
                 (values : list (FBXValue N))
| CError (msg : string) (offset : Z) (token : string)
| CCompleted.
Arguments CBlock {N} _ _ _.
Arguments CEndBlock {N}.
Arguments CProperty {N} _ _.
Arguments CTypedProperty {N} _ _ _ _.
Arguments CError {N} _ _ _.
Arguments CCompleted {N}.

Record Recorder (N : Type) := mkRecorder {
  answer : list (Call N) -> string -> list (FBXValue N) -> FBXBlockAction;
  calls : list (Call N)
}.
Arguments mkRecorder {N} _ _.
Arguments answer {N} _.
Arguments calls {N} _.

Definition record {N} (c : Call N) (r : Recorder N) : Recorder N :=
  mkRecorder (answer r) (calls r ++ [c]).

Global Instance Recorder_delegate {N} : FBXParserDelegate N (Recorder N) := {
  block name values r :=
    let action := answer r (calls r) name values in
    Ok (action, record (CBlock name values action) r);
  endBlock r := Ok (record CEndBlock r);
  property name values r := Ok (record (CProperty name values) r);
  typedProperty name type typeName values r :=
    Ok (record (CTypedProperty name type typeName values) r);
  error msg offset token r := Ok (record (CError msg offset token) r);
  completed r := Ok (record CCompleted r)
}.

(** ** Numbers with integer values

    The instance of [JSNumber] used to run the model on concrete documents:
    the JavaScript numbers that are integers of a magnitude up to 2^53,
    each of which a double holds exactly.  On these the operations are
    those of JavaScript.  [parseFloat] answers [None] for a text that is no
    number, where JavaScript answers NaN, and also for a text that denotes
    a number which is no such integer: that number has no counterpart
    here. *)

Module IntNumbers.
Definition digit (c : ascii) : option Z :=
  if cbetween (Some c) "0" "9" then Some (Z.of_N (N_of_ascii c) - 48) else None.

(** The decimal digits that a text starts with, and what follows them. *)
Fixpoint digitsOf (cs : list ascii) : list Z * list ascii :=
  match cs with
  | [] => ([], [])
  | c :: rest =>
      match digit c with
      | Some d => let '(ds, tl) := digitsOf rest in (d :: ds, tl)
      | None => ([], cs)
      end
  end.

Definition valueOf (ds : list Z) : Z := foldl (fun acc d => 10 * acc + d) 0 ds.

(** The white space that [parseFloat] passes over at the start of a text,
    among the code units below 256: tab, line feed, vertical tab, form
    feed, carriage return, space and no-break space. *)
Definition isStrWhiteSpace (c : ascii) : bool :=
  let n := N_of_ascii c in
  ((9 <=? n) && (n <=? 13) || (n =? 32) || (n =? 160))%N.

Fixpoint skipStrWhiteSpace (cs : list ascii) : list ascii :=
  match cs with
  | c :: rest => if isStrWhiteSpace c then skipStrWhiteSpace rest else cs
  | [] => []
  end.

(** A sign at the start of a text: whether it is a minus sign, and what
    follows it. *)
Definition signOf (cs : list ascii) : bool * list ascii :=
  match cs with
  | "-"%char :: rest => (true, rest)
  | "+"%char :: rest => (false, rest)
  | _ => (false, cs)
  end.

(** The value of the exponent part that a text starts with: [e] or [E], an
    optional sign, and digits; 0 when the text starts with none. *)
Definition exponentOf (cs : list ascii) : Z :=
  match cs with
  | e :: rest =>
      if Ascii.eqb e "e" || Ascii.eqb e "E" then
        let '(neg, rest') := signOf rest in
        match digitsOf rest' with
        | ([], _) => 0
        | (ds, _) => if neg then - valueOf ds else valueOf ds
        end
      else 0
  | [] => 0
  end.

(** The longest unsigned decimal literal that a text starts with, as its
    digits and the power of ten they are to be taken with: digits with an
    optional fraction, or a fraction alone, and an optional exponent. *)
Definition literalOf (cs : list ascii) : option (list Z * Z) :=
  let '(int, rest) := digitsOf cs in
  let '(frac, rest) := match rest with
                       | "."%char :: rest' => digitsOf rest'
                       | _ => ([], rest)
                       end in
  match int ++ frac with
  | [] => None
  | ds => Some (ds, exponentOf rest - Z.of_nat (length frac))
  end.

(** The integer of a magnitude up to 2^53 that digits taken with a power
    of ten denote, if they denote one. *)
Definition integerOf (ds : list Z) (e : Z) : option Z :=
  let m := valueOf ds in
  if m =? 0 then Some 0
  else if 16 <? e then None
  else if e <? - Z.of_nat (length ds) then None
  else
    let z := if 0 <=? e then Some (m * 10 ^ e)
             else if m mod 10 ^ (- e) =? 0 then Some (m / 10 ^ (- e)) else None in
    z ≫= fun z => if z <=? 2 ^ 53 then Some z else None.

Definition parseInteger (s : string) : option Z :=
  let '(neg, cs) := signOf (skipStrWhiteSpace (chars s)) in
  '(ds, e) ← literalOf cs;
  z ← integerOf ds e;
  Some (if neg then - z else z).

Definition wrap32 (z : Z) : Z := (z + 2 ^ 31) mod 2 ^ 32 - 2 ^ 31.

(** The nearest integer that a 32-bit float holds, which has 24
    significant bits; of two that are equally near, the one whose last
    significant bit is 0. *)
Definition fround32 (z : Z) : Z :=
  let a := Z.abs z in
  let k := Z.log2 a - 23 in
  if k <=? 0 then z
  else
    let q := a / 2 ^ k in
    let r := a mod 2 ^ k in
    let half := 2 ^ (k - 1) in
    let q' := if (half <? r) || ((r =? half) && Z.odd q) then q + 1 else q in
    Z.sgn z * (q' * 2 ^ k).

(** The decimal digits of a natural number, most significant first; the
    number has at most [fuel] of them. *)
Fixpoint decimalDigits (fuel : nat) (n : Z) (acc : list ascii) : list ascii :=
  match fuel with
  | O => acc
  | S fuel' =>
      let acc' := ascii_of_N (Z.to_N (48 + n mod 10)) :: acc in
      if n <? 10 then acc' else decimalDigits fuel' (n / 10) acc'
  end.

Definition decimal (z : Z) : string :=
  let a := Z.abs z in
  str ((if z <? 0 then ["-"%char] else [])
         ++ decimalDigits (Datatypes.S (Z.to_nat (Z.log2 a))) a []).

Global Instance Z_JSNumber : JSNumber Z := {
  parseFloat := parseInteger;
  toInt32 := wrap32;
  isInt32 z := z =? wrap32 z;
  fround := fround32;
  zero := 0;
  ofInt32 z := z;
  numberToString := decimal
}.
End IntNumbers.

(** ** Warnings *)

(** A call that may write warnings to the console before it returns or
    throws: the lines passed to [console.warn], in order, and the outcome. *)
Record Eff (A : Type) := mkEff {
  warnings : list string;
  outcome : Result A
}.
Arguments mkEff {A} _ _.
Arguments warnings {A} _.
Arguments outcome {A} _.

Global Instance Eff_bind : MBind Eff := fun A B k m =>
  match outcome m with
  | Ok a => mkEff (warnings m ++ warnings (k a)) (outcome (k a))
  | Throw e => mkEff (warnings m) (Throw e)
  end.
Global Instance Eff_ret : MRet Eff := fun A a => mkEff [] (Ok a).

(** [console.warn(msg)] *)
Definition warn (msg : string) : Eff unit := mkEff [msg] (Ok tt).

(** A call that writes nothing. *)
Definition quiet {A} (r : Result A) : Eff A := mkEff [] r.

(** [for (x of xs) { body }] over an accumulator *)
Fixpoint forOf {A S} (xs : list A) (body : A -> S -> Eff S) (s : S) : Eff S :=
  match xs with
  | [] => mret s
  | x :: rest => s' ← body x s; forOf rest body s'
  end.

(** ** Promises

    A promise is modelled by the state it settles in. *)
Inductive Reason :=
| Message (msg : string)
| Exception (e : Exn).

Inductive Settled (A : Type) :=
| Fulfilled (a : A)
| Rejected (reason : Reason).
Arguments Fulfilled {A} a.
Arguments Rejected {A} reason.

(** The line that [console.warn(reason)] writes. *)
Definition reasonLine (r : Reason) : string :=
  match r with
  | Message msg => msg
  | Exception (TypeError what) => ("TypeError: " ++ what)%string
  | Exception (AssertionFailed msg) => msg
  | Exception (Untyped what) => what
  end.

(** [Promise.all(ps)]: the values when all are fulfilled, else rejected with
    the reason of one of the rejected ones (here the first in the list;
    which one it is depends on timing, and no caller looks at it). *)
Fixpoint promiseAll {A} (ps : list (Settled A)) : Settled (list A) :=
  match ps with
  | [] => Fulfilled []
  | Fulfilled a :: rest =>
      match promiseAll rest with
      | Fulfilled l => Fulfilled (a :: l)
      | Rejected r => Rejected r
      end
  | Rejected r :: _ => Rejected r
  end.

(** ** asset-io.ts *)

(** [s.lastIndexOf(".")] *)
Fixpoint lastIndexOfDot (cs : list ascii) (i : Z) (found : Z) : Z :=
  match cs with
  | [] => found
  | c :: rest => lastIndexOfDot rest (i + 1) (if Ascii.eqb c "." then i else found)
  end.

Definition fileExtensionOfFilePath (filePath : string) : string :=
  let lastDot := lastIndexOfDot (chars filePath) 0 (-1) in
  if -1 <? lastDot then
    toLowerCase (str (drop (Z.to_nat (lastDot + 1)) (chars filePath)))
  else EmptyString.

Definition mimeTypeMapping : list (string * string) :=
  [ ("bm", "image/bmp"); ("bmp", "image/bmp"); ("png", "image/png");
    ("jpg", "image/jpeg"); ("jpeg", "image/jpeg"); ("gif", "image/gif") ]%string.

(** [mimeTypeForFilePath(filePath)]: [mimeTypeMapping[ext] || null], where
    the mime types of the table and the inherited members are all truthy;
    [None] is [null].  The argument is [undefined] when the texture has no
    file path, and reading its extension then throws. *)
Definition mimeTypeForFilePath (filePath : option string)
  : Result (option (Member string)) :=
  match filePath with
  | None => Throw (TypeError "Cannot read property 'lastIndexOf' of undefined")
  | Some p => Ok (objectLookup mimeTypeMapping (fileExtensionOfFilePath p))
  end.

(** What the importer uses of the browser and of the renderer: loading and
    decoding images, and the descriptor made of a loaded image.
    [resolveRelativeFilePath] only prepares the argument of [loadImage]. *)
Class Platform (Image TexDesc : Type) := {
  loadImage : string -> Settled Image;
  loadImageFromBuffer : FBXValue Z -> Member string -> Settled Image;
  resolveRelativeFilePath : string -> string -> string;
  makeTexDesc2DFromImageSource : Image -> bool -> TexDesc
}.

(** ** asset-fbx.ts: class Node

    Nodes are JavaScript objects that point at each other (children, parent,
    the nodes of a connection) and are changed in place, so they live in a
    heap and are named by their address in it. *)

Definition NodeRef := nat.

(** [interface Connection] *)
Record Connection := mkConnection {
  fromID : Z;
  fromNode : option NodeRef;
  toID : Z;
  toNode : option NodeRef;
  propName : option string
}.

Module Node.
Record t := mk {
  name : string;
  type : Member FBXPropertyType;
  typeName : string;
  values : list (FBXValue Z);
  children : list NodeRef;
  parent : option NodeRef;
  connectionsIn : list Connection;
  connectionsOut : list Connection
}.

(** [new Node(name, values, type, typeName)] *)
Definition new (name : string) (values : list (FBXValue Z))
    (type : Member FBXPropertyType) (typeName : string) : t :=
  mk name type typeName values [] None [] [].

Definition set_parent (p : option NodeRef) (n : t) : t :=
  mk (name n) (type n) (typeName n) (values n) (children n) p
     (connectionsIn n) (connectionsOut n).
Definition push_child (c : NodeRef) (n : t) : t :=
  mk (name n) (type n) (typeName n) (values n) (children n ++ [c]) (parent n)
     (connectionsIn n) (connectionsOut n).
Definition push_connectionIn (c : Connection) (n : t) : t :=
  mk (name n) (type n) (typeName n) (values n) (children n) (parent n)
     (connectionsIn n ++ [c]) (connectionsOut n).
Definition push_connectionOut (c : Connection) (n : t) : t :=
  mk (name n) (type n) (typeName n) (values n) (children n) (parent n)
     (connectionsIn n) (connectionsOut n ++ [c]).

(** [s.split("::")] *)
Fixpoint splitColons (cs : list ascii) (cur : list ascii) : list (list ascii) :=
  match cs with
  | [] => [rev cur]
  | c :: rest =>
      match rest with
      | c' :: rest' =>
          if Ascii.eqb c ":" && Ascii.eqb c' ":"
          then rev cur :: splitColons rest' []
          else splitColons rest (c :: cur)
      | [] => [rev (c :: cur)]
      end
  end.

(** [objectName()]; [None] is [undefined]. *)
Definition objectName (this : t) : Result (option string) :=
  match values this !! 1%nat with
  | Some (VString cns) => Ok (str <$> (splitColons (chars cns) [] !! 1%nat))
  | _ => Throw (TypeError "cns.split is not a function")
  end.
End Node.

(** The heap of nodes; a new node gets the next free address. *)
Abbreviation Heap := (list Node.t).

Definition alloc (n : Node.t) (h : Heap) : NodeRef * Heap := (length h, h ++ [n]).

(** Reading through a reference that may be [null]. *)
Definition deref (h : Heap) (r : option NodeRef) : Result Node.t :=
  match r with
  | None => Throw (TypeError "Cannot read property of null")
  | Some a =>
      match h !! a with
      | Some n => Ok n
      | None => Throw (Untyped "dangling reference")
      end
  end.

(** [this.appendChild(node)] for the node at address [this] *)
Definition appendChild (this node : NodeRef) (h : Heap) : Result Heap :=
  n ← deref h (Some node);
  _ ← assert (match Node.parent n with None => true | Some _ => false end)
             "Can't re-parent a Node";
  Ok (alter (Node.push_child node) this
        (alter (Node.set_parent (Some this)) node h)).

(** ** Objects used as maps from ids to nodes

    [type ObjectSet = { [id: number]: Node }].  The properties of a
    JavaScript object are enumerated with the array indices first, in
    ascending order, and then the other keys in the order they were
    added. *)
Abbreviation ObjectSet := (list (Z * NodeRef)).

Definition isArrayIndex (id : Z) : bool := (0 <=? id) && (id <? 2 ^ 32 - 1).

(** [set[id]] *)
Fixpoint os_get (id : Z) (set : ObjectSet) : option NodeRef :=
  match set with
  | [] => None
  | (k, r) :: rest => if k =? id then Some r else os_get id rest
  end.

Fixpoint os_replace (id : Z) (node : NodeRef) (set : ObjectSet) : ObjectSet :=
  match set with
  | [] => []
  | (k, r) :: rest =>
      if k =? id then (k, node) :: rest else (k, r) :: os_replace id node rest
  end.

Fixpoint os_insertIndex (id : Z) (node : NodeRef) (set : ObjectSet) : ObjectSet :=
  match set with
  | [] => [(id, node)]
  | (k, r) :: rest =>
      if isArrayIndex k && (k <? id) then (k, r) :: os_insertIndex id node rest
      else (id, node) :: (k, r) :: rest
  end.

(** [set[id] = node] *)
Definition os_set (id : Z) (node : NodeRef) (set : ObjectSet) : ObjectSet :=
  match os_get id set with
  | Some _ => os_replace id node set
  | None =>
      if isArrayIndex id then os_insertIndex id node set
      else set ++ [(id, node)]
  end.

(** [Object.keys(set)], also the order of [for (id in set)] *)
Definition os_keys (set : ObjectSet) : list Z := map fst set.

(** ** Assets *)

(** The image source and texture descriptor types of the renderer are left
    open. *)
Record Texture2D (TexDesc : Type) := mkTexture2D {
  tex_name : option string;
  tex_userRef : Z;
  useMipMaps : bool;
  filePath : option string;
  descriptor : option TexDesc
}.
Arguments mkTexture2D {TexDesc} _ _ _ _ _.
Arguments tex_name {TexDesc} _.
Arguments tex_userRef {TexDesc} _.
Arguments useMipMaps {TexDesc} _.
Arguments filePath {TexDesc} _.
Arguments descriptor {TexDesc} _.

(** [vec3.copy(out, a)] and [vec2.copy(out, a)] take the leading elements
    of [a]; an element that [a] does not have is [None]. *)
Definition vecCopy (n : nat) (a : list (FBXValue Z)) : list (option (FBXValue Z)) :=
  map (fun i => a !! i) (seq 0 n).

(** A material, with the fields that the importer writes; [None] is the
    value [makeMaterial()] gave the field. *)
Record Material (TexDesc : Type) := mkMaterial {
  mat_name : option (option string);
  mat_userRef : option Z;
  diffuseColour : option (list (option (FBXValue Z)));
  specularColour : option (list (option (FBXValue Z)));
  specularIntensity : option (option (FBXValue Z));
  specularExponent : option (option (FBXValue Z));
  diffuseTexture : option (Texture2D TexDesc);
  textureOffset : option (list (option (FBXValue Z)));
  textureScale : option (list (option (FBXValue Z)))
}.
Arguments mkMaterial {TexDesc} _ _ _ _ _ _ _ _ _.
Arguments mat_name {TexDesc} _.
Arguments mat_userRef {TexDesc} _.
Arguments diffuseColour {TexDesc} _.
Arguments specularColour {TexDesc} _.
Arguments specularIntensity {TexDesc} _.
Arguments specularExponent {TexDesc} _.
Arguments diffuseTexture {TexDesc} _.
Arguments textureOffset {TexDesc} _.
Arguments textureScale {TexDesc} _.

Definition makeMaterial {TexDesc} : Material TexDesc :=
  mkMaterial None None None None None None None None None.

Inductive VertexAttributeRole :=
| RoleNormal
| RoleColour
| RoleUV
| RoleTangent
| RoleMaterial.

Inductive VertexField :=
| Floatx2
| Floatx3
| Floatx4
| SInt32.

Inductive VertexAttributeMapping :=
| MappingUndefined
| MappingVertex
| MappingPolygonVertex
| MappingPolygon
| MappingSingleValue.

(** [mesh.VertexAttributeStream] *)
Record VertexAttributeStream := mkStream {
  stream_name : option (FBXValue Z);
  attr : option (VertexAttributeRole * VertexField);
  includeInMesh : bool;
  controlsGrouping : bool;
  mapping : VertexAttributeMapping;
  stream_values : option (FBXValue Z);
  indexes : option (FBXValue Z)
}.

(** Modelled from the spec: the class [mesh.MeshBuilder] is not part of the
    sources at hand.  A completed polygon's local polygon-vertex-index and
    vertex-index lists are committed to the mesh builder; the builder is
    modelled by what it was made of and the polygons committed to it, in
    order, and the mesh data it completes to by the builder itself. *)
Record MeshBuilder := mkMeshBuilder {
  mb_positions : option (FBXValue Z);
  mb_streams : list VertexAttributeStream;
  polygons : list (list Z * list Z)
}.

Definition addPolygon (polygonVertexIndexArray vertexIndexArray : list Z)
    (mb : MeshBuilder) : MeshBuilder :=
  mkMeshBuilder (mb_positions mb) (mb_streams mb)
    (polygons mb ++ [(polygonVertexIndexArray, vertexIndexArray)]).

Record Mesh := mkMesh {
  mesh_name : option string;
  mesh_userRef : option (FBXValue Z);
  positions : option (FBXValue Z);
  streams : list VertexAttributeStream;
  meshData : option MeshBuilder
}.

Record Model (TexDesc : Type) := mkModel {
  model_name : option string;
  model_userRef : option (FBXValue Z);
  model_mesh : option Mesh;
  model_materials : list (Material TexDesc);
  position : list (option (FBXValue Z));
  rotationEuler : option (list (option (FBXValue Z)));
  scale : list (option (FBXValue Z))
}.
Arguments mkModel {TexDesc} _ _ _ _ _ _ _.
Arguments model_name {TexDesc} _.
Arguments model_userRef {TexDesc} _.
Arguments model_mesh {TexDesc} _.
Arguments model_materials {TexDesc} _.
Arguments position {TexDesc} _.
Arguments rotationEuler {TexDesc} _.
Arguments scale {TexDesc} _.

(** Modelled from the spec: the class [AssetGroup] is not part of the
    sources at hand.  It exposes the ordered collections textures,
    materials, meshes and models; an added asset is appended to its
    collection, and a null texture is added as it is, not skipped. *)
Record AssetGroup (TexDesc : Type) := mkAssetGroup {
  textures : list (option (Texture2D TexDesc));
  materials : list (Material TexDesc);
  meshes : list Mesh;
  models : list (Model TexDesc)
}.
Arguments mkAssetGroup {TexDesc} _ _ _ _.
Arguments textures {TexDesc} _.
Arguments materials {TexDesc} _.
Arguments meshes {TexDesc} _.
Arguments models {TexDesc} _.

Definition newAssetGroup {TexDesc} : AssetGroup TexDesc := mkAssetGroup [] [] [] [].

Definition addTexture {TexDesc} (tex : option (Texture2D TexDesc))
    (g : AssetGroup TexDesc) : AssetGroup TexDesc :=
  mkAssetGroup (textures g ++ [tex]) (materials g) (meshes g) (models g).
Definition addMaterial {TexDesc} (mat : Material TexDesc)
    (g : AssetGroup TexDesc) : AssetGroup TexDesc :=
  mkAssetGroup (textures g) (materials g ++ [mat]) (meshes g) (models g).
Definition addMesh {TexDesc} (m : Mesh) (g : AssetGroup TexDesc) : AssetGroup TexDesc :=
  mkAssetGroup (textures g) (materials g) (meshes g ++ [m]) (models g).
Definition addModel {TexDesc} (m : Model TexDesc)
    (g : AssetGroup TexDesc) : AssetGroup TexDesc :=
  mkAssetGroup (textures g) (materials g) (meshes g) (models g ++ [m]).

(** Using a group that may be [null]. *)
Definition theGroup {TexDesc} (g : option (AssetGroup TexDesc)) : Result (AssetGroup TexDesc) :=
  match g with
  | Some g => Ok g
  | None => Throw (TypeError "Cannot read property of null")
  end.

(** [interface FBXResolveOptions]; [None] is a property that is not there. *)
Record FBXResolveOptions := mkOptions {
  allowMissingTextures : option bool
}.

(** ** asset-fbx.ts: class FBXDocumentGraph *)

(** [<number>v] where the number is then used as one *)
Definition asNumber (what : string) (v : option (FBXValue Z)) : Result Z :=
  match v with
  | Some (VNumber z) => Ok z
  | _ => Throw (Untyped what)
  end.

(** [v == s] for a value that is expected to be a string *)
Definition valueIs (v : option (FBXValue Z)) (s : string) : bool :=
  match v with
  | Some (VString x) => String.eqb x s
  | _ => false
  end.

(** [v != s] for a value and a string literal that is not numeric *)
Definition valueIsNot (v : option (FBXValue Z)) (s : string) : bool :=
  match v with
  | Some (VString x) => negb (String.eqb x s)
  | _ => true
  end.

(** [if (v)] for a value that may be [undefined] *)
Definition truthy (v : option (FBXValue Z)) : bool :=
  match v with
  | None => false
  | Some (VNumber z) => negb (z =? 0)
  | Some (VString s) => negb (String.eqb s EmptyString)
  | Some (VBuffer _) => true
  | Some (VArray _) => true
  end.

Module FBXDocumentGraph.
Record t := mk {
  fbxFilePath : string;
  globals : list NodeRef;
  allObjects : ObjectSet;
  geometryNodes : ObjectSet;
  videoNodes : ObjectSet;
  textureNodes : ObjectSet;
  materialNodes : ObjectSet;
  modelNodes : ObjectSet;
  connections : list Connection;
  rootNode : NodeRef;
  (** the nodes that the graph and its builder point at *)
  heap : Heap
}.

Definition set_heap (h : Heap) (g : t) : t :=
  mk (fbxFilePath g) (globals g) (allObjects g) (geometryNodes g) (videoNodes g)
     (textureNodes g) (materialNodes g) (modelNodes g) (connections g)
     (rootNode g) h.

(** [new FBXDocumentGraph(fbxFilePath)] *)
Definition new (fbxFilePath : string) : t :=
  let rootNode :=
    Node.new "RootNode" [VNumber 0; VString "Model::RootNode"; VString "RootNode"]
             (Own Unknown) EmptyString in
  mk fbxFilePath [] [(0, 0%nat)] [] [] [] [] [] [] 0%nat [rootNode].

Definition globalSetting (node : NodeRef) (g : t) : t :=
  mk (fbxFilePath g) (globals g ++ [node]) (allObjects g) (geometryNodes g)
     (videoNodes g) (textureNodes g) (materialNodes g) (modelNodes g)
     (connections g) (rootNode g) (heap g).

(** The five sets that [typeSetMap] names. *)
Inductive ObjectClass :=
| GeometrySet
| VideoSet
| TextureSet
| MaterialSet
| ModelSet.

(** The set that the object literal [typeSetMap] has for a key of its
    own. *)
Definition typeSetMap (name : string) : option ObjectClass :=
  if String.eqb name "Geometry" then Some GeometrySet
  else if String.eqb name "Video" then Some VideoSet
  else if String.eqb name "Texture" then Some TextureSet
  else if String.eqb name "Material" then Some MaterialSet
  else if String.eqb name "Model" then Some ModelSet
  else None.

(** [set[id] = node; this.allObjects[id] = node] for the set of a class *)
Definition store (c : ObjectClass) (id : Z) (node : NodeRef) (g : t) : t :=
  let put := os_set id node in
  mk (fbxFilePath g) (globals g) (put (allObjects g))
     (match c with GeometrySet => put (geometryNodes g) | _ => geometryNodes g end)
     (match c with VideoSet => put (videoNodes g) | _ => videoNodes g end)
     (match c with TextureSet => put (textureNodes g) | _ => textureNodes g end)
     (match c with MaterialSet => put (materialNodes g) | _ => materialNodes g end)
     (match c with ModelSet => put (modelNodes g) | _ => modelNodes g end)
     (connections g) (rootNode g) (heap g).

(** [set[id] = node; this.allObjects[id] = node] where [set] is a function
    that [typeSetMap] inherits from [Object.prototype]: the node becomes a
    property of that function, which no part of the importer reads, and an
    entry of [allObjects]. *)
Definition storeInherited (id : Z) (node : NodeRef) (g : t) : t :=
  mk (fbxFilePath g) (globals g) (os_set id node (allObjects g))
     (geometryNodes g) (videoNodes g) (textureNodes g) (materialNodes g)
     (modelNodes g) (connections g) (rootNode g) (heap g).

(** [addObject(node)].  [typeSetMap[node.name]] is one of the five sets for
    a key of the literal, a member of [Object.prototype] for the name of
    one, which passes the assertion as well, and [undefined] for any other
    name.  For the name [__proto__] the set is [Object.prototype] itself,
    and the store into it adds a property to every object of the program:
    that case is outside this model. *)
Definition addObject (node : option NodeRef) (g : t) : Result t :=
  n ← deref (heap g) node;
  let id := Node.values n !! 0%nat in
  let subClass := Node.values n !! 2%nat in
  match typeSetMap (Node.name n), node with
  | Some c, Some r =>
      if match c with
         | ModelSet => valueIsNot subClass "Mesh"
         | VideoSet => valueIsNot subClass "Clip"
         | _ => false
         end
      then Ok g
      else id ← asNumber "id" id; Ok (store c id r g)
  | None, Some r =>
      if isPrototypeMember (Node.name n) then
        if String.eqb (Node.name n) "__proto__"
        then Throw (Untyped "typeSetMap.__proto__")
        else id ← asNumber "id" id; Ok (storeInherited id r g)
      else Throw (AssertionFailed ("Unknown object class " ++ Node.name n))
  | _, None => Throw (AssertionFailed ("Unknown object class " ++ Node.name n))
  end.

Definition addConnection (conn : Connection) (g : t) : Eff t :=
  let conn :=
    mkConnection (fromID conn) (os_get (fromID conn) (allObjects g))
                 (toID conn) (os_get (toID conn) (allObjects g)) (propName conn) in
  match fromNode conn, toNode conn with
  | Some f, Some t =>
      let h1 := alter (Node.push_connectionOut conn) f (heap g) in
      let h2 := alter (Node.push_connectionIn conn) t h1 in
      mret (mk (fbxFilePath g) (globals g) (allObjects g) (geometryNodes g)
              (videoNodes g) (textureNodes g) (materialNodes g) (modelNodes g)
              (connections g ++ [conn]) (rootNode g) h2)
  | _, _ => mret g
  end.

Section Resolve.
Context {Image TexDesc : Type} `{Platform Image TexDesc}.

Local Abbreviation Texture2D := (Texture2D TexDesc).
Local Abbreviation AssetGroup := (AssetGroup TexDesc).

(** What [allowMissingTextures] decides when a texture cannot be made:
    warn and resolve to [null], or reject. *)
Definition missing (options : FBXResolveOptions) (err : Reason)
  : Eff (Settled (option Texture2D)) :=
  if default false (allowMissingTextures options) then
    _ ← warn (reasonLine err); mret (Fulfilled None)
  else mret (Rejected err).

(** [tex.descriptor = makeTexDesc(img)] *)
Definition withDescriptor (tex : Texture2D) (img : Image) : Texture2D :=
  mkTexture2D (tex_name tex) (tex_userRef tex) (useMipMaps tex) (filePath tex)
    (Some (makeTexDesc2DFromImageSource img (useMipMaps tex))).

(** The body of the loop over the children of a Video node. *)
Definition videoChild (h : Heap) (cref : NodeRef)
    (acc : Texture2D * option (FBXValue Z)) : Eff (Texture2D * option (FBXValue Z)) :=
  let '(tex, fileData) := acc in
  c ← quiet (deref h (Some cref));
  if String.eqb (Node.name c) "UseMipMap" then
    v ← quiet (asNumber "UseMipMap" (Node.values c !! 0%nat));
    mret (mkTexture2D (tex_name tex) (tex_userRef tex) (negb (v =? 0))
            (filePath tex) (descriptor tex), fileData)
  else if String.eqb (Node.name c) "RelativeFilename" then
    p ← quiet (match Node.values c !! 0%nat with
               | None => Ok None
               | Some (VString s) => Ok (Some s)
               | Some _ => Throw (Untyped "RelativeFilename")
               end);
    mret (mkTexture2D (tex_name tex) (tex_userRef tex) (useMipMaps tex)
            p (descriptor tex), fileData)
  else if String.eqb (Node.name c) "Content" then
    mret (tex, Node.values c !! 0%nat)
  else mret acc.

(** The promise that [loadTextures] makes for one Video node. *)
Definition textureOf (this : t) (options : FBXResolveOptions) (vidID : Z)
  : Eff (Settled (option Texture2D)) :=
  fbxVideo ← quiet (deref (heap this) (os_get vidID (videoNodes this)));
  name ← quiet (Node.objectName fbxVideo);
  '(tex, fileData) ←
    forOf (Node.children fbxVideo) (videoChild (heap this))
          (mkTexture2D name vidID false None None, None);
  if truthy fileData then
    match mimeTypeForFilePath (filePath tex) with
    | Throw e => mret (Rejected (Exception e))
    | Ok None =>
        let err := ("Cannot create texture, no mime-type found for file path "
                    ++ default "undefined" (filePath tex))%string in
        missing options (Message err)
    | Ok (Some mime) =>
        match fileData with
        | None => mret (Rejected (Exception (Untyped "fileData")))
        | Some data =>
            match loadImageFromBuffer data mime with
            | Fulfilled img => mret (Fulfilled (Some (withDescriptor tex img)))
            | Rejected error => missing options error
            end
        end
    end
  else
    match filePath tex with
    | None => quiet (Throw (TypeError "Cannot read property 'replace' of undefined"))
    | Some relPath =>
        match loadImage (resolveRelativeFilePath relPath (fbxFilePath this)) with
        | Fulfilled img => mret (Fulfilled (Some (withDescriptor tex img)))
        | Rejected error => missing options error
        end
    end.

(** [loadTextures(group, options)]: the promise it returns always fulfills,
    with the group or, when a texture promise was rejected, with [null]. *)
Definition loadTextures (this : t) (group : AssetGroup) (options : FBXResolveOptions)
  : Eff (Settled (option AssetGroup)) :=
  fileProms ←
    forOf (os_keys (videoNodes this))
          (fun vidID proms => p ← textureOf this options vidID; mret (proms ++ [p]))
          [];
  match promiseAll fileProms with
  | Fulfilled texs => mret (Fulfilled (Some (foldl (fun g tex => addTexture tex g) group texs)))
  | Rejected _ => mret (Fulfilled None)
  end.

(** [group.textures.find((t) => t && <number>t.userRef == id)] *)
Definition findTexture (id : Z) (texs : list (option Texture2D)) : option Texture2D :=
  mjoin (List.find (fun t => match t with
                             | Some tex => tex_userRef tex =? id
                             | None => false
                             end) texs).

(** The body of the loop over the children of a Material node. *)
Definition materialChild (h : Heap) (cref : NodeRef) (mat : Material TexDesc)
  : Eff (Material TexDesc) :=
  c ← quiet (deref h (Some cref));
  if String.eqb (Node.name c) "DiffuseColor" then
    mret (mkMaterial (mat_name mat) (mat_userRef mat) (Some (vecCopy 3 (Node.values c)))
            (specularColour mat) (specularIntensity mat) (specularExponent mat)
            (diffuseTexture mat) (textureOffset mat) (textureScale mat))
  else if String.eqb (Node.name c) "SpecularColor" then
    mret (mkMaterial (mat_name mat) (mat_userRef mat) (diffuseColour mat)
            (Some (vecCopy 3 (Node.values c))) (specularIntensity mat)
            (specularExponent mat) (diffuseTexture mat) (textureOffset mat)
            (textureScale mat))
  else if String.eqb (Node.name c) "SpecularFactor" then
    mret (mkMaterial (mat_name mat) (mat_userRef mat) (diffuseColour mat)
            (specularColour mat) (Some (Node.values c !! 0%nat))
            (specularExponent mat) (diffuseTexture mat) (textureOffset mat)
            (textureScale mat))
  else if String.eqb (Node.name c) "ShininessExponent" then
    mret (mkMaterial (mat_name mat) (mat_userRef mat) (diffuseColour mat)
            (specularColour mat) (specularIntensity mat)
            (Some (Node.values c !! 0%nat)) (diffuseTexture mat) (textureOffset mat)
            (textureScale mat))
  else mret mat.

(** The body of the loop over the children of the Texture node that is
    linked to a material. *)
Definition textureChild (h : Heap) (cref : NodeRef) (mat : Material TexDesc)
  : Eff (Material TexDesc) :=
  tc ← quiet (deref h (Some cref));
  if String.eqb (Node.name tc) "ModelUVTranslation" then
    mret (mkMaterial (mat_name mat) (mat_userRef mat) (diffuseColour mat)
            (specularColour mat) (specularIntensity mat) (specularExponent mat)
            (diffuseTexture mat) (Some (vecCopy 2 (Node.values tc))) (textureScale mat))
  else if String.eqb (Node.name tc) "ModelUVScaling" then
    mret (mkMaterial (mat_name mat) (mat_userRef mat) (diffuseColour mat)
            (specularColour mat) (specularIntensity mat) (specularExponent mat)
            (diffuseTexture mat) (textureOffset mat) (Some (vecCopy 2 (Node.values tc))))
  else mret mat.

(** The body of the loop of [buildMaterials], for one Material node. *)
Definition materialOf (this : t) (matID : Z) (group : option AssetGroup)
  : Eff (option AssetGroup) :=
  fbxMat ← quiet (deref (heap this) (os_get matID (materialNodes this)));
  name ← quiet (Node.objectName fbxMat);
  let mat : Material TexDesc :=
    mkMaterial (Some name) (Some matID) None None None None None None None in
  mat ← forOf (Node.children fbxMat) (materialChild (heap this)) mat;
  mat ←
    match Node.connectionsIn fbxMat with
    | [] => mret mat
    | conn0 :: _ =>
        texNode ← quiet (deref (heap this) (fromNode conn0));
        videoNodeID ←
          quiet (match Node.connectionsIn texNode with
                 | [] => Throw (TypeError "Cannot read property 'fromID' of undefined")
                 | c :: _ => Ok (fromID c)
                 end);
        g ← quiet (theGroup group);
        match findTexture videoNodeID (textures g) with
        | None => _ ← warn "Could not link texture to material."; mret mat
        | Some tex2D =>
            forOf (Node.children texNode) (textureChild (heap this))
              (mkMaterial (mat_name mat) (mat_userRef mat) (diffuseColour mat)
                 (specularColour mat) (specularIntensity mat) (specularExponent mat)
                 (Some tex2D) (textureOffset mat) (textureScale mat))
        end
    end;
  g ← quiet (theGroup group);
  mret (Some (addMaterial mat g)).

Definition buildMaterials (this : t) (group : option AssetGroup)
    (options : FBXResolveOptions) : Eff (option AssetGroup) :=
  forOf (os_keys (materialNodes this)) (materialOf this) group.

(** The body of the loop over the children of a layer element node. *)
Definition layerChild (h : Heap) (valueArrayName indexArrayName : string)
    (cref : NodeRef) (stream : VertexAttributeStream) : Eff VertexAttributeStream :=
  c ← quiet (deref h (Some cref));
  let v := Node.values c !! 0%nat in
  if String.eqb (Node.name c) "Name" then
    mret (mkStream v (attr stream) (includeInMesh stream) (controlsGrouping stream)
            (mapping stream) (stream_values stream) (indexes stream))
  else if String.eqb (Node.name c) "MappingInformationType" then
    m ← quiet (if valueIs v "ByVertice" then Ok MappingVertex
               else if valueIs v "ByPolygonVertex" then Ok MappingPolygonVertex
               else if valueIs v "ByPolygon" then Ok MappingPolygon
               else if valueIs v "AllSame" then Ok MappingSingleValue
               else Throw (AssertionFailed "Unknown stream mapping name"));
    mret (mkStream (stream_name stream) (attr stream) (includeInMesh stream)
            (controlsGrouping stream) m (stream_values stream) (indexes stream))
  else if String.eqb (Node.name c) valueArrayName then
    mret (mkStream (stream_name stream) (attr stream) (includeInMesh stream)
            (controlsGrouping stream) (mapping stream) v (indexes stream))
  else if String.eqb (Node.name c) indexArrayName then
    mret (mkStream (stream_name stream) (attr stream) (includeInMesh stream)
            (controlsGrouping stream) (mapping stream) (stream_values stream) v)
  else mret stream.

Definition makeLayerElementStream (this : t) (layerElemNode : Node.t)
  : Eff VertexAttributeStream :=
  let name := Node.name layerElemNode in
  '(valueArrayName, indexArrayName, stream) ←
    quiet (
      if String.eqb name "LayerElementNormal" then
        Ok ("Normals", "NormalsIndex",
            mkStream (Some (VString EmptyString)) (Some (RoleNormal, Floatx3)) true false
                     MappingUndefined None None)
      else if String.eqb name "LayerElementColor" then
        Ok ("Colors", "ColorIndex",
            mkStream (Some (VString EmptyString)) (Some (RoleColour, Floatx3)) true false
                     MappingUndefined None None)
      else if String.eqb name "LayerElementUV" then
        Ok ("UV", "UVIndex",
            mkStream (Some (VString EmptyString)) (Some (RoleUV, Floatx2)) true false
                     MappingUndefined None None)
      else if String.eqb name "LayerElementTangent" then
        Ok ("Tangents", "TangentsIndex",
            mkStream (Some (VString EmptyString)) (Some (RoleTangent, Floatx4)) true false
                     MappingUndefined None None)
      else if String.eqb name "LayerElementMaterial" then
        Ok ("Materials", "--UNUSED--",
            mkStream (Some (VString EmptyString)) (Some (RoleMaterial, SInt32)) false true
                     MappingUndefined None None)
      else Throw (AssertionFailed "Unhandled layer element node"))%string;
  stream ← forOf (Node.children layerElemNode)
                 (layerChild (heap this) valueArrayName indexArrayName) stream;
  _ ← quiet (if String.eqb name "LayerElementMaterial" then
               assert (match mapping stream with
                       | MappingPolygon | MappingSingleValue => true
                       | _ => false
                       end)
                      "A material stream must be a single value or be applied per polygon"
             else Ok tt);
  mret stream.

(** The linear scan of [buildMeshes] through the polygon indexes, from the
    element at index [pvi] on: the last index of each polygon is stored
    negated. *)
Fixpoint scanPolygons (polygonIndexes : list Z) (pvi : Z)
    (polygonVertexIndexArray vertexIndexArray : list Z) (mb : MeshBuilder)
  : MeshBuilder :=
  match polygonIndexes with
  | [] => mb
  | vi :: rest =>
      let polygonVertexIndexArray := polygonVertexIndexArray ++ [pvi] in
      if vi <? 0 then
        scanPolygons rest (pvi + 1) [] []
          (addPolygon polygonVertexIndexArray (vertexIndexArray ++ [Z.lnot vi]) mb)
      else
        scanPolygons rest (pvi + 1) polygonVertexIndexArray (vertexIndexArray ++ [vi]) mb
  end.

(** The body of the loop over the children of a Geometry node. *)
Definition geometryChild (this : t) (cref : NodeRef)
    (acc : Mesh * option (FBXValue Z)) : Eff (Mesh * option (FBXValue Z)) :=
  let '(sdMesh, polygonIndexes) := acc in
  c ← quiet (deref (heap this) (Some cref));
  let name := Node.name c in
  if String.eqb name "Vertices" then
    mret (mkMesh (mesh_name sdMesh) (mesh_userRef sdMesh) (Node.values c !! 0%nat)
            (streams sdMesh) (meshData sdMesh), polygonIndexes)
  else if String.eqb name "PolygonVertexIndex" then
    mret (sdMesh, Node.values c !! 0%nat)
  else if String.eqb name "LayerElementNormal" || String.eqb name "LayerElementTangent"
          || String.eqb name "LayerElementColor" || String.eqb name "LayerElementUV"
          || String.eqb name "LayerElementMaterial" then
    streamIndex ← quiet (asNumber "streamIndex" (Node.values c !! 0%nat));
    if streamIndex =? 0 then
      stream ← makeLayerElementStream this c;
      mret (mkMesh (mesh_name sdMesh) (mesh_userRef sdMesh) (positions sdMesh)
              (streams sdMesh ++ [stream]) (meshData sdMesh), polygonIndexes)
    else
      _ ← warn "Skipping Geometry LayerElement with index > 0"; mret acc
  else mret acc.

(** The body of the loop of [buildMeshes], for one Geometry node. *)
Definition meshOf (this : t) (geomID : Z) (group : option AssetGroup)
  : Eff (option AssetGroup) :=
  fbxGeom ← quiet (deref (heap this) (os_get geomID (geometryNodes this)));
  name ← quiet (Node.objectName fbxGeom);
  '(sdMesh, polygonIndexes) ←
    forOf (Node.children fbxGeom) (geometryChild this)
          (mkMesh name (Node.values fbxGeom !! 0%nat) None [] None, None);
  let mb := mkMeshBuilder (positions sdMesh) (streams sdMesh) [] in
  indexes ← quiet (match polygonIndexes with
                   | None => Throw (TypeError "Cannot read property 'length' of null")
                   | Some (VArray a) =>
                       match kind a with
                       | Int32Array => Ok (elems a)
                       | _ => Throw (Untyped "polygonIndexes")
                       end
                   | Some _ => Throw (Untyped "polygonIndexes")
                   end);
  let mb := scanPolygons indexes 0 [] [] mb in
  let sdMesh := mkMesh (mesh_name sdMesh) (mesh_userRef sdMesh) (positions sdMesh)
                       (streams sdMesh) (Some mb) in
  g ← quiet (theGroup group);
  mret (Some (addMesh sdMesh g)).

Definition buildMeshes (this : t) (group : option AssetGroup)
    (options : FBXResolveOptions) : Eff (option AssetGroup) :=
  forOf (os_keys (geometryNodes this)) (meshOf this) group.

(** The body of the loop over the children of a Model node; the rotation
    keeps the three Euler angles in the order they are passed on. *)
Definition modelChild (h : Heap) (cref : NodeRef) (sdModel : Model TexDesc)
  : Eff (Model TexDesc) :=
  c ← quiet (deref h (Some cref));
  let vecVal := Node.values c in
  if String.eqb (Node.name c) "Lcl Translation" then
    mret (mkModel (model_name sdModel) (model_userRef sdModel) (model_mesh sdModel)
            (model_materials sdModel) (vecCopy 3 vecVal) (rotationEuler sdModel)
            (scale sdModel))
  else if String.eqb (Node.name c) "Lcl Scaling" then
    mret (mkModel (model_name sdModel) (model_userRef sdModel) (model_mesh sdModel)
            (model_materials sdModel) (position sdModel) (rotationEuler sdModel)
            (vecCopy 3 vecVal))
  else if String.eqb (Node.name c) "Lcl Rotation" then
    mret (mkModel (model_name sdModel) (model_userRef sdModel) (model_mesh sdModel)
            (model_materials sdModel) (position sdModel)
            (Some [vecVal !! 2%nat; vecVal !! 1%nat; vecVal !! 0%nat])
            (scale sdModel))
  else mret sdModel.

(** [t && <number>t.userRef == id] for the user reference of a mesh *)
Definition refIs (ref : option (FBXValue Z)) (id : Z) : bool :=
  match ref with
  | Some (VNumber z) => z =? id
  | _ => false
  end.

(** The body of the loop over the incoming connections of a Model node. *)
Definition modelConnection (this : t) (group : option AssetGroup) (conn : Connection)
    (sdModel : Model TexDesc) : Eff (Model TexDesc) :=
  from ← quiet (deref (heap this) (fromNode conn));
  let connType := Node.name from in
  if String.eqb connType "Geometry" then
    g ← quiet (theGroup group);
    match List.find (fun m => refIs (mesh_userRef m) (fromID conn)) (meshes g) with
    | Some geom =>
        mret (mkModel (model_name sdModel) (model_userRef sdModel) (Some geom)
                (model_materials sdModel) (position sdModel) (rotationEuler sdModel)
                (scale sdModel))
    | None => _ ← warn "Could not connect geometry to model"; mret sdModel
    end
  else if String.eqb connType "Material" then
    g ← quiet (theGroup group);
    match List.find (fun m => match mat_userRef m with
                              | Some r => r =? fromID conn
                              | None => false
                              end) (materials g) with
    | Some mat =>
        mret (mkModel (model_name sdModel) (model_userRef sdModel) (model_mesh sdModel)
                (model_materials sdModel ++ [mat]) (position sdModel)
                (rotationEuler sdModel) (scale sdModel))
    | None => _ ← warn "Could not connect material to model"; mret sdModel
    end
  else mret sdModel.

(** The body of the loop of [buildModels], for one Model node. *)
Definition modelOf (this : t) (modelID : Z) (group : option AssetGroup)
  : Eff (option AssetGroup) :=
  fbxModel ← quiet (deref (heap this) (os_get modelID (modelNodes this)));
  name ← quiet (Node.objectName fbxModel);
  let zero3 := [Some (VNumber 0); Some (VNumber 0); Some (VNumber 0)] in
  let one3 := [Some (VNumber 1); Some (VNumber 1); Some (VNumber 1)] in
  sdModel ← forOf (Node.children fbxModel) (modelChild (heap this))
                  (mkModel name (Node.values fbxModel !! 0%nat) None [] zero3 None one3);
  sdModel ← forOf (Node.connectionsIn fbxModel) (modelConnection this group) sdModel;
  g ← quiet (theGroup group);
  mret (Some (addModel sdModel g)).

Definition buildModels (this : t) (group : option AssetGroup)
    (options : FBXResolveOptions) : Eff (option AssetGroup) :=
  forOf (os_keys (modelNodes this)) (modelOf this) group.

(** [resolve(options?)].  The options given are copied over the defaults.
    A throw of [loadTextures] leaves [resolve] as a throw; a throw in the
    three later passes rejects the promise that [resolve] returns. *)
Definition resolve (this : t) (options : option FBXResolveOptions)
  : Eff (Settled (option AssetGroup)) :=
  let defaults :=
    mkOptions (Some (default true (options ≫= allowMissingTextures))) in
  loaded ← loadTextures this newAssetGroup defaults;
  match loaded with
  | Rejected r => mret (Rejected r)
  | Fulfilled group =>
      let passes :=
        group ← buildMaterials this group defaults;
        group ← buildMeshes this group defaults;
        buildModels this group defaults in
      match outcome passes with
      | Ok group => mkEff (warnings passes) (Ok (Fulfilled group))
      | Throw e => mkEff (warnings passes) (Ok (Rejected (Exception e)))
      end
  end.
End Resolve.
End FBXDocumentGraph.

(** ** asset-fbx.ts: class FBX7DocumentParser *)

Module BuilderState.
Inductive t :=
| Root
| GlobalSettings
| Objects
| Object
| Connections.

(** The number that the enumeration gives the state. *)
Definition code (s : t) : Z :=
  match s with
  | Root => 0
  | GlobalSettings => 1
  | Objects => 2
  | Object => 3
  | Connections => 4
  end.

Definition eqb (a b : t) : bool := code a =? code b.
End BuilderState.

Module FBX7DocumentParser.
Record t (TexDesc : Type) := mk {
  doc : FBXDocumentGraph.t;
  state : BuilderState.t;
  depth : Z;
  curObject : option NodeRef;
  curNodeParent : option NodeRef;
  assets_ : option (Settled (option (AssetGroup TexDesc)));
  (** the lines written with [console.warn] so far *)
  console : list string
}.
Arguments mk {TexDesc} _ _ _ _ _ _ _.
Arguments doc {TexDesc} _.
Arguments state {TexDesc} _.
Arguments depth {TexDesc} _.
Arguments curObject {TexDesc} _.
Arguments curNodeParent {TexDesc} _.
Arguments assets_ {TexDesc} _.
Arguments console {TexDesc} _.

Definition knownObjects : list string :=
  ["Geometry"; "Video"; "Texture"; "Material"; "Model"]%string.

(** [this.knownObjects.has(name)] *)
Definition isKnownObject (name : string) : bool :=
  existsb (String.eqb name) knownObjects.

Section Builder.
Context {Image TexDesc : Type} `{Platform Image TexDesc}.

Local Abbreviation Builder := (t TexDesc).

(** [new FBX7DocumentParser(filePath)] *)
Definition new (filePath : string) : Builder :=
  mk (FBXDocumentGraph.new filePath) BuilderState.Root 0 None None None [].

Definition set_doc (d : FBXDocumentGraph.t) (this : Builder) : Builder :=
  mk d (state this) (depth this) (curObject this) (curNodeParent this)
     (assets_ this) (console this).
Definition set_state (s : BuilderState.t) (this : Builder) : Builder :=
  mk (doc this) s (depth this) (curObject this) (curNodeParent this)
     (assets_ this) (console this).
Definition set_depth (d : Z) (this : Builder) : Builder :=
  mk (doc this) (state this) d (curObject this) (curNodeParent this)
     (assets_ this) (console this).
Definition set_curObject (r : option NodeRef) (this : Builder) : Builder :=
  mk (doc this) (state this) (depth this) r (curNodeParent this)
     (assets_ this) (console this).
Definition set_curNodeParent (r : option NodeRef) (this : Builder) : Builder :=
  mk (doc this) (state this) (depth this) (curObject this) r
     (assets_ this) (console this).
Definition set_assets (a : option (Settled (option (AssetGroup TexDesc))))
    (this : Builder) : Builder :=
  mk (doc this) (state this) (depth this) (curObject this) (curNodeParent this)
     a (console this).
Definition log (lines : list string) (this : Builder) : Builder :=
  mk (doc this) (state this) (depth this) (curObject this) (curNodeParent this)
     (assets_ this) (console this ++ lines).
Definition set_heap (h : Heap) (this : Builder) : Builder :=
  set_doc (FBXDocumentGraph.set_heap h (doc this)) this.

(** [new Node(...)], put on the heap of the document *)
Definition newNode (n : Node.t) (this : Builder) : NodeRef * Builder :=
  let '(r, h) := alloc n (FBXDocumentGraph.heap (doc this)) in
  (r, set_heap h this).

Definition block (name : string) (values : list (FBXValue Z)) (this : Builder)
  : Result (FBXBlockAction * Builder) :=
  '(skip, this1) ←
    (if BuilderState.eqb (state this) BuilderState.Root then
       if String.eqb name "GlobalSettings" then
         Ok (false, set_state BuilderState.GlobalSettings this)
       else if String.eqb name "Objects" then
         Ok (false, set_state BuilderState.Objects this)
       else if String.eqb name "Connections" then
         Ok (false, set_state BuilderState.Connections this)
       else Ok (true, this)
     else if BuilderState.eqb (state this) BuilderState.Objects then
       if isKnownObject name then
         let '(r, this') := newNode (Node.new name values (Own Unknown) EmptyString) this in
         Ok (false, set_curNodeParent (Some r)
                      (set_curObject (Some r) (set_state BuilderState.Object this')))
       else Ok (true, this)
     else
       match curNodeParent this with
       | Some p =>
           let '(r, this') := newNode (Node.new name values (Own Unknown) EmptyString) this in
           h ← appendChild p r (FBXDocumentGraph.heap (doc this'));
           Ok (false, set_curNodeParent (Some r) (set_heap h this'))
       | None => Ok (false, this)
       end);
  if negb skip then Ok (Enter, set_depth (depth this1 + 1) this1)
  else Ok (Skip, this1).

(** [endBlock()].  The condition of the inner [if] is the assignment
    [this.state = BuilderState.Object]: it sets the state, and its value is
    the number of [Object], which is not zero. *)
Definition endBlock (this : Builder) : Result Builder :=
  let this := set_depth (depth this - 1) this in
  if depth this =? 1 then
    let this := set_state BuilderState.Object this in
    if negb (BuilderState.code BuilderState.Object =? 0) then
      doc' ← FBXDocumentGraph.addObject (curObject this) (doc this);
      Ok (set_state BuilderState.Objects
            (set_curNodeParent None (set_curObject None (set_doc doc' this))))
    else Ok this
  else if depth this =? 0 then
    Ok (set_state BuilderState.Root this)
  else
    match curNodeParent this with
    | Some p =>
        n ← deref (FBXDocumentGraph.heap (doc this)) (Some p);
        let this := set_curNodeParent (Node.parent n) this in
        _ ← assert (match curNodeParent this with Some _ => true | None => false end)
                   EmptyString;
        Ok this
    | None => Ok this
    end.

Definition typedProperty (name : string) (type : Member FBXPropertyType)
    (typeName : string) (values : list (FBXValue Z)) (this : Builder) : Result Builder :=
  let '(node, this) := newNode (Node.new name values type typeName) this in
  if BuilderState.eqb (state this) BuilderState.GlobalSettings then
    Ok (set_doc (FBXDocumentGraph.globalSetting node (doc this)) this)
  else if BuilderState.eqb (state this) BuilderState.Object then
    match curNodeParent this with
    | None => Throw (TypeError "Cannot read property 'appendChild' of null")
    | Some p =>
        h ← appendChild p node (FBXDocumentGraph.heap (doc this));
        Ok (set_heap h this)
    end
  else if BuilderState.eqb (state this) BuilderState.Connections then
    _ ← assert (String.eqb name "C") "Only C properties are allowed inside Connections";
    let binding := values !! 0%nat in
    if valueIs binding "OO" || valueIs binding "OP" then
      fromID ← asNumber "fromID" (values !! 1%nat);
      toID ← asNumber "toID" (values !! 2%nat);
      propName ← (if valueIs binding "OP"
                  then match values !! 3%nat with
                       | Some (VString s) => Ok (Some s)
                       | _ => Throw (Untyped "propName")
                       end
                  else Ok None);
      let added :=
        FBXDocumentGraph.addConnection (mkConnection fromID None toID None propName)
                                       (doc this) in
      doc' ← outcome added;
      Ok (log (warnings added) (set_doc doc' this))
    else
      Ok (log ["Don't know what to do with connection: "%string] this)
  else Ok this.

Definition property (name : string) (values : list (FBXValue Z)) (this : Builder)
  : Result Builder :=
  typedProperty name (Own Unknown) EmptyString values this.

Definition error (msg : string) (offset : Z) (token : string) (this : Builder)
  : Result Builder :=
  Ok (log [("FBX parse error: " ++ msg)%string] this).

(** [completed()]: [this.assets_ = this.doc.resolve()] *)
Definition completed (this : Builder) : Result Builder :=
  let resolved := FBXDocumentGraph.resolve (doc this) None in
  assets ← outcome resolved;
  Ok (set_assets (Some assets) (log (warnings resolved) this)).

Global Instance delegate : FBXParserDelegate Z Builder := {
  block := block;
  endBlock := endBlock;
  property := property;
  typedProperty := typedProperty;
  error := error;
  completed := completed
}.
End Builder.
End FBX7DocumentParser.

(** ** Documents to run the importer on *)

(** The calls that a parser makes on its delegate, replayed on a graph
    builder; the answer recorded with a [block] call plays no role here. *)
Definition replay1 {Image TexDesc : Type} `{Platform Image TexDesc}
    (c : Call Z) (b : FBX7DocumentParser.t TexDesc)
  : Result (FBX7DocumentParser.t TexDesc) :=
  match c with
  | CBlock name values _ => '(_, b') ← FBX7DocumentParser.block name values b; Ok b'
  | CEndBlock => FBX7DocumentParser.endBlock b
  | CProperty name values => FBX7DocumentParser.property name values b
  | CTypedProperty name type typeName values =>
      FBX7DocumentParser.typedProperty name type typeName values b
  | CError msg offset token => FBX7DocumentParser.error msg offset token b
  | CCompleted => FBX7DocumentParser.completed b
  end.

Fixpoint replay {Image TexDesc : Type} `{Platform Image TexDesc}
    (cs : list (Call Z)) (b : FBX7DocumentParser.t TexDesc)
  : Result (FBX7DocumentParser.t TexDesc) :=
  match cs with
  | [] => Ok b
  | c :: rest => b' ← replay1 c b; replay rest b'
  end.

(** A platform on which no image can be loaded or decoded. *)
Definition NoImages : Platform unit unit := {|
  loadImage _ := Rejected (Message "doesn't exist");
  loadImageFromBuffer _ _ := Rejected (Message "Bad image data.");
  resolveRelativeFilePath rel base := rel;
  makeTexDesc2DFromImageSource _ _ := tt
|}.

(** The graph that a list of delegate calls builds, from an empty one read
    from scene.fbx; the empty graph again when a call throws. *)
Definition graphOf (cs : list (Call Z)) : FBXDocumentGraph.t :=
  match replay (H:=NoImages) cs (FBX7DocumentParser.new "scene.fbx") with
  | Ok b => FBX7DocumentParser.doc b
  | Throw _ => FBXDocumentGraph.new "scene.fbx"
  end.

(** A document with one Geometry object, number 1, whose
    PolygonVertexIndex array holds [indexes]. *)
Definition geometryDocument (indexes : list Z) : FBXDocumentGraph.t :=
  graphOf
    [ CBlock "Objects" [] Enter;
      CBlock "Geometry" [VNumber 1; VString "Geometry::g"; VString "Mesh"] Enter;
      CProperty "PolygonVertexIndex" [VArray (mkTypedArray Int32Array indexes)];
      CEndBlock;
      CEndBlock ].

(** A document with one Video object, number 5, that names the file a.png
    and embeds no content. *)
Definition videoDocument : FBXDocumentGraph.t :=
  graphOf
    [ CBlock "Objects" [] Enter;
      CBlock "Video" [VNumber 5; VString "Video::v"; VString "Clip"] Enter;
      CProperty "RelativeFilename" [VString "a.png"];
      CEndBlock;
      CEndBlock ].

(** A document with a Material, number 7, and a Texture, number 6, that is
    connected to the material and has no incoming connection itself. *)
Definition looseTextureDocument : FBXDocumentGraph.t :=
  graphOf
    [ CBlock "Objects" [] Enter;
      CBlock "Texture" [VNumber 6; VString "Texture::t"; VString EmptyString] Enter;
      CEndBlock;
      CBlock "Material" [VNumber 7; VString "Material::m"; VString EmptyString] Enter;
      CEndBlock;
      CEndBlock;
      CBlock "Connections" [] Enter;
      CProperty "C" [VString "OO"; VNumber 6; VNumber 7];
      CEndBlock ].

(** The vertex index lists of the polygons committed for a mesh. *)
Definition meshPolygons (m : Mesh) : list (list Z) :=
  match meshData m with
  | Some mb => map snd (polygons mb)
  | None => []
  end.

(** How a polygon is stored in a PolygonVertexIndex array: its vertex
    indexes, the last one as its bitwise complement. *)
Definition storedPolygon (p : list Z * Z) : list Z := fst p ++ [Z.lnot (snd p)].

(** The vertex indexes of a polygon given by its leading indexes and its
    last one. *)
Definition polygonIndexes (p : list Z * Z) : list Z := fst p ++ [snd p].

(** An empty mesh builder. *)
Definition emptyMeshBuilder : MeshBuilder := mkMeshBuilder None [] [].

(** What it would mean for [addConnection] to drop a connection with a
    warning: the graph stays as it is and a line is written to the
    console. *)
Definition droppedWithWarning (conn : Connection) (g : FBXDocumentGraph.t) : Prop :=
  outcome (FBXDocumentGraph.addConnection conn g) = Ok g
  /\ warnings (FBXDocumentGraph.addConnection conn g) <> [].

(** An id that is not a key of the all-objects map. *)
Definition unknownID (id : Z) (g : FBXDocumentGraph.t) : Prop :=
  os_get id (FBXDocumentGraph.allObjects g) = None.

(** ** Well-formed documents

    The documents that the properties of the parser are stated for, as
    trees, with the token sequences that spell them and the calls that a
    delegate is to receive for them. *)

Section Documents.
Context {N : Type} `{JSNumber N}.

(** A value written as one token: a number or a string. *)
Inductive Scalar :=
| SNumber (n : N)
| SString (s : string).

Definition scalarValue (v : Scalar) : FBXValue N :=
  match v with
  | SNumber n => VNumber n
  | SString s => VString s
  end.

(** A [P] record of a Properties70 block: name, type name, the two values
    that follow them, and the payload. *)
Record P70 := mkP70 {
  p_name : string;
  p_typeName : string;
  p_dup : Scalar;
  p_flags : Scalar;
  p_payload : list Scalar
}.

Definition p70Scalars (p : P70) : list Scalar :=
  SString (p_name p) :: SString (p_typeName p) :: p_dup p :: p_flags p :: p_payload p.

(** What a document is made of: a property [key: v, vs...]; an array
    property [key: *n { a: x, xs... }]; a block [key: vs... { body }]; a
    Properties70 block of [P] records. *)
Inductive Item :=
| Property (key : string) (v : Scalar) (vs : list Scalar)
| ArrayProperty (key : string) (x : N) (xs : list N)
| Block (key : string) (vs : list Scalar) (body : list Item)
| Properties70 (ps : list P70).

(** The depth of the braces of an item. *)
Fixpoint height (it : Item) : Z :=
  match it with
  | Property _ _ _ => 0
  | ArrayProperty _ _ _ => 1
  | Block _ _ body => 1 + foldr (fun i h => Z.max (height i) h) 0 body
  | Properties70 _ => 1
  end.

Definition heights (items : list Item) : Z :=
  foldr (fun i h => Z.max (height i) h) 0 items.

Definition isKey (k : string) (tok : Token.t N) : Prop :=
  Token.type tok = TokenType.Key /\ Token.val tok = vstring k.

Definition isScalar (v : Scalar) (tok : Token.t N) : Prop :=
  match v with
  | SNumber n => Token.type tok = TokenType.Number /\ Token.val tok = vnumber n
  | SString s => Token.type tok = TokenType.String /\ Token.val tok = vstring s
  end.

Definition isA (ty : TokenType.t) (tok : Token.t N) : Prop := Token.type tok = ty.

(** Values separated by commas. *)
Inductive ValuesTokens : list Scalar -> list (Token.t N) -> Prop :=
| VT_last v t :
    isScalar v t -> ValuesTokens [v] [t]
| VT_more v vs t c ts :
    isScalar v t -> isA TokenType.Comma c -> ValuesTokens vs ts ->
    ValuesTokens (v :: vs) (t :: c :: ts).

(** The [P] records of a Properties70 block. *)
Inductive PsTokens : list P70 -> list (Token.t N) -> Prop :=
| PT_nil : PsTokens [] []
| PT_cons p ps tk tvs ts :
    isKey "P" tk -> ValuesTokens (p70Scalars p) tvs -> PsTokens ps ts ->
    PsTokens (p :: ps) (tk :: tvs ++ ts).

(** The tokens of an item and of a sequence of items, whatever their
    offsets.  The key [a] is kept for the wrapper of an array and a block
    named Properties70 holds [P] records; the count of an array is the
    number of its elements. *)
Inductive ItemTokens : Item -> list (Token.t N) -> Prop :=
| IT_Property k v vs tk ts :
    isKey k tk -> k <> "a"%string ->
    ValuesTokens (v :: vs) ts ->
    ItemTokens (Property k v vs) (tk :: ts)
| IT_ArrayProperty k x xs count tk tn to ta ts tc :
    isKey k tk -> k <> "a"%string ->
    isA TokenType.ArrayCount tn -> Token.val tn = vnumber count ->
    toInt32 count = Z.of_nat (S (length xs)) ->
    isA TokenType.OpenBlock to ->
    isKey "a" ta ->
    ValuesTokens (map SNumber (x :: xs)) ts ->
    isA TokenType.CloseBlock tc ->
    ItemTokens (ArrayProperty k x xs) (tk :: tn :: to :: ta :: ts ++ [tc])
| IT_Block k vs body tk tvs to tbody tc :
    isKey k tk -> k <> "a"%string -> k <> "Properties70"%string ->
    (vs = [] /\ tvs = [] \/ ValuesTokens vs tvs) ->
    isA TokenType.OpenBlock to ->
    ItemsTokens body tbody ->
    isA TokenType.CloseBlock tc ->
    ItemTokens (Block k vs body) (tk :: tvs ++ to :: tbody ++ [tc])
| IT_Properties70 ps tk to tps tc :
    isKey "Properties70" tk ->
    isA TokenType.OpenBlock to ->
    PsTokens ps tps ->
    isA TokenType.CloseBlock tc ->
    ItemTokens (Properties70 ps) (tk :: to :: tps ++ [tc])
with ItemsTokens : list Item -> list (Token.t N) -> Prop :=
| ITs_nil : ItemsTokens [] []
| ITs_cons it items t ts :
    ItemTokens it t -> ItemsTokens items ts ->
    ItemsTokens (it :: items) (t ++ ts).

(** The typed array that the parser makes of the elements written for a
    key. *)
Definition arrayOf (key : string) (xs : list N) : TypedArray N :=
  let k := FBXTextParser.arrayKindForKey (N:=N) (Some (VString key)) in
  mkTypedArray k (map (FBXTextParser.stored k) xs).

(** The call that a delegate is to receive for a [P] record: the payload
    is what follows the first four values. *)
Definition typedCall (p : P70) : Call N :=
  CTypedProperty (p_name p) (propertyTypeFor (p_typeName p))
    (p_typeName p) (map scalarValue (p_payload p)).

(** The calls that a recording delegate is to receive for an item that is
    not inside a block it skipped: a property call for a property and for
    an array, the typed properties of a Properties70 block, and for any
    other block a [block] call followed, when the delegate enters it, by
    the calls for its body and an [endBlock] call. *)
Fixpoint walkItem (it : Item) (r : Recorder N) : Recorder N :=
  match it with
  | Property k v vs => record (CProperty k (map scalarValue (v :: vs))) r
  | ArrayProperty k x xs => record (CProperty k [VArray (arrayOf k (x :: xs))]) r
  | Block k vs body =>
      let values := map scalarValue vs in
      let action := answer r (calls r) k values in
      let r1 := record (CBlock k values action) r in
      match action with
      | Enter => record CEndBlock (foldl (fun r i => walkItem i r) r1 body)
      | Skip => r1
      end
  | Properties70 ps => foldl (fun r p => record (typedCall p) r) r ps
  end.

Definition walk (items : list Item) (r : Recorder N) : Recorder N :=
  foldl (fun r i => walkItem i r) r items.

(** The number of pairs of an OpenBlock and a CloseBlock token of an item
    that are not skipped, that is, that are not those of a block for which
    the delegate answers Skip nor inside such a block.  The pairs of the
    Properties70 blocks and of the array wrappers are counted when
    [structural] is set and left out otherwise. *)
Fixpoint pairsItem (structural : bool) (it : Item) (r : Recorder N) : nat :=
  match it with
  | Property _ _ _ => 0%nat
  | ArrayProperty _ _ _ => if structural then 1%nat else 0%nat
  | Properties70 _ => if structural then 1%nat else 0%nat
  | Block k vs body =>
      let values := map scalarValue vs in
      match answer r (calls r) k values with
      | Skip => 0%nat%nat
      | Enter =>
          S ((fix go (l : list Item) (r : Recorder N) : nat :=
                match l with
                | [] => 0%nat%nat
                | i :: l' => (pairsItem structural i r + go l' (walkItem i r))%nat
                end) body (record (CBlock k values Enter) r))
      end
  end.

Fixpoint pairs (structural : bool) (items : list Item) (r : Recorder N) : nat :=
  match items with
  | [] => 0%nat%nat
  | i :: rest => (pairsItem structural i r + pairs structural rest (walkItem i r))%nat
  end.

(** The [block] calls that were answered Enter, and the [endBlock] calls,
    among the calls a delegate received. *)
Definition isEntered (c : Call N) : bool :=
  match c with
  | CBlock _ _ Enter => true
  | _ => false
  end.

Definition isEndBlock (c : Call N) : bool :=
  match c with
  | CEndBlock => true
  | _ => false
  end.

Definition isBlockCall (c : Call N) : bool :=
  match c with
  | CBlock _ _ _ | CEndBlock => true
  | _ => false
  end.

Definition count (p : Call N -> bool) (cs : list (Call N)) : nat :=
  length (List.filter p cs).

Local Abbreviation Parser := (FBXTextParser.t N (Recorder N)).

(** The state after the rounds of the loop of [parse] for the given
    tokens, when each of them ends at the end of the [switch] without a
    throw and without ending the parse. *)
Fixpoint feed (toks : list (Token.t N)) (st : Parser) : option Parser :=
  match toks with
  | [] => Some st
  | tok :: rest =>
      match FBXTextParser.step tok st with
      | Ok (FBXTextParser.Break, st') =>
          if FBXTextParser.eof_ st' then None else feed rest st'
      | _ => None
      end
  end.

(** What the [Key] and [CloseBlock] rounds do first: report the pending
    property, if there is one. *)
Definition flush (st : Parser) : Result Parser :=
  if (0 <? length (FBXTextParser.values_ st))%nat
  then FBXTextParser.reportProperty st else Ok st.

(** Between two items of a document, at depth [d], with [S] the depth up
    to which the parser skips and [p70] telling whether the items are the
    records of a Properties70 block: the parser expects a key, and a
    closing brace when it is inside a block. *)
Definition Ready (d S : Z) (p70 : bool) (st : Parser) : Prop :=
  FBXTextParser.expectNextKey_ st = None
  /\ FBXTextParser.eof_ st = false
  /\ FBXTextParser.depth_ st = d
  /\ FBXTextParser.inProp70Block_ st = p70
  /\ FBXTextParser.skippingUntilDepth_ st = S
  /\ FBXTextParser.array_ st = None
  /\ FBXTextParser.has (FBXTextParser.expect_ st) Expect.Key = true
  /\ (0 < d -> FBXTextParser.has (FBXTextParser.expect_ st) Expect.Close = true).

(** The parser either reports what it reads ([live]), with room for the
    braces of what follows below the depth 1000, or it is inside a block
    that the delegate skipped. *)
Definition modeOK (live : bool) (d S h : Z) : Prop :=
  if live then S = 1000 /\ d + h <= 1000 else S < d.

(** The rounds for [toks] lead from [st] to a state between two items in
    which the delegate, once the pending property is reported, is [del]. *)
Definition Fed (toks : list (Token.t N)) (st : Parser) (d S : Z) (p70 : bool)
    (del : Recorder N) : Prop :=
  exists st', feed toks st = Some st' /\ Ready d S p70 st'
    /\ exists st0', flush st' = Ok st0' /\ FBXTextParser.delegate_ st0' = del.

(** What the rounds for an item and for a sequence of items achieve. *)
Definition ItemFed (it : Item) (toks : list (Token.t N)) : Prop :=
  forall (live : bool) d S (st st0 : Parser),
    0 <= d -> Ready d S false st -> modeOK live d S (height it) -> flush st = Ok st0 ->
    Fed toks st d S false
        (if live then walkItem it (FBXTextParser.delegate_ st0)
         else FBXTextParser.delegate_ st0).

Definition ItemsFed (items : list Item) (toks : list (Token.t N)) : Prop :=
  forall (live : bool) d S (st st0 : Parser),
    0 <= d -> Ready d S false st -> modeOK live d S (heights items) -> flush st = Ok st0 ->
    Fed toks st d S false
        (if live then walk items (FBXTextParser.delegate_ st0)
         else FBXTextParser.delegate_ st0).

(** The expectation after a value or a closed block, at depth [d]. *)
Definition closeIf (d : Z) (e : Z) : Z := if 0 <? d then Z.lor e Expect.Close else e.

(** The table of [arrayForKey]: the array type of each field name it
    knows. *)
Definition arrayKeyTable : list (string * ArrayKind) :=
  [ ("PolygonVertexIndex", Int32Array); ("UVIndex", Int32Array);
    ("Edges", Int32Array); ("Materials", Int32Array);
    ("KeyAttrFlags", Int32Array); ("KeyAttrRefCount", Int32Array);
    ("KeyValueFloat", Float32Array); ("KeyAttrDataFloat", Float32Array);
    ("Vertices", Float64Array); ("Normals", Float64Array);
    ("NormalsW", Float64Array); ("UV", Float64Array);
    ("KeyTime", Float64Array) ]%string.

(** A document of [n] blocks named B, one inside the other. *)
Fixpoint nested (n : nat) : list Item :=
  match n with
  | O => []
  | S n' => [Block "B" [] (nested n')]
  end.

Definition keyToken (k : string) : Token.t N := Token.mk TokenType.Key 0 (vstring k).
Definition openToken : Token.t N := Token.mk TokenType.OpenBlock 0 undefined.
Definition closeToken : Token.t N := Token.mk TokenType.CloseBlock 0 undefined.

Fixpoint nestedTokens (n : nat) : list (Token.t N) :=
  match n with
  | O => []
  | S n' => keyToken "B" :: openToken :: nestedTokens n' ++ [closeToken]
  end.

(** A delegate that enters every block and has not been called yet. *)
Definition entersAll : Recorder N := mkRecorder (fun _ _ _ => Enter) [].

Scheme ItemTokens_mut := Minimality for ItemTokens Sort Prop
  with ItemsTokens_mut := Minimality for ItemsTokens Sort Prop.
End Documents.
Arguments Scalar N : clear implicits.
Arguments P70 N : clear implicits.
Arguments Item N : clear implicits.

(** The tokens of the values of the record
    [P: "Lcl Translation", "Lcl Translation", "A", "A+", 1, 2, 3]. *)
Definition translationValues : list (Token.t Z) :=
  let s := fun x => Token.mk TokenType.String 0 (vstring x) in
  let n := fun x => Token.mk TokenType.Number 0 (vnumber x) in
  let c := Token.mk TokenType.Comma 0 undefined in
  [s "Lcl Translation"; c; s "Lcl Translation"; c; s "A"; c; s "A+"; c;
   n 1; c; n 2; c; n 3]%string.

(** The tokens of a Properties70 block that holds this one record. *)
Definition translationTokens : list (Token.t Z) :=
  [keyToken "Properties70"; openToken; keyToken "P"]
    ++ translationValues ++ [closeToken].

(** A string literal of a document: the text between double quotes. *)
Definition quoted (s : string) : string :=
  String.String "034"%char (s ++ String.String "034"%char EmptyString).

(** A document in which a Properties70 block holds a block [Foo] before
    its [P] record. *)
Definition nestedInProperties70 : string :=
  ("Properties70: { Foo: { } P: " ++ quoted "n" ++ ", " ++ quoted "int" ++ ", "
   ++ quoted EmptyString ++ ", " ++ quoted EmptyString ++ ", 1 }")%string.

(** The tokens of the elements [0,1,-3]. *)
Definition indexValues : list (Token.t Z) :=
  let n := fun x => Token.mk TokenType.Number 0 (vnumber x) in
  let c := Token.mk TokenType.Comma 0 undefined in
  [n 0; c; n 1; c; n (-3)].

(** The tokens of [PolygonVertexIndex: *3 { a: 0,1,-3 }]. *)
Definition indexTokens : list (Token.t Z) :=
  [keyToken "PolygonVertexIndex"; Token.mk TokenType.ArrayCount 0 (vnumber 3);
   openToken; keyToken "a"] ++ indexValues ++ [closeToken].

(* ===================================================================== *)
(** * Further parts of the sources *)

(** The [error] calls among the calls a delegate received. *)
Definition isErrorCall {N} (c : Call N) : bool :=
  match c with
  | CError _ _ _ => true
  | _ => false
  end.

(** A document whose last item, if there is one, is closed by a brace: a
    block, a Properties70 block or an array, not a plain property. *)
Definition endsClosed {N} (doc : list (Item N)) : Prop :=
  match last doc with
  | Some (Property _ _ _) => False
  | _ => True
  end.

(** The characters that start a word: not white space, and none of the
    characters that [nextToken] treats before it comes to words. *)
Definition startsWord (c : ascii) : bool :=
  negb (FBXTextTokenizer.isWS c || Ascii.eqb c ";" || Ascii.eqb c "034" || Ascii.eqb c ","
        || Ascii.eqb c "{" || Ascii.eqb c "}").

(** The set of the document graph that [typeSetMap] names for a class. *)
Definition setOf (c : FBXDocumentGraph.ObjectClass) (g : FBXDocumentGraph.t) : ObjectSet :=
  match c with
  | FBXDocumentGraph.GeometrySet => FBXDocumentGraph.geometryNodes g
  | FBXDocumentGraph.VideoSet => FBXDocumentGraph.videoNodes g
  | FBXDocumentGraph.TextureSet => FBXDocumentGraph.textureNodes g
  | FBXDocumentGraph.MaterialSet => FBXDocumentGraph.materialNodes g
  | FBXDocumentGraph.ModelSet => FBXDocumentGraph.modelNodes g
  end.

(** The objects that [addObject] keeps out of the graph: models that are
    no meshes and videos that are no clips. *)
Definition ignoredObject (n : Node.t) : bool :=
  match FBXDocumentGraph.typeSetMap (Node.name n) with
  | Some FBXDocumentGraph.ModelSet => valueIsNot (Node.values n !! 2%nat) "Mesh"
  | Some FBXDocumentGraph.VideoSet => valueIsNot (Node.values n !! 2%nat) "Clip"
  | _ => false
  end.

(** What the polygon scan makes of an entry of a PolygonVertexIndex array:
    a negative entry is the complement of a vertex index. *)
Definition decodedIndex (vi : Z) : Z := if vi <? 0 then Z.lnot vi else vi.

(** An array of polygon indexes that does not end inside a polygon: it is
    empty or its last entry is negative. *)
Definition closedIndexes (indexes : list Z) : Prop :=
  match last indexes with
  | Some vi => vi < 0
  | None => True
  end.

(** A part of a path: no slash and no backslash in it. *)
Definition plainPart (p : list ascii) : Prop :=
  Forall (fun c => c <> "/"%char /\ c <> "092"%char) p.

(** ** asset-io.ts: resolveRelativeFilePath; core.ts: convertBytesToString *)

Module AssetIO.

(** [s.replace(/\\/g, "/")] *)
Definition slashes (s : list ascii) : list ascii :=
  map (fun c => if Ascii.eqb c "092" then "/"%char else c) s.

(** [s.replace(/\/\//g, "/")]: the pairs of slashes are found from left to
    right and do not overlap. *)
Fixpoint collapse (s : list ascii) : list ascii :=
  match s with
  | c1 :: tl =>
      match tl with
      | c2 :: rest =>
          if Ascii.eqb c1 "/" && Ascii.eqb c2 "/" then "/"%char :: collapse rest
          else c1 :: collapse tl
      | [] => [c1]
      end
  | [] => []
  end.

(** [s.replace(/^\//, "")] *)
Definition stripLeading (s : list ascii) : list ascii :=
  match s with
  | c :: rest => if Ascii.eqb c "/" then rest else s
  | [] => []
  end.

Definition normalize (s : list ascii) : list ascii :=
  stripLeading (collapse (slashes s)).

(** [s.split("/")] *)
Fixpoint split (s : list ascii) (cur : list ascii) : list (list ascii) :=
  match s with
  | [] => [rev cur]
  | c :: rest =>
      if Ascii.eqb c "/" then rev cur :: split rest [] else split rest (c :: cur)
  end.

(** [parts.join("/")] *)
Fixpoint join (parts : list (list ascii)) : list ascii :=
  match parts with
  | [] => []
  | [p] => p
  | p :: rest => p ++ "/"%char :: join rest
  end.

(** [s.indexOf(".")] *)
Fixpoint indexOfDot (s : list ascii) (i : Z) : Z :=
  match s with
  | [] => -1
  | c :: rest => if Ascii.eqb c "." then i else indexOfDot rest (i + 1)
  end.

(** [parts.pop()], for the array that is left; an empty array stays
    empty. *)
Definition pop {A} (parts : list A) : list A := take (length parts - 1) parts.

Definition isEntry (entry : list ascii) (s : string) : bool := String.eqb (str entry) s.

(** The body of the loop over the parts of the relative path. *)
Definition enter (basePathParts : list (list ascii)) (entry : list ascii)
  : list (list ascii) :=
  if isEntry entry "." then basePathParts
  else if isEntry entry ".." then pop basePathParts
  else basePathParts ++ [entry].

Definition resolveRelativeFilePath (relPath basePath : string) : string :=
  let relPathParts := split (normalize (chars relPath)) [] in
  let basePathParts := split (normalize (chars basePath)) [] in
  let basePathParts :=
    if (0 <? length basePathParts)%nat
       && (0 <? indexOfDot (default [] (last basePathParts)) 0)
    then pop basePathParts else basePathParts in
  str (join (foldl enter basePathParts relPathParts)).

(** [String.fromCharCode.apply(null, bytes)] *)
Definition fromCharCodes (bytes : list Byte.byte) : string :=
  str (map ascii_of_byte bytes).

Definition maxBlockSize : Z := 65536.

(** [bytes.subarray(begin, end)] for indexes inside the array *)
Definition subarray (bytes : list Byte.byte) (first last : Z) : list Byte.byte :=
  take (Z.to_nat (last - first)) (drop (Z.to_nat first) bytes).

(** The loop of [convertBytesToString]; every round takes a block that
    is not empty, so [fuel] bounds the rounds. *)
Fixpoint blocks (fuel : nat) (bytes : list Byte.byte) (bytesLeft offset : Z)
    (strings : list string) : option (list string) :=
  match fuel with
  | O => None
  | S fuel' =>
      if 0 <? bytesLeft then
        let blockSize := Z.min bytesLeft maxBlockSize in
        let s := fromCharCodes (subarray bytes offset (offset + blockSize)) in
        blocks fuel' bytes (bytesLeft - blockSize) (offset + blockSize) (strings ++ [s])
      else Some strings
  end.

(** [convertBytesToString(bytes)]; [None] is the model running out of
    fuel. *)
Definition convertBytesToString (bytes : list Byte.byte) : option string :=
  match blocks (S (length bytes)) bytes (Z.of_nat (length bytes)) 0 [] with
  | None => None
  | Some strings =>
      Some (match strings with
            | [s] => s
            | _ => String.concat EmptyString strings
            end)
  end.
End AssetIO.

(** ** Fixtures *)

(** A delegate that skips every block and has not been called yet. *)
Definition skipsAll : Recorder Z := mkRecorder (fun _ _ _ => Skip) [].

(** A platform on which every image loads: an image is the path it was
    loaded from, and its descriptor is that path. *)
Definition PathImages : Platform string string := {|
  loadImage path := Fulfilled path;
  loadImageFromBuffer _ mime :=
    Fulfilled (match mime with Own m => m | Inherited m => m end);
  resolveRelativeFilePath rel base := rel;
  makeTexDesc2DFromImageSource image _ := image
|}.

(** The node of a Video object, number 5, that is a clip. *)
Definition videoNode : Node.t :=
  Node.new "Video" [VNumber 5; VString "Video::v"; VString "Clip"] (Own Unknown) EmptyString.

(** A new graph with this node on its heap, not yet added to the graph. *)
Definition newVideoGraph : FBXDocumentGraph.t :=
  let g := FBXDocumentGraph.new "scene.fbx" in
  FBXDocumentGraph.set_heap (FBXDocumentGraph.heap g ++ [videoNode]) g.

(** A document with one Model object, number 9, that is a mesh. *)
Definition modelDocument : FBXDocumentGraph.t :=
  graphOf
    [ CBlock "Objects" [] Enter;
      CBlock "Model" [VNumber 9; VString "Model::m"; VString "Mesh"] Enter;
      CEndBlock;
      CEndBlock ].

(** A builder inside the block of a Geometry object, number 1. *)
Definition insideGeometry : FBX7DocumentParser.t unit :=
  match replay (H:=NoImages)
          [ CBlock "Objects" [] Enter;
            CBlock "Geometry" [VNumber 1; VString "Geometry::g"; VString "Mesh"] Enter ]
          (FBX7DocumentParser.new "scene.fbx") with
  | Ok b => b
  | Throw _ => FBX7DocumentParser.new "scene.fbx"
  end.

(** A document with one Material object, number 7. *)
Definition materialDocument : FBXDocumentGraph.t :=
  graphOf
    [ CBlock "Objects" [] Enter;
      CBlock "Material" [VNumber 7; VString "Material::m"; VString EmptyString] Enter;
      CEndBlock;
      CEndBlock ].

(* ===================================================================== *)
(** * Part II: lemmas and theorems *)
(* ===================================================================== *)

(** ** The tokenizer *)

Section TokenizerFacts.
Context {N : Type} `{JSNumber N}.

Import FBXTextTokenizer.

(** A scanning loop that starts behind [pre] runs over the characters [mid]
    that do not stop it and halts on the first character of [rest], or at
    the end of the source. *)
Lemma scan_spec (stop : ascii -> bool) (mid pre rest : list ascii) (fuel : nat)
    (lc : option ascii) :
  Forall (fun c => stop c = false) mid ->
  match rest with [] => True | c :: _ => stop c = true end ->
  (List.length mid < fuel)%nat ->
  scan stop fuel (mk (pre ++ mid ++ rest) (Z.of_nat (List.length pre) - 1) lc)
  = mk (pre ++ mid ++ rest) (Z.of_nat (List.length pre + List.length mid)) (head rest).
Proof.
  revert pre fuel lc.
  induction mid as [|m mid IH]; intros pre fuel lc Hmid Hrest Hfuel.
  - destruct fuel as [|fuel]; [simpl in Hfuel; lia|].
    simpl. unfold nextChar, length. simpl.
    replace (Z.of_nat (List.length pre) - 1 + 1) with (Z.of_nat (List.length pre)) by lia.
    rewrite Nat.add_0_r.
    destruct rest as [|c rest].
    + rewrite app_nil_r, Z.ltb_irrefl. reflexivity.
    + rewrite length_app. simpl.
      replace (Z.of_nat (List.length pre) <? Z.of_nat (List.length pre + S (List.length rest)))
        with true by (symmetry; apply Z.ltb_lt; lia).
      unfold charAt.
      replace (Z.of_nat (List.length pre) <? 0) with false by (symmetry; apply Z.ltb_ge; lia).
      rewrite Nat2Z.id, list_lookup_middle by reflexivity.
      rewrite Hrest. reflexivity.
  - destruct fuel as [|fuel]; [simpl in Hfuel; lia|].
    apply Forall_cons in Hmid as [Hm Hmid].
    cbn [scan]. unfold nextChar, length. cbn [source offset].
    replace (Z.of_nat (List.length pre) - 1 + 1) with (Z.of_nat (List.length pre)) by lia.
    replace (Z.of_nat (List.length pre) <? Z.of_nat (List.length (pre ++ (m :: mid) ++ rest)))
      with true by (symmetry; apply Z.ltb_lt; rewrite !length_app; simpl; lia).
    unfold charAt.
    replace (Z.of_nat (List.length pre) <? 0) with false by (symmetry; apply Z.ltb_ge; lia).
    rewrite Nat2Z.id. simpl ((m :: mid) ++ rest).
    rewrite list_lookup_middle by reflexivity.
    rewrite Hm.
    specialize (IH (pre ++ [m]) fuel (Some m) Hmid Hrest).
    rewrite <- !(assoc_L (++)) in IH. simpl in IH.
    rewrite length_app in IH. simpl in IH.
    replace (Z.of_nat (List.length pre + 1) - 1) with (Z.of_nat (List.length pre)) in IH by lia.
    rewrite IH by (simpl in Hfuel; lia).
    f_equal. simpl. lia.
Qed.

Lemma scan_at (stop : ascii -> bool) (this : t) (pre mid rest : list ascii) (fuel : nat) :
  source this = pre ++ mid ++ rest ->
  offset this = Z.of_nat (List.length pre) - 1 ->
  Forall (fun c => stop c = false) mid ->
  match rest with [] => True | c :: _ => stop c = true end ->
  (List.length mid < fuel)%nat ->
  scan stop fuel this
  = mk (source this) (Z.of_nat (List.length pre + List.length mid)) (head rest).
Proof.
  destruct this as [src off lc]. cbn [source offset]. intros -> ->.
  apply scan_spec.
Qed.

(** [substring] cuts the middle out of a string. *)
Lemma substring_middle (pre mid rest : list ascii) :
  substring (pre ++ mid ++ rest) (Z.of_nat (List.length pre))
            (Z.of_nat (List.length pre + List.length mid)) = mid.
Proof.
  unfold substring. rewrite !length_app.
  rewrite !Z.max_l, !Z.min_l by lia.
  rewrite !Nat2Z.id.
  rewrite Nat.min_l, Nat.max_r by lia.
  rewrite drop_app_length.
  replace (List.length pre + List.length mid - List.length pre)%nat
    with (List.length mid) by lia.
  apply take_app_length.
Qed.

Lemma str_inj (a b : list ascii) : str a = str b -> a = b.
Proof.
  intros E. apply (f_equal list_ascii_of_string) in E.
  unfold str in E. now rewrite !list_ascii_of_string_of_list_ascii in E.
Qed.

(** A letter is none of the characters that the tokenizer treats apart. *)
Lemma letter_plain (c : ascii) :
  isLetter (Some c) = true ->
  isWS c = false /\ isBreak c = false /\ Ascii.eqb c ";" = false
  /\ Ascii.eqb c "034" = false /\ Ascii.eqb c "," = false
  /\ Ascii.eqb c "{" = false /\ Ascii.eqb c "}" = false
  /\ Ascii.eqb c "*" = false /\ Ascii.eqb c "-" = false.
Proof.
  destruct c as [[] [] [] [] [] [] [] []]; vm_compute; intros; try discriminate;
    repeat split; reflexivity.
Qed.

(** The state in which a call of [nextToken] that meets a word leaves the
    tokenizer, and the word it has cut out of the source. *)
Lemma word_cut (pre ws tok' rest : list ascii) (c0 : ascii) (lc : option ascii) :
  let src := pre ++ ws ++ (c0 :: tok') ++ rest in
  let start := Z.of_nat (List.length pre + List.length ws) in
  Forall (fun c => isWS c = true) ws ->
  isLetter (Some c0) = true ->
  Forall (fun c => isBreak c = false) tok' ->
  match rest with [] => True | c :: _ => isBreak c = true end ->
  nextToken (mk src (Z.of_nat (List.length pre) - 1) lc)
  = Some (@word N _ (mk src start (Some c0)) start (Some c0))
  /\ scan isBreak (rounds (mk src start (Some c0))) (mk src start (Some c0))
     = mk src (start + 1 + Z.of_nat (List.length tok')) (head rest)
  /\ substring src start (start + 1 + Z.of_nat (List.length tok')) = c0 :: tok'.
Proof.
  intros src start Hws Hc0 Htok Hrest.
  destruct (letter_plain c0 Hc0) as (Hw & Hb & H1 & H2 & H3 & H4 & H5 & _).
  assert (Hskip : skipWS (mk src (Z.of_nat (List.length pre) - 1) lc)
                  = mk src start (Some c0)).
  { unfold skipWS.
    rewrite (scan_at _ _ pre ws ((c0 :: tok') ++ rest)); try reflexivity.
    - eapply Forall_impl; [exact Hws|]. intros c Hc. simpl. now rewrite Hc.
    - simpl. now rewrite Hw.
    - unfold rounds, src. cbn [source]. rewrite !length_app. lia. }
  split; [|split].
  - unfold nextToken. cbn [rounds nextToken_fuel source].
    rewrite Hskip. cbn [offset lastChar source ceq].
    replace (length (mk src start (Some c0)) <=? start) with false.
    + now rewrite H1, H2, H3, H4, H5.
    + symmetry. apply Z.leb_gt. unfold length, src, start. cbn [source].
      rewrite !length_app. cbn [List.length]. lia.
  - rewrite (scan_at _ _ (pre ++ ws ++ [c0]) tok' rest); try assumption.
    + cbn [source]. f_equal. unfold start. rewrite !length_app. cbn [List.length]. lia.
    + unfold src. cbn [source]. now rewrite <- !(assoc_L (++)).
    + unfold start. cbn [offset]. rewrite !length_app. cbn [List.length]. lia.
    + unfold rounds, src. cbn [source]. rewrite !length_app. cbn [List.length]. lia.
  - unfold src, start.
    pose proof (substring_middle (pre ++ ws) (c0 :: tok') rest) as E.
    rewrite <- !(assoc_L (++)) in E. rewrite length_app in E.
    etransitivity; [|exact E]. f_equal. cbn [List.length]. lia.
Qed.

Lemma str_is (cs : list ascii) (s : string) :
  String.eqb (str cs) s = true <-> cs = chars s.
Proof.
  rewrite String.eqb_eq. unfold str, chars. split.
  - intros <-. now rewrite list_ascii_of_string_of_list_ascii.
  - intros ->. apply string_of_list_ascii_of_string.
Qed.

(** A non-empty string ends with [":"] and is at least two characters long
    exactly when it is a non-empty label followed by [":"]. *)
Lemma label_shape (tok : list ascii) :
  ((List.length tok <? 2)%nat || negb (ceq (last tok) ":")) = false
  <-> exists label, label <> [] /\ tok = label ++ [":"%char].
Proof.
  rewrite orb_false_iff, negb_false_iff, Nat.ltb_ge. split.
  - intros [Hlen Hlast].
    destruct (last tok) as [c|] eqn:E; [|discriminate].
    simpl in Hlast. apply Ascii.eqb_eq in Hlast. subst c.
    apply last_Some in E as [label ->].
    exists label. split; [|reflexivity].
    intros ->. simpl in Hlen. lia.
  - intros (label & Hne & ->). rewrite length_app, last_snoc. simpl.
    split; [|reflexivity].
    destruct label; [congruence|simpl; lia].
Qed.

(** C9.  A token that starts with an ASCII letter -- the characters [tok]
    up to the next break character or the end of the source, after the
    white space [ws] -- is returned as a [String] token exactly when it is
    the bare word T or Y, as a [Key] token exactly when it is a non-empty
    label followed by a colon (so at least two characters long), the value
    of the key being the label without the colon, and as an [Invalid] token
    in every other case. *)
Theorem letter_token_is_key_or_bare_word
    (pre ws tok' rest : list ascii) (c0 : ascii) (lc : option ascii)
    (Hws : Forall (fun c => isWS c = true) ws)
    (Hc0 : isLetter (Some c0) = true)
    (Htok : Forall (fun c => isBreak c = false) tok')
    (Hrest : match rest with [] => True | c :: _ => isBreak c = true end) :
  let tok := c0 :: tok' in
  let bare := tok = chars "T" \/ tok = chars "Y" in
  let labelled := exists label, label <> [] /\ tok = label ++ [":"%char] in
  exists (token : Token.t N) (this' : t),
    nextToken (mk (pre ++ ws ++ tok ++ rest) (Z.of_nat (List.length pre) - 1) lc)
      = Some (token, this')
    /\ Token.offset token = Z.of_nat (List.length pre + List.length ws)
    /\ (Token.type token = TokenType.String <-> bare)
    /\ (bare -> Token.val token = vstring (str tok))
    /\ (Token.type token = TokenType.Key <-> labelled)
    /\ (forall label, tok = label ++ [":"%char] -> label <> [] ->
        Token.val token = vstring (str label))
    /\ (Token.type token = TokenType.Invalid <-> ~ bare /\ ~ labelled).
Proof.
  intros tok bare labelled.
  destruct (word_cut pre ws tok' rest c0 lc Hws Hc0 Htok Hrest) as (Hnext & Hscan & Hsub).
  match type of Hnext with _ = Some ?w => exists (fst w), (snd w) end.
  split; [exact (eq_trans Hnext (f_equal Some (surjective_pairing _)))|].
  unfold word. rewrite Hscan. cbn [offset source lastChar]. rewrite Hsub, Hc0.
  fold tok.
  assert (Hbare : (String.eqb (str tok) "T" || String.eqb (str tok) "Y") = true <-> bare).
  { rewrite orb_true_iff, !str_is. reflexivity. }
  assert (Hexcl : bare -> ~ labelled).
  { intros [E|E] (label & Hne & E'); rewrite E in E';
      destruct label as [|? [|? ?]]; try congruence; discriminate. }
  destruct (String.eqb (str tok) "T" || String.eqb (str tok) "Y") eqn:EB.
  - assert (bare) as Hb by now apply Hbare.
    cbn [fst Token.type Token.val Token.offset].
    repeat split; try tauto; try discriminate.
    intros label E Hne. destruct (Hexcl Hb). now exists label.
  - assert (~ bare) as Hnb by (rewrite <- Hbare; congruence).
    destruct ((List.length tok <? 2)%nat || negb (ceq (last tok) ":")) eqn:EL.
    + assert (~ labelled) as Hnl by (intros Hl; apply label_shape in Hl; congruence).
      cbn [fst Token.type Token.val Token.offset invalid].
      repeat split; try tauto; try discriminate.
      intros label E Hne. destruct Hnl. now exists label.
    + assert (labelled) as Hl by now apply label_shape.
      cbn [fst Token.type Token.val Token.offset].
      repeat split; try tauto; try discriminate.
      intros label E Hne. rewrite E, length_app. cbn [List.length].
      replace (List.length label + 1 - 1)%nat with (List.length label) by lia.
      now rewrite take_app_length.
Qed.

Lemma scan_source (stop : ascii -> bool) (fuel : nat) (this : t) :
  source (scan stop fuel this) = source this.
Proof.
  revert this. induction fuel as [|fuel IH]; intros this; [reflexivity|].
  cbn [scan nextChar].
  destruct (if offset this + 1 <? length this
            then charAt (source this) (offset this + 1) else None) as [ch|];
    [|reflexivity].
  destruct (stop ch); [reflexivity|]. now rewrite IH.
Qed.

Lemma word_not_EOF (this : t) (tokenStart : Z) (firstChar : option ascii) :
  Token.type (fst (@word N _ this tokenStart firstChar)) <> TokenType.EOF.
Proof.
  unfold word, invalid.
  repeat match goal with
         | |- context [if ?b then _ else _] => destruct b
         | |- context [match ?o with Some _ => _ | None => _ end] => destruct o
         end; cbn; discriminate.
Qed.

(** A call that returns [EOF] leaves the cursor at the length of the
    source. *)
Lemma nextToken_fuel_EOF (fuel : nat) (this this' : t) (tok : Token.t N) :
  nextToken_fuel fuel this = Some (tok, this') ->
  Token.type tok = TokenType.EOF ->
  source this' = source this /\ offset this' = length this
  /\ tok = Token.mk TokenType.EOF (length this) undefined.
Proof.
  revert this. induction fuel as [|fuel IH]; intros this; [discriminate|].
  cbn [nextToken_fuel].
  assert (Hsrc : source (skipWS this) = source this) by apply scan_source.
  assert (Hlen : length (skipWS this) = length this) by (unfold length; now rewrite Hsrc).
  destruct (length (skipWS this) <=? offset (skipWS this)).
  - intros [= <- <-] _. cbn [source offset]. rewrite Hlen. auto.
  - destruct (ceq (lastChar (skipWS this)) ";").
    { intros E Ht. destruct (IH _ E Ht) as (E1 & E2 & E3).
      assert (Hsrc' : source (skipToLineEnd (skipWS this)) = source this)
        by (unfold skipToLineEnd; now rewrite scan_source).
      unfold length in *. rewrite Hsrc' in *. auto. }
    destruct (ceq (lastChar (skipWS this)) "034").
    { destruct (negb _); intros [= <- <-]; discriminate. }
    destruct (ceq (lastChar (skipWS this)) ",").
    { intros [= <- <-]; discriminate. }
    destruct (ceq (lastChar (skipWS this)) "{").
    { intros [= <- <-]; discriminate. }
    destruct (ceq (lastChar (skipWS this)) "}").
    { intros [= <- <-]; discriminate. }
    intros [= E] Ht. exfalso.
    eapply word_not_EOF. rewrite E. exact Ht.
Qed.

(** With the cursor at the length of the source, [nextToken] reads no
    character, returns [EOF] and leaves the cursor where it is. *)
Lemma nextToken_at_end (this : t) :
  offset this = length this ->
  nextToken this
  = Some (Token.mk (N:=N) TokenType.EOF (length this) undefined,
          mk (source this) (length this) None).
Proof.
  intros Hoff. unfold nextToken, rounds. cbn [nextToken_fuel].
  unfold skipWS, rounds. cbn [scan nextChar].
  replace (offset this + 1 <? length this) with false
    by (symmetry; apply Z.ltb_ge; lia).
  cbn [offset source lastChar]. unfold length at 1 3 4. cbn [source].
  fold (length this).
  replace (length this <=? offset this + 1) with true
    by (symmetry; apply Z.leb_le; lia).
  reflexivity.
Qed.

(** C10.  Once [nextToken] has returned [EOF] the cursor is at the length
    of the source, and any number of further calls return [EOF] again, each
    leaving the cursor there: no call reads a character of the source,
    none fails. *)
Theorem nextToken_again_after_EOF (this this' : t) (tok : Token.t N)
    (Hcall : nextToken this = Some (tok, this'))
    (Heof : Token.type tok = TokenType.EOF) :
  offset this' = length this'
  /\ forall n : nat,
       nextTokens n this'
       = Some (replicate n (Token.mk (N:=N) TokenType.EOF (length this) undefined),
               if n is O then this' else mk (source this) (length this) None).
Proof.
  destruct (nextToken_fuel_EOF _ _ _ _ Hcall Heof) as (Hsrc & Hoff & _).
  assert (Hlen : length this' = length this) by (unfold length; now rewrite Hsrc).
  split; [congruence|].
  assert (Hend : forall n, nextTokens n (mk (source this) (length this) None)
                 = Some (replicate n (Token.mk (N:=N) TokenType.EOF (length this) undefined),
                         mk (source this) (length this) None)).
  { induction n as [|n IH]; [reflexivity|].
    cbn [nextTokens]. rewrite nextToken_at_end by reflexivity.
    unfold length at 1 2. cbn [source]. fold (length this).
    now rewrite IH. }
  intros [|n]; [reflexivity|].
  cbn [nextTokens]. rewrite nextToken_at_end by congruence.
  rewrite Hsrc, Hlen, Hend. reflexivity.
Qed.
End TokenizerFacts.

(** The theorem above at the source [ ab: {], read from its start. *)
Lemma letter_token_is_key_or_bare_word_witness :
  exists (token : Token.t Z) (this' : FBXTextTokenizer.t),
    FBXTextTokenizer.nextToken (FBXTextTokenizer.new " ab: {") = Some (token, this')
    /\ Token.type token = TokenType.Key
    /\ Token.val token = vstring "ab".
Proof.
  destruct (letter_token_is_key_or_bare_word (N:=Z)
              [] [" "%char] ["b"%char; ":"%char] [" "%char; "{"%char] "a"%char None)
    as (token & this' & Hnext & _ & _ & _ & Hkey & Hval & _).
  - repeat constructor.
  - reflexivity.
  - repeat constructor.
  - reflexivity.
  - exists token, this'. split; [exact Hnext|]. split.
    + apply Hkey. exists ["a"%char; "b"%char]. split; [discriminate|reflexivity].
    + apply (Hval ["a"%char; "b"%char]); [reflexivity|discriminate].
Defined.

(** The theorem above at a source that holds one space. *)
Lemma nextToken_again_after_EOF_witness :
  exists this'' : FBXTextTokenizer.t,
    FBXTextTokenizer.nextTokens 3 (FBXTextTokenizer.mk [" "%char] 1 None)
    = Some (replicate 3 (Token.mk (N:=Z) TokenType.EOF 1 undefined), this'').
Proof.
  destruct (nextToken_again_after_EOF (N:=Z) (FBXTextTokenizer.new " ")
              (FBXTextTokenizer.mk [" "%char] 1 None)
              (Token.mk TokenType.EOF 1 undefined) eq_refl eq_refl) as [_ Hn].
  eexists. apply Hn.
Defined.

(** ** The polygon scan of buildMeshes *)

Section PolygonFacts.

Import FBXDocumentGraph.

(** A run of indexes that are not negative, closed by a negative one, is
    committed as one polygon, whatever its length. *)
Lemma scanPolygons_run (body : list Z) (v : Z) (rest : list Z) :
  Forall (fun x => 0 <= x) body -> v < 0 ->
  forall pvi pa va mb, exists pa',
    scanPolygons (body ++ v :: rest) pvi pa va mb
    = scanPolygons rest (pvi + Z.of_nat (length body) + 1) [] []
        (addPolygon pa' (va ++ body ++ [Z.lnot v]) mb).
Proof.
  intros Hbody Hv. induction Hbody as [|x body Hx _ IH]; intros pvi pa va mb.
  - exists (pa ++ [pvi]). cbn [app scanPolygons length].
    replace (v <? 0) with true by (symmetry; apply Z.ltb_lt; lia).
    f_equal. lia.
  - cbn [app scanPolygons].
    replace (x <? 0) with false by (symmetry; apply Z.ltb_ge; lia).
    destruct (IH (pvi + 1) (pa ++ [pvi]) (va ++ [x]) mb) as [pa' ->].
    exists pa'. rewrite <- (assoc_L (++) va). cbn [app length].
    f_equal. lia.
Qed.

Lemma scanPolygons_count (indexes : list Z) :
  forall pvi pa va mb,
    length (polygons (scanPolygons indexes pvi pa va mb))
    = (length (polygons mb) + length (filter (fun x => (x < 0)%Z) indexes))%nat.
Proof.
  induction indexes as [|x indexes IH]; intros pvi pa va mb.
  - cbn. lia.
  - cbn [scanPolygons]. rewrite filter_cons.
    destruct (Z.ltb_spec x 0) as [Hneg|Hpos].
    + rewrite IH. cbn [addPolygon polygons]. rewrite length_app.
      rewrite decide_True by exact Hneg. cbn [length]. lia.
    + rewrite IH. rewrite decide_False by lia. reflexivity.
Qed.

Lemma scanPolygons_stored (ps : list (list Z * Z)) :
  Forall (fun p => Forall (fun x => 0 <= x) (fst p) /\ 0 <= snd p) ps ->
  forall pvi mb,
    map snd (polygons (scanPolygons (concat (map storedPolygon ps)) pvi [] [] mb))
    = map snd (polygons mb) ++ map polygonIndexes ps.
Proof.
  induction 1 as [|[init last] ps [Hinit Hlast] _ IH]; intros pvi mb.
  - cbn. now rewrite app_nil_r.
  - cbn [map concat]. unfold storedPolygon at 1. cbn [fst snd] in *.
    rewrite <- (assoc_L (++)). cbn [app].
    destruct (scanPolygons_run init (Z.lnot last) (concat (map storedPolygon ps))
                Hinit ltac:(unfold Z.lnot; lia) pvi [] [] mb) as [pa' ->].
    rewrite IH. cbn [addPolygon polygons]. rewrite map_app. cbn [map snd app].
    rewrite Z.lnot_involutive, <- (assoc_L (++)). reflexivity.
Qed.

(** C1.  [buildMeshes] decodes the PolygonVertexIndex array of a Geometry
    object by the linear scan [scanPolygons] from its first element.  The
    array [0; 2; -5] yields exactly one polygon, with the vertex indexes
    [0; 2; 4], and [0; 1; -3; 3; 4; -6] exactly the two polygons [0; 1; 2]
    and [3; 4; 5].  In general the scan commits one polygon per negative
    entry, and an array that stores polygons of any sizes one after the
    other, each with its last index complemented, is decoded to exactly
    these polygons. *)
Theorem polygon_decode (TexDesc : Type) :
  (forall indexes options,
      exists g : AssetGroup TexDesc,
        outcome (buildMeshes (geometryDocument indexes) (Some newAssetGroup) options)
          = Ok (Some g)
        /\ map meshPolygons (meshes g)
           = [map snd (polygons (scanPolygons indexes 0 [] [] emptyMeshBuilder))])
  /\ map snd (polygons (scanPolygons [0; 2; -5] 0 [] [] emptyMeshBuilder))
     = [[0; 2; 4]]
  /\ map snd (polygons (scanPolygons [0; 1; -3; 3; 4; -6] 0 [] [] emptyMeshBuilder))
     = [[0; 1; 2]; [3; 4; 5]]
  /\ (forall indexes,
        length (polygons (scanPolygons indexes 0 [] [] emptyMeshBuilder))
        = length (filter (fun x => x < 0) indexes))
  /\ (forall ps : list (list Z * Z),
        Forall (fun p => Forall (fun x => 0 <= x) (fst p) /\ 0 <= snd p) ps ->
        map snd (polygons (scanPolygons (concat (map storedPolygon ps)) 0 [] []
                             emptyMeshBuilder))
        = map polygonIndexes ps).
Proof.
  split; [|split; [|split; [|split]]].
  - intros indexes options. eexists. split; reflexivity.
  - reflexivity.
  - reflexivity.
  - intros indexes. now rewrite scanPolygons_count.
  - intros ps Hps. now rewrite scanPolygons_stored.
Qed.

(** The theorem above for a triangle, a pentagon and a segment stored one
    after the other. *)
Lemma polygon_decode_witness :
  map snd (polygons (FBXDocumentGraph.scanPolygons [7; 8; -10; 0; 1; 2; 3; -5; 6; -1] 0 [] []
                       emptyMeshBuilder))
  = [[7; 8; 9]; [0; 1; 2; 3; 4]; [6; 0]].
Proof.
  destruct (polygon_decode unit) as (_ & _ & _ & _ & Hstored).
  apply (Hstored [([7; 8], 9); ([0; 1; 2; 3], 4); ([6], 0)]).
  apply (bool_decide_unpack _). vm_compute. exact I.
Defined.
End PolygonFacts.
(** ** The document graph and its builder *)

Section GraphFacts.
Context {Image TexDesc : Type} `{Platform Image TexDesc}.

Import FBXDocumentGraph.

(** C8, as amended.  When the fromID or the toID of a connection is not a
    key of the all-objects map, [addConnection] returns without a throw and
    without a warning and leaves the graph as it was: the connections list
    and every node, so all the connectionsIn and connectionsOut lists, are
    unchanged, and a later [resolve] does what it does without the call. *)
Theorem addConnection_unknown_endpoint (conn : Connection) (g : FBXDocumentGraph.t)
    (Hunknown : unknownID (fromID conn) g \/ unknownID (toID conn) g) :
  addConnection conn g = mkEff [] (Ok g)
  /\ forall g', outcome (addConnection conn g) = Ok g' ->
       connections g' = connections g
       /\ heap g' = heap g
       /\ forall options, resolve g' options = resolve g options.
Proof.
  assert (E : addConnection conn g = mkEff [] (Ok g)).
  { unfold addConnection, unknownID in *. cbn [fromNode toNode].
    destruct Hunknown as [-> | ->]; [reflexivity|].
    now destruct (os_get (fromID conn) (allObjects g)). }
  split; [exact E|].
  rewrite E. cbn [outcome]. intros g' [= <-]. auto.
Qed.
End GraphFacts.

(** The theorem above for a connection from the unknown object 5 to the
    root node of an empty graph. *)
Lemma addConnection_unknown_endpoint_witness :
  FBXDocumentGraph.addConnection (mkConnection 5 None 0 None None)
    (FBXDocumentGraph.new "scene.fbx")
  = mkEff [] (Ok (FBXDocumentGraph.new "scene.fbx")).
Proof.
  apply (addConnection_unknown_endpoint (H:=NoImages)).
  left. reflexivity.
Defined.

(** C8 as it was claimed fails: a connection from the unknown object 5 is
    dropped from an empty graph without any warning. *)
Lemma addConnection_unknown_endpoint_not_warned :
  unknownID 5 (FBXDocumentGraph.new "scene.fbx")
  /\ ~ droppedWithWarning (mkConnection 5 None 0 None None)
         (FBXDocumentGraph.new "scene.fbx").
Proof.
  split; [reflexivity|].
  intros [_ Hwarned]. now apply Hwarned.
Qed.

(** C2, what the code does against it.  After [block("GlobalSettings")] and
    [block("Foo")] the builder is in the state GlobalSettings at depth 2,
    with no current object.  [endBlock] brings the depth to 1 and, although
    the state is not Object, finalizes: it calls [addObject] on the missing
    object, which throws. *)
Theorem endBlock_finalizes_outside_Object :
  let calls := [CBlock "GlobalSettings" [] Enter; CBlock (N:=Z) "Foo" [] Enter] in
  exists b : FBX7DocumentParser.t unit,
    replay (H:=NoImages) calls (FBX7DocumentParser.new "scene.fbx") = Ok b
    /\ FBX7DocumentParser.state b = BuilderState.GlobalSettings
    /\ FBX7DocumentParser.depth b = 2
    /\ FBX7DocumentParser.curObject b = None
    /\ FBX7DocumentParser.endBlock b
       = (doc' ← FBXDocumentGraph.addObject (FBX7DocumentParser.curObject b)
                   (FBX7DocumentParser.doc b);
          Ok (FBX7DocumentParser.set_state BuilderState.Objects
                (FBX7DocumentParser.set_curNodeParent None
                   (FBX7DocumentParser.set_curObject None
                      (FBX7DocumentParser.set_doc doc'
                         (FBX7DocumentParser.set_state BuilderState.Object
                            (FBX7DocumentParser.set_depth 1 b)))))))
    /\ FBX7DocumentParser.endBlock b
       = Throw (TypeError "Cannot read property of null").
Proof.
  eexists. repeat split; reflexivity.
Qed.

(** C4, what the code does against it.  For a material whose first
    incoming connection comes from a Texture node that has no incoming
    connection of its own, [buildMaterials] throws where it reads the
    Video id off that missing connection; no warning is written and no
    material is added. *)
Theorem buildMaterials_loose_texture_throws (TexDesc : Type) (options : FBXResolveOptions) :
  FBXDocumentGraph.buildMaterials (TexDesc:=TexDesc) looseTextureDocument
    (Some newAssetGroup) options
  = mkEff [] (Throw (TypeError "Cannot read property 'fromID' of undefined")).
Proof. reflexivity. Qed.

(** C3, what the code does against it.  On a document whose only object is
    a Video node that names a file which cannot be loaded, [resolve] with
    [allowMissingTextures] true or left out fulfills with a group whose
    textures hold one null entry, and [resolve] with [allowMissingTextures]
    false does not reject: [loadTextures] turns the rejection into a null
    group and, with no material, geometry or model to build, [resolve]
    fulfills with null. *)
Theorem resolve_missing_texture {Image TexDesc : Type} `{Platform Image TexDesc}
    (reason : Reason)
    (Hload : loadImage (resolveRelativeFilePath "a.png" "scene.fbx") = Rejected reason) :
  (forall options,
      allowMissingTextures options <> Some false ->
      FBXDocumentGraph.resolve videoDocument (Some options)
      = mkEff [reasonLine reason]
              (Ok (Fulfilled (Some (mkAssetGroup [None] [] [] [])))))
  /\ FBXDocumentGraph.resolve videoDocument None
     = mkEff [reasonLine reason]
             (Ok (Fulfilled (Some (mkAssetGroup [None] [] [] []))))
  /\ FBXDocumentGraph.resolve videoDocument (Some (mkOptions (Some false)))
     = mkEff [] (Ok (Fulfilled None)).
Proof.
  assert (R : forall allow,
             FBXDocumentGraph.resolve videoDocument (Some (mkOptions (Some allow)))
             = if allow
               then mkEff [reasonLine reason]
                      (Ok (Fulfilled (Some (mkAssetGroup [None] [] [] []))))
               else mkEff [] (Ok (Fulfilled None))).
  { intros allow.
    let g := eval vm_compute in videoDocument in change videoDocument with g.
    unfold FBXDocumentGraph.resolve, FBXDocumentGraph.loadTextures,
      FBXDocumentGraph.textureOf.
    cbn. rewrite Hload. destruct allow; reflexivity. }
  split; [|split].
  - intros [[[]|]] Hallow; [apply (R true)|now destruct Hallow|apply (R true)].
  - apply (R true).
  - apply (R false).
Qed.

(** The theorem above on the platform on which no image can be loaded. *)
Lemma resolve_missing_texture_witness :
  FBXDocumentGraph.resolve (H:=NoImages) videoDocument (Some (mkOptions (Some false)))
  = mkEff [] (Ok (Fulfilled None)).
Proof.
  apply (resolve_missing_texture (H:=NoImages) (Message "doesn't exist") eq_refl).
Defined.

(** ** The parser *)

Section ParserFacts.
Context {N : Type} `{JSNumber N}.

Import FBXTextParser.

Local Abbreviation Parser := (FBXTextParser.t N (Recorder N)).

Lemma closeIf_Key (d e : Z) : has e Expect.Key = true -> has (closeIf d e) Expect.Key = true.
Proof.
  unfold closeIf, has. destruct (0 <? d); [|auto].
  rewrite !negb_true_iff, !Z.eqb_neq. intros He E. apply He.
  apply Z.bits_inj'. intros n Hn.
  apply (f_equal (fun z => Z.testbit z n)) in E.
  rewrite Z.land_spec, Z.lor_spec in E. rewrite Z.land_spec.
  rewrite Z.bits_0 in *.
  destruct (Z.testbit e n), (Z.testbit Expect.Key n) eqn:EK; try reflexivity.
  cbn in E. discriminate.
Qed.

Lemma closeIf_Close (d e : Z) : 0 < d -> has (closeIf d e) Expect.Close = true.
Proof.
  intros Hd. unfold closeIf, has.
  replace (0 <? d) with true by (symmetry; apply Z.ltb_lt; lia).
  rewrite negb_true_iff, Z.eqb_neq. intros E.
  apply (f_equal (fun z => Z.testbit z 4)) in E.
  rewrite Z.land_spec, Z.lor_spec, Z.bits_0 in E.
  change (Z.testbit Expect.Close 4) with true in E.
  now rewrite orb_true_r in E.
Qed.

(** A round for a number or a string that is not an array element. *)
Lemma step_scalar (v : Scalar N) (tok : Token.t N) e d p70 S al ai vals del :
  isScalar v tok ->
  has e Expect.Value = true ->
  step tok (mk e None false d p70 S None al ai vals del)
  = Ok (Break, mk (closeIf d Expect.CommaOrOpenOrKey) None false d p70 S None al ai
                  (vals ++ [scalarValue v]) del).
Proof.
  intros Hv He. destruct tok as [ty off val].
  destruct v as [n|s]; destruct Hv as [Hty Hval]; cbn in Hty, Hval.
  all: subst;
    unfold step; cbn; rewrite He; cbn; unfold withClose, closeIf; cbn;
    destruct (0 <? d); reflexivity.
Qed.

Lemma step_comma (tok : Token.t N) e d p70 S a al ai vals del :
  isA TokenType.Comma tok ->
  has e Expect.Comma = true ->
  step tok (mk e None false d p70 S a al ai vals del)
  = Ok (Break, mk Expect.Value None false d p70 S a al ai vals del).
Proof.
  intros Hty He. destruct tok as [ty off val]. unfold isA in Hty. cbn in Hty. subst ty.
  unfold step. cbn. now rewrite He.
Qed.

Lemma has_closeIf (d e flag : Z) : has e flag = true -> has (closeIf d e) flag = true.
Proof.
  unfold closeIf, has. destruct (0 <? d); [|auto].
  rewrite !negb_true_iff, !Z.eqb_neq. intros He E. apply He.
  apply Z.bits_inj'. intros n Hn.
  apply (f_equal (fun z => Z.testbit z n)) in E.
  rewrite Z.land_spec, Z.lor_spec in E. rewrite Z.land_spec.
  rewrite Z.bits_0 in *.
  destruct (Z.testbit e n), (Z.testbit flag n); try reflexivity.
  cbn in E. discriminate.
Qed.

(** The rounds for the values of a property or of the head of a block. *)
Lemma feed_values (vs : list (Scalar N)) (ts : list (Token.t N)) :
  ValuesTokens vs ts ->
  forall e d p70 S al ai vals del,
    has e Expect.Value = true ->
    feed ts (mk e None false d p70 S None al ai vals del)
    = Some (mk (closeIf d Expect.CommaOrOpenOrKey) None false d p70 S None al ai
               (vals ++ map scalarValue vs) del).
Proof.
  induction 1 as [v t Hv | v vs t c ts Hv Hc _ IH]; intros e d p70 S al ai vals del He.
  - cbn [feed]. rewrite (step_scalar v) by assumption. reflexivity.
  - cbn [feed]. rewrite (step_scalar v) by assumption. cbn [eof_].
    rewrite step_comma by (try assumption; apply has_closeIf; reflexivity).
    cbn [eof_]. rewrite IH by reflexivity.
    cbn [map]. now rewrite <- (assoc_L (++)).
Qed.

(** Reporting the pending property changes the pending values, which it
    empties, and the delegate, and nothing else. *)
Lemma flush_shape e k eof d p70 S a al ai vals del (st0 : Parser) :
  flush (mk e k eof d p70 S a al ai vals del) = Ok st0 ->
  st0 = mk e k eof d p70 S a al ai [] (delegate_ st0)
  /\ (vals = [] -> delegate_ st0 = del).
Proof.
  unfold flush, reportProperty. destruct vals as [|v vals]; cbn.
  - intros [= <-]. auto.
  - destruct (d <=? S); [destruct p70|]; cbn.
    + destruct v as [| s | |]; cbn; try discriminate.
      destruct (String.eqb s "P"); cbn; [|discriminate].
      destruct (interpretProp70P _) as [p|]; cbn; [|discriminate].
      intros [= <-]. cbn. split; [reflexivity|discriminate].
    + destruct v as [| s | |]; cbn; try discriminate.
      intros [= <-]. cbn. split; [reflexivity|discriminate].
    + intros [= <-]. cbn. split; [reflexivity|discriminate].
Qed.

(** A round for a key that is not the wrapper key [a]. *)
Lemma step_key (key : string) (tok : Token.t N) e d p70 S a al ai vals del (st0 : Parser) :
  isKey key tok -> key <> "a"%string ->
  has e Expect.Key = true ->
  flush (mk e None false d p70 S a al ai vals del) = Ok st0 ->
  step tok (mk e None false d p70 S a al ai vals del)
  = Ok (Break, mk Expect.ValueOrOpen None false d p70 S a al ai [VString key]
                  (delegate_ st0)).
Proof.
  intros [Hty Hval] Hkey He Hflush.
  destruct (flush_shape _ _ _ _ _ _ _ _ _ _ _ _ Hflush) as [E _].
  destruct tok as [ty off val]. cbn in Hty, Hval. subst ty val.
  unfold step. cbn [Token.type Token.val expect_ expectNextKey_ valIs].
  rewrite He.
  replace (String.eqb "a" key) with false
    by (symmetry; apply String.eqb_neq; congruence).
  cbn [negb]. fold (flush (mk e None false d p70 S a al ai vals del)).
  rewrite Hflush, E. reflexivity.
Qed.

Lemma feed_app (a b : list (Token.t N)) (st : Parser) :
  feed (a ++ b) st = match feed a st with Some st' => feed b st' | None => None end.
Proof.
  revert st. induction a as [|tok a IH]; intros st; [reflexivity|].
  cbn [app feed]. destruct (step tok st) as [[[] st']|]; try reflexivity.
  destruct (eof_ st'); [reflexivity|apply IH].
Qed.

Ltac ready :=
  unfold Ready; cbn [expect_ expectNextKey_ eof_ depth_ inProp70Block_
                     skippingUntilDepth_ array_];
  repeat split; try reflexivity; try assumption;
  try (apply has_closeIf; reflexivity);
  try (intros; apply closeIf_Close; lia).

Ltac leb_true := match goal with
  | |- context [?a <=? ?b] => replace (a <=? b) with true by (symmetry; apply Z.leb_le; lia)
  end.
Ltac leb_false := match goal with
  | |- context [?a <=? ?b] => replace (a <=? b) with false by (symmetry; apply Z.leb_gt; lia)
  end.
Ltac eqb_false := match goal with
  | |- context [?a =? ?b] => replace (a =? b) with false by (symmetry; apply Z.eqb_neq; lia)
  end.

(** The rounds for a property. *)
Lemma feed_property (k : string) (v : Scalar N) (vs : list (Scalar N))
    (tk : Token.t N) (ts : list (Token.t N)) :
  isKey k tk -> k <> "a"%string -> ValuesTokens (v :: vs) ts ->
  forall (live : bool) d S (st st0 : Parser),
    0 <= d -> Ready d S false st -> modeOK live d S 0 -> flush st = Ok st0 ->
    Fed (tk :: ts) st d S false
        (if live then walkItem (Property k v vs) (delegate_ st0) else delegate_ st0).
Proof.
  intros Hk Hka Hts live d S st st0 Hd HR Hmode Hflush.
  destruct st as [e nk eof d' p70 S' a al ai vals del].
  destruct HR as (HR1 & HR2 & HR3 & HR4 & HR5 & HR6 & HK & HC). cbn in *. subst.
  destruct (flush_shape _ _ _ _ _ _ _ _ _ _ _ _ Hflush) as [E0 E0'].
  unfold Fed. cbn [feed]. rewrite (step_key k tk _ _ _ _ _ _ _ _ _ st0) by assumption.
  cbn [eof_]. rewrite (feed_values _ _ Hts) by reflexivity.
  eexists. split; [reflexivity|]. split; [ready|].
  unfold flush, reportProperty. cbn.
  destruct live; cbn in Hmode.
  - destruct Hmode as [-> Hh]. leb_true. cbn. eexists. split; reflexivity.
  - leb_false. cbn. eexists. split; reflexivity.
Qed.

Lemma insert_after {A} (done todo : list A) (z y : A) :
  <[length done := y]> (done ++ z :: todo) = done ++ y :: todo.
Proof. induction done as [|x done IH]; cbn; [reflexivity|]. f_equal. exact IH. Qed.

(** A round for an element of an array: it is stored behind the elements
    stored so far. *)
Lemma step_element (x : N) (tok : Token.t N) e d p70 S k
    (done todo : list N) (z : N) (len ai : Z) vals del :
  isScalar (SNumber x) tok ->
  has e Expect.Value = true ->
  ai = Z.of_nat (length done) ->
  len = ai + 1 + Z.of_nat (length todo) ->
  let a' := mkTypedArray k (done ++ stored k x :: todo) in
  step tok (mk e None false d p70 S (Some (mkTypedArray k (done ++ z :: todo))) len
               ai vals del)
  = Ok (Break,
        if todo is [] then
          mk (closeIf d Expect.Close) None false d p70 S (Some a') len
             (ai + 1) (vals ++ [VArray a']) del
        else
          mk (closeIf d Expect.Comma) None false d p70 S (Some a') len
             (ai + 1) vals del).
Proof.
  intros [Hty Hval] He -> -> a'. destruct tok as [ty off val]. cbn in Hty, Hval. subst.
  unfold step. cbn [Token.type Token.val expect_ expectNextKey_ array_ andb].
  rewrite He. unfold arraySet.
  replace (arrayIndex_ _ <? 0) with false
    by (symmetry; apply Z.ltb_ge; cbn; lia).
  cbn [arrayIndex_ kind elems arrayLength_ set_arrayIndex set_array set_values
         set_expect values_ expect_ depth_ withClose eof_ expectNextKey_
         inProp70Block_ skippingUntilDepth_ array_ delegate_].
  rewrite Nat2Z.id, insert_after. fold a'.
  destruct todo as [|z' todo]; cbn [length];
    match goal with
    | |- context [?a =? ?b] => destruct (Z.eqb_spec a b); try lia
    end;
    unfold withClose; cbn; unfold closeIf; destruct (0 <? d); reflexivity.
Qed.

(** The rounds for the elements of an array. *)
Lemma feed_elements (vs : list (Scalar N)) (ts : list (Token.t N)) :
  ValuesTokens vs ts ->
  forall (xs : list N), vs = map SNumber xs ->
  forall e d p70 S k (done todo : list N) (len ai : Z) vals del,
    has e Expect.Value = true ->
    length todo = length xs ->
    ai = Z.of_nat (length done) ->
    len = ai + Z.of_nat (length todo) ->
    let a' := mkTypedArray k (done ++ map (stored k) xs) in
    feed ts (mk e None false d p70 S (Some (mkTypedArray k (done ++ todo)))
                len ai vals del)
    = Some (mk (closeIf d Expect.Close) None false d p70 S (Some a')
               len len (vals ++ [VArray a']) del).
Proof.
  induction 1 as [v t Hv | v vs t c ts Hv Hc Hvs IH];
    intros xs Exs e d p70 S k done todo len ai vals del He Hlen Hai Hl a'.
  - destruct xs as [|x [|x' xs]]; try discriminate. injection Exs as ->.
    destruct todo as [|z [|z' todo]]; try discriminate.
    cbn [feed]. rewrite (step_element x) by (try assumption; cbn [length] in *; lia).
    cbn [eof_]. subst a'. cbn [map length] in *.
    replace (ai + 1) with len by lia. reflexivity.
  - destruct xs as [|x xs]; try discriminate. injection Exs as -> ->.
    destruct xs as [|x' xs]; [inversion Hvs|].
    destruct todo as [|z [|z' todo]]; try discriminate.
    cbn [feed]. rewrite (step_element x) by (try assumption; cbn [length] in *; lia).
    cbn [eof_].
    rewrite step_comma by (try assumption; apply has_closeIf; reflexivity).
    cbn [eof_].
    specialize (IH (x' :: xs) eq_refl Expect.Value d p70 S k (done ++ [stored k x])
                   (z' :: todo) len (ai + 1) vals del eq_refl).
    rewrite <- !(assoc_L (++)) in IH. cbn [app] in IH.
    rewrite IH.
    + subst a'. cbn [map]. reflexivity.
    + cbn [length] in *. lia.
    + rewrite length_app. cbn [length]. lia.
    + cbn [length] in *. lia.
Qed.

Ltac token tok H :=
  let ty := fresh "ty" in let off := fresh "off" in let val := fresh "val" in
  destruct tok as [ty off val];
  unfold isA, isKey in H; cbn in H;
  lazymatch type of H with
  | _ /\ _ => let H1 := fresh in let H2 := fresh in destruct H as [H1 H2]
  | _ => idtac
  end;
  subst.

(** A round for the count of an array. *)
Lemma step_count (count : N) (tok : Token.t N) d p70 S a al ai vals del :
  isA TokenType.ArrayCount tok -> Token.val tok = vnumber count ->
  let arr := arrayForKey (vals !! 0%nat) (toInt32 count) in
  step tok (mk Expect.ValueOrOpen None false d p70 S a al ai vals del)
  = Ok (Break, mk Expect.Open (Some "a"%string) false d p70 S (Some arr)
                  (Z.of_nat (length (elems arr))) 0 vals del).
Proof.
  intros Hty Hval arr. token tok Hty. cbn in Hval. subst. reflexivity.
Qed.

(** A round for the opening brace of the wrapper of an array. *)
Lemma step_open_array (tok : Token.t N) e nk d p70 S arr al ai vals del :
  isA TokenType.OpenBlock tok ->
  has e Expect.Open = true ->
  (0 < length vals)%nat ->
  step tok (mk e nk false d p70 S (Some arr) al ai vals del)
  = Ok (Break, mk (if nk is None then Z.lor Expect.Key Expect.Close else Expect.Key)
                  nk false (d + 1) p70 S (Some arr) al ai vals del).
Proof.
  intros Hty He Hvals. token tok Hty. unfold step, reportBlock. cbn.
  rewrite He. destruct vals; [cbn in Hvals; lia|]. cbn. destruct nk; reflexivity.
Qed.

(** A round for the key [a]. *)
Lemma step_key_a (tok : Token.t N) e nk d p70 S a al ai vals del :
  isKey "a" tok ->
  has e Expect.Key = true ->
  nk = None \/ nk = Some "a"%string ->
  step tok (mk e nk false d p70 S a al ai vals del)
  = Ok (Break, mk Expect.ValueOrOpen None false d p70 S a al ai vals del).
Proof.
  intros Hk He Hnk. token tok Hk. unfold step. cbn. rewrite He.
  destruct Hnk as [-> | ->]; reflexivity.
Qed.

(** A round for the opening brace of a block that is not the wrapper of an
    array: a Properties70 block is entered without a call; any other
    block is reported, unless the parser is skipping, and the delegate
    decides whether it is skipped. *)
Lemma step_open_block (name : string) (tok : Token.t N) e d p70 S al ai rest del :
  isA TokenType.OpenBlock tok ->
  has e Expect.Open = true ->
  let opened p70' S' del' :=
    mk (Z.lor Expect.Key Expect.Close) None false (d + 1) p70' S' None al ai [] del' in
  step tok (mk e None false d p70 S None al ai (VString name :: rest) del)
  = Ok (Break,
        if String.eqb name "Properties70" then opened true S del
        else if d <=? S then
          let action := answer del (calls del) name rest in
          opened p70 (if action is Skip then d else S)
                 (record (CBlock name rest action) del)
        else opened p70 S del).
Proof.
  intros Hty He opened. token tok Hty. unfold step, reportBlock. cbn.
  rewrite He. cbn.
  destruct (String.eqb name "Properties70"); [reflexivity|].
  destruct (d <=? S); [|reflexivity].
  cbn. rewrite !drop_0. destruct (answer del (calls del) name rest); reflexivity.
Qed.

(** A round for a closing brace: the pending property is reported; the
    end of the wrapper of an array and of a Properties70 block is kept
    from the delegate, the end of any other block is reported unless the
    parser is skipping. *)
Lemma step_close (tok : Token.t N) e d p70 S a al ai vals del (st0 : Parser) :
  isA TokenType.CloseBlock tok ->
  has e Expect.Close = true ->
  flush (mk e None false d p70 S a al ai vals del) = Ok st0 ->
  step tok (mk e None false d p70 S a al ai vals del)
  = Ok (Break,
        mk (closeIf (d - 1) Expect.Key) None false (d - 1)
           (if a is None then false else p70)
           (if d - 1 =? S then 1000 else S) None al ai []
           (match a, p70 with
            | None, false =>
                if d <=? S then record CEndBlock (delegate_ st0) else delegate_ st0
            | _, _ => delegate_ st0
            end)).
Proof.
  intros Hty He Hflush.
  destruct (flush_shape _ _ _ _ _ _ _ _ _ _ _ _ Hflush) as [E _].
  token tok Hty. unfold step. cbn [Token.type expectNextKey_ expect_ andb].
  rewrite He. fold (flush (mk e None false d p70 S a al ai vals del)).
  rewrite Hflush, E. cbn.
  destruct a as [arr|]; [|destruct p70; [|destruct (d <=? S)]];
    cbn; destruct (d - 1 =? S); unfold withClose, closeIf; cbn;
    destruct (0 <? d - 1); reflexivity.
Qed.

Lemma flush_empty e k eof d p70 S a al ai (del : Recorder N) :
  flush (mk e k eof d p70 S a al ai [] del) = Ok (mk e k eof d p70 S a al ai [] del).
Proof. reflexivity. Qed.

(** Reporting a pending property when the parser reports what it reads,
    outside a Properties70 block, and when it skips. *)
Lemma flush_property (live : bool) e k eof d S a al ai name rest (del : Recorder N) :
  modeOK live d S 0 ->
  flush (mk e k eof d false S a al ai (VString name :: rest) del)
  = Ok (mk e k eof d false S a al ai []
           (if live then record (CProperty name rest) del else del)).
Proof.
  intros Hmode. unfold flush, reportProperty. cbn.
  destruct live; cbn in Hmode.
  - destruct Hmode as [-> Hd]. leb_true. cbn. now rewrite drop_0.
  - leb_false. reflexivity.
Qed.

(** The rounds for an array property. *)
Lemma feed_array (k : string) (x : N) (xs : list N) (count : N)
    (tk tn to ta : Token.t N) (ts : list (Token.t N)) (tc : Token.t N) :
  isKey k tk -> k <> "a"%string ->
  isA TokenType.ArrayCount tn -> Token.val tn = vnumber count ->
  toInt32 count = Z.of_nat (Datatypes.S (length xs)) ->
  isA TokenType.OpenBlock to ->
  isKey "a" ta ->
  ValuesTokens (map SNumber (x :: xs)) ts ->
  isA TokenType.CloseBlock tc ->
  forall (live : bool) d S (st st0 : Parser),
    0 <= d -> Ready d S false st -> modeOK live d S 1 -> flush st = Ok st0 ->
    Fed (tk :: tn :: to :: ta :: ts ++ [tc]) st d S false
        (if live then walkItem (ArrayProperty k x xs) (delegate_ st0) else delegate_ st0).
Proof.
  intros Hk Hka Hn Hcount Hlen Ho Ha Hts Hc live d S st st0 Hd HR Hmode Hflush.
  destruct st as [e nk eof d' p70 S' a al ai vals del].
  destruct HR as (HR1 & HR2 & HR3 & HR4 & HR5 & HR6 & HK & HC). cbn in *. subst.
  unfold Fed. cbn [feed]. rewrite (step_key k tk _ _ _ _ _ _ _ _ _ st0) by assumption.
  cbn [eof_]. rewrite (step_count count) by assumption. cbn [eof_].
  rewrite step_open_array by (try assumption; try reflexivity; cbn; lia).
  cbn [eof_]. rewrite step_key_a by (try assumption; auto).
  cbn [eof_]. rewrite feed_app.
  unfold arrayForKey, newArray. rewrite Hlen, Nat2Z.id. cbn [lookup list_lookup elems].
  set (kd := arrayKindForKey (Some (VString k))).
  pose proof (feed_elements _ _ Hts (x :: xs) eq_refl Expect.ValueOrOpen (d + 1) false S kd
                [] (replicate (Datatypes.S (length xs)) zero)
                (Z.of_nat (length (replicate (Datatypes.S (length xs)) (zero (N:=N)))))
                0 [VString k] (delegate_ st0) eq_refl) as E.
  cbn [app] in E. rewrite E; clear E;
    [|now rewrite length_replicate|reflexivity|reflexivity].
  cbn [app feed map].
  assert (Hflush' :
    flush (mk (closeIf (d + 1) Expect.Close) None false (d + 1) false S
              (Some (mkTypedArray kd (stored kd x :: map (stored kd) xs)))
              (Z.of_nat (length (replicate (Datatypes.S (length xs)) (zero (N:=N)))))
              (Z.of_nat (length (replicate (Datatypes.S (length xs)) (zero (N:=N)))))
              [VString k; VArray (mkTypedArray kd (stored kd x :: map (stored kd) xs))]
              (delegate_ st0))
    = Ok (mk (closeIf (d + 1) Expect.Close) None false (d + 1) false S
              (Some (mkTypedArray kd (stored kd x :: map (stored kd) xs)))
              (Z.of_nat (length (replicate (Datatypes.S (length xs)) (zero (N:=N)))))
              (Z.of_nat (length (replicate (Datatypes.S (length xs)) (zero (N:=N)))))
              []
              (if live
               then record (CProperty k [VArray (mkTypedArray kd
                                                   (stored kd x :: map (stored kd) xs))])
                           (delegate_ st0)
               else delegate_ st0))).
  { apply flush_property. destruct live; cbn in *; lia. }
  erewrite (step_close tc); [|assumption|apply closeIf_Close; lia|exact Hflush'].
  cbn [eof_ delegate_].
  replace (d + 1 - 1) with d by lia.
  replace (d =? S) with false
    by (symmetry; apply Z.eqb_neq; destruct live; cbn in Hmode; lia).
  eexists. split; [reflexivity|]. split; [ready; apply closeIf_Key; reflexivity|].
  rewrite flush_empty. eexists. split; [reflexivity|]. cbn [delegate_].
  destruct live; reflexivity.
Qed.

Lemma Fed_app (t ts : list (Token.t N)) (st st1 : Parser) d S p70 del :
  feed t st = Some st1 -> Fed ts st1 d S p70 del -> Fed (t ++ ts) st d S p70 del.
Proof.
  intros Ht (st' & Hts & HR). exists st'. split; [|exact HR].
  now rewrite feed_app, Ht.
Qed.

Lemma Fed_cons (tok : Token.t N) (ts : list (Token.t N)) (st st1 : Parser) d S p70 del :
  step tok st = Ok (Break, st1) -> eof_ st1 = false ->
  Fed ts st1 d S p70 del -> Fed (tok :: ts) st d S p70 del.
Proof.
  intros Ht Heof (st' & Hts & HR). exists st'. split; [|exact HR].
  cbn [feed]. now rewrite Ht, Heof.
Qed.

(** Reporting a pending [P] record inside a Properties70 block. *)
Lemma flush_P (live : bool) e k eof d S a al ai (p : P70 N) (del : Recorder N) :
  modeOK live d S 0 ->
  flush (mk e k eof d true S a al ai (VString "P" :: map scalarValue (p70Scalars p)) del)
  = Ok (mk e k eof d true S a al ai []
           (if live then record (typedCall p) del else del)).
Proof.
  intros Hmode. unfold flush, reportProperty. cbn.
  destruct live; cbn in Hmode.
  - destruct Hmode as [-> Hd]. leb_true. reflexivity.
  - leb_false. reflexivity.
Qed.

(** The rounds for the records of a Properties70 block. *)
Lemma feed_ps (ps : list (P70 N)) (ts : list (Token.t N)) :
  PsTokens ps ts ->
  forall (live : bool) d S (st st0 : Parser),
    Ready d S true st -> modeOK live d S 0 -> flush st = Ok st0 ->
    Fed ts st d S true
        (if live then foldl (fun r p => record (typedCall p) r) (delegate_ st0) ps
         else delegate_ st0).
Proof.
  induction 1 as [|p ps tk tvs ts Hk Hvs _ IH]; intros live d S st st0 HR Hmode Hflush.
  - exists st. split; [reflexivity|]. split; [exact HR|].
    exists st0. split; [exact Hflush|]. now destruct live.
  - destruct st as [e nk eof d' p70 S' a al ai vals del].
    destruct HR as (HR1 & HR2 & HR3 & HR4 & HR5 & HR6 & HK & HC). cbn in *. subst.
    eapply Fed_cons;
      [apply (step_key "P" tk); [exact Hk|discriminate|exact HK|exact Hflush]
      |reflexivity|].
    eapply Fed_app; [apply (feed_values _ _ Hvs); reflexivity|].
    cbn [app].
    match goal with
    | |- Fed _ ?V _ _ _ _ =>
        assert (HRV : Ready d S true V) by ready;
        pose proof (IH live d S V _ HRV Hmode (flush_P live _ _ _ _ _ _ _ _ p _ Hmode))
          as IH'
    end.
    cbn [delegate_] in IH'. destruct live; exact IH'.
Qed.

(** The rounds for a Properties70 block. *)
Lemma feed_props70 (ps : list (P70 N)) (tk to : Token.t N) (tps : list (Token.t N))
    (tc : Token.t N) :
  isKey "Properties70" tk ->
  isA TokenType.OpenBlock to ->
  PsTokens ps tps ->
  isA TokenType.CloseBlock tc ->
  forall (live : bool) d S (st st0 : Parser),
    0 <= d -> Ready d S false st -> modeOK live d S 1 -> flush st = Ok st0 ->
    Fed (tk :: to :: tps ++ [tc]) st d S false
        (if live then walkItem (Properties70 ps) (delegate_ st0) else delegate_ st0).
Proof.
  intros Hk Ho Hps Hc live d S st st0 Hd HR Hmode Hflush.
  destruct st as [e nk eof d' p70 S' a al ai vals del].
  destruct HR as (HR1 & HR2 & HR3 & HR4 & HR5 & HR6 & HK & HC). cbn in *. subst.
  eapply Fed_cons;
    [apply (step_key "Properties70" tk); [exact Hk|discriminate|exact HK|exact Hflush]
    |reflexivity|].
  eapply Fed_cons; [apply (step_open_block "Properties70"); [assumption|reflexivity]
                   |reflexivity|].
  cbn [String.eqb Ascii.eqb Bool.eqb].
  assert (Hmode' : modeOK live (d + 1) S 0) by (destruct live; cbn in *; lia).
  match goal with
  | |- Fed _ ?V _ _ _ _ =>
      assert (HRV : Ready (d + 1) S true V) by ready;
      destruct (feed_ps _ _ Hps live (d + 1) S V _ HRV Hmode'
                  (flush_empty _ _ _ _ _ _ _ _ _ _))
        as (st' & Hfeed & HR' & st0' & Hflush' & Hdel)
  end.
  eapply Fed_app; [exact Hfeed|].
  destruct st' as [e' nk' eof' d' p70' S' a' al' ai' vals' del'].
  destruct HR' as (HR1 & HR2 & HR3 & HR4 & HR5 & HR6 & HK' & HC'). cbn in *. subst.
  eapply Fed_cons; [eapply (step_close tc); [assumption|apply HC'; lia|exact Hflush']
                   |reflexivity|].
  replace (d + 1 - 1) with d by lia.
  replace (d =? S) with false
    by (symmetry; apply Z.eqb_neq; destruct live; cbn in Hmode; lia).
  exists (mk (closeIf d Expect.Key) None false d false S None al' ai' []
             (delegate_ st0')).
  split; [reflexivity|]. split; [ready; apply closeIf_Key; reflexivity|].
  eexists. split; [reflexivity|]. exact Hdel.
Qed.

Lemma heights_nonneg (items : list (Item N)) : 0 <= heights items.
Proof. unfold heights. induction items as [|i items IH]; cbn [foldr]; lia. Qed.

(** The rounds for a block, given those for its body. *)
Lemma feed_block (k : string) (vs : list (Scalar N)) (body : list (Item N))
    (tk : Token.t N) (tvs : list (Token.t N)) (to : Token.t N)
    (tbody : list (Token.t N)) (tc : Token.t N) :
  isKey k tk -> k <> "a"%string -> k <> "Properties70"%string ->
  (vs = [] /\ tvs = [] \/ ValuesTokens vs tvs) ->
  isA TokenType.OpenBlock to ->
  ItemsFed body tbody ->
  isA TokenType.CloseBlock tc ->
  ItemFed (Block k vs body) (tk :: tvs ++ to :: tbody ++ [tc]).
Proof.
  intros Hk Hka Hkp Hvs Ho IH Hc live d S st st0 Hd HR Hmode Hflush.
  destruct st as [e nk eof d' p70 S' a al ai vals del].
  destruct HR as (HR1 & HR2 & HR3 & HR4 & HR5 & HR6 & HK & HC). cbn in HR1, HR2, HR3, HR4, HR5, HR6, HK, HC. subst.
  pose proof (heights_nonneg body) as Hhb.
  change (height (Block k vs body)) with (1 + heights body) in Hmode.
  eapply Fed_cons;
    [apply (step_key k tk); [exact Hk|exact Hka|exact HK|exact Hflush]|reflexivity|].
  (* the values of the head and the opening brace *)
  assert (Hhead : exists eV,
             feed tvs (mk Expect.ValueOrOpen None false d false S None al ai
                          [VString k] (delegate_ st0))
             = Some (mk eV None false d false S None al ai
                        (VString k :: map scalarValue vs) (delegate_ st0))
             /\ has eV Expect.Open = true).
  { destruct Hvs as [[-> ->] | Hvs].
    - exists Expect.ValueOrOpen. split; reflexivity.
    - eexists. split; [apply (feed_values _ _ Hvs); reflexivity|].
      apply has_closeIf. reflexivity. }
  destruct Hhead as (eV & Hhead & HeV).
  eapply Fed_app; [exact Hhead|].
  pose proof (step_open_block k to eV d false S al ai (map scalarValue vs)
                (delegate_ st0) Ho HeV) as Hopen.
  cbv zeta in Hopen.
  replace (String.eqb k "Properties70") with false in Hopen
    by (symmetry; apply String.eqb_neq; assumption).
  set (values := map scalarValue vs) in *.
  set (del0 := delegate_ st0) in *.
  (* the body and the closing brace, in the three cases *)
  destruct live; cbn [walkItem modeOK] in *; fold values del0.
  - destruct Hmode as [-> Hh].
    replace (d <=? 1000) with true in Hopen by (symmetry; apply Z.leb_le; lia).
    destruct (answer del0 (calls del0) k values) eqn:Eanswer.
    + (* entered *)
      eapply Fed_cons; [exact Hopen|reflexivity|].
      match goal with
      | |- Fed _ ?V _ _ _ _ =>
          assert (HRV : Ready (d + 1) 1000 false V) by ready;
          destruct (IH true (d + 1) 1000 V _ ltac:(lia) HRV
                      ltac:(cbn; lia) (flush_empty _ _ _ _ _ _ _ _ _ _))
            as (st' & Hfeed & HR' & st0' & Hflush' & Hdel)
      end.
      eapply Fed_app; [exact Hfeed|].
      destruct st' as [e' nk' eof' d' p70' S' a' al' ai' vals' del'].
      destruct HR' as (HR1 & HR2 & HR3 & HR4 & HR5 & HR6 & HK' & HC').
      cbn in HR1, HR2, HR3, HR4, HR5, HR6, HK', HC'. subst.
      eapply Fed_cons; [eapply (step_close tc); [assumption|apply HC'; lia|exact Hflush']
                       |reflexivity|].
      replace (d + 1 - 1) with d by lia. leb_true. eqb_false.
      eexists. split; [reflexivity|]. split; [ready; apply closeIf_Key; reflexivity|].
      eexists. split; [reflexivity|]. cbn [delegate_] in *. now rewrite Hdel.
    + (* skipped *)
      eapply Fed_cons; [exact Hopen|reflexivity|].
      match goal with
      | |- Fed _ ?V _ _ _ _ =>
          assert (HRV : Ready (d + 1) d false V) by ready;
          destruct (IH false (d + 1) d V _ ltac:(lia) HRV
                      ltac:(cbn; lia) (flush_empty _ _ _ _ _ _ _ _ _ _))
            as (st' & Hfeed & HR' & st0' & Hflush' & Hdel)
      end.
      eapply Fed_app; [exact Hfeed|].
      destruct st' as [e' nk' eof' d' p70' S' a' al' ai' vals' del'].
      destruct HR' as (HR1 & HR2 & HR3 & HR4 & HR5 & HR6 & HK' & HC').
      cbn in HR1, HR2, HR3, HR4, HR5, HR6, HK', HC'. subst.
      eapply Fed_cons; [eapply (step_close tc); [assumption|apply HC'; lia|exact Hflush']
                       |reflexivity|].
      replace (d + 1 - 1) with d by lia. leb_false. rewrite Z.eqb_refl.
      eexists. split; [reflexivity|]. split; [ready; apply closeIf_Key; reflexivity|].
      eexists. split; [reflexivity|]. cbn [delegate_] in *. exact Hdel.
  - replace (d <=? S) with false in Hopen by (symmetry; apply Z.leb_gt; lia).
    eapply Fed_cons; [exact Hopen|reflexivity|].
    match goal with
    | |- Fed _ ?V _ _ _ _ =>
        assert (HRV : Ready (d + 1) S false V) by ready;
        destruct (IH false (d + 1) S V _ ltac:(lia) HRV
                    ltac:(cbn; lia) (flush_empty _ _ _ _ _ _ _ _ _ _))
          as (st' & Hfeed & HR' & st0' & Hflush' & Hdel)
    end.
    eapply Fed_app; [exact Hfeed|].
    destruct st' as [e' nk' eof' d' p70' S' a' al' ai' vals' del'].
    destruct HR' as (HR1 & HR2 & HR3 & HR4 & HR5 & HR6 & HK' & HC').
    cbn in HR1, HR2, HR3, HR4, HR5, HR6, HK', HC'. subst.
    eapply Fed_cons; [eapply (step_close tc); [assumption|apply HC'; lia|exact Hflush']
                     |reflexivity|].
    replace (d + 1 - 1) with d by lia. leb_false. eqb_false.
    eexists. split; [reflexivity|]. split; [ready; apply closeIf_Key; reflexivity|].
    eexists. split; [reflexivity|]. cbn [delegate_] in *. exact Hdel.
Qed.

(** The parser follows the tree of a well-formed document: after the
    rounds for its tokens it is again between two items, at the depth and
    in the mode it started in, and the delegate has received the calls of
    the walk through the document, or none where the parser skips. *)
Lemma feed_items (items : list (Item N)) (toks : list (Token.t N)) :
  ItemsTokens items toks -> ItemsFed items toks.
Proof.
  revert items toks.
  apply (ItemsTokens_mut ItemFed ItemsFed).
  - intros k v vs tk ts Hk Hka Hts live d S st st0. apply feed_property; assumption.
  - intros k x xs count tk tn to ta ts tc Hk Hka Hn Hcount Hlen Ho Ha Hts Hc
      live d S st st0.
    apply (feed_array k x xs count); assumption.
  - intros k vs body tk tvs to tbody tc Hk Hka Hkp Hvs Ho _ IH Hc.
    apply feed_block; assumption.
  - intros ps tk to tps tc Hk Ho Hps Hc live d S st st0.
    apply feed_props70; assumption.
  - intros live d S st st0 Hd HR Hmode Hflush.
    exists st. split; [reflexivity|]. split; [exact HR|].
    exists st0. split; [exact Hflush|]. now destruct live.
  - intros it items t ts _ IHit _ IHitems live d S st st0 Hd HR Hmode Hflush.
    pose proof (heights_nonneg items) as Hhs.
    assert (Hmode1 : modeOK live d S (height it))
      by (destruct live; cbn [modeOK heights foldr] in *; lia).
    assert (Hmode2 : modeOK live d S (heights items))
      by (destruct live; cbn [modeOK heights foldr] in *; fold (heights items) in *; lia).
    destruct (IHit live d S st st0 Hd HR Hmode1 Hflush)
      as (st1 & Hfeed1 & HR1 & st01 & Hflush1 & Hdel1).
    eapply Fed_app; [exact Hfeed1|].
    specialize (IHitems live d S st1 st01 Hd HR1 Hmode2 Hflush1).
    rewrite Hdel1 in IHitems. destruct live; exact IHitems.
Qed.

Lemma feed_item (it : Item N) (toks : list (Token.t N)) :
  ItemTokens it toks -> ItemFed it toks.
Proof.
  destruct 1 as [k v vs tk ts Hk Hka Hts
                |k x xs count tk tn to ta ts tc Hk Hka Hn Hcount Hlen Ho Ha Hts Hc
                |k vs body tk tvs to tbody tc Hk Hka Hkp Hvs Ho Hbody Hc
                |ps tk to tps tc Hk Ho Hps Hc].
  - intros live d S st st0. apply feed_property; assumption.
  - intros live d S st st0. apply (feed_array k x xs count); assumption.
  - apply feed_block; try assumption. now apply feed_items.
  - intros live d S st st0. apply feed_props70; assumption.
Qed.

Lemma run_feed (eofOffset : Z) (toks rest : list (Token.t N)) (st st' : Parser) :
  feed toks st = Some st' -> run eofOffset (toks ++ rest) st = run eofOffset rest st'.
Proof.
  revert st. induction toks as [|tok toks IH]; intros st; cbn [feed app run].
  - now intros [= ->].
  - destruct (step tok st) as [[[] st1]|]; try discriminate.
    cbn. destruct (eof_ st1); [discriminate|]. apply IH.
Qed.

Lemma count_snoc (p : Call N -> bool) (cs : list (Call N)) (c : Call N) :
  count p (cs ++ [c]) = (count p cs + if p c then 1 else 0)%nat.
Proof.
  unfold count. rewrite List.filter_app, length_app. cbn.
  now destruct (p c).
Qed.

(** Reporting the pending property makes no [block] and no [endBlock]
    call. *)
Lemma flush_count (p : Call N -> bool) (st st0 : Parser) :
  (forall c, p c = true -> isBlockCall c = true) ->
  flush st = Ok st0 ->
  count p (calls (delegate_ st0)) = count p (calls (delegate_ st)).
Proof.
  intros Hp. destruct st as [e k eof d p70 S a al ai vals del].
  unfold flush, reportProperty. destruct vals as [|v vals]; cbn.
  - now intros [= <-].
  - assert (Hq : forall c, isBlockCall c = false -> p c = false).
    { intros c Hc. destruct (p c) eqn:E; [|reflexivity]. apply Hp in E. congruence. }
    destruct (d <=? S); [destruct p70|]; cbn.
    + destruct v as [| s | |]; cbn; try discriminate.
      destruct (String.eqb s "P"); cbn; [|discriminate].
      destruct (interpretProp70P _) as [q|]; cbn; [|discriminate].
      intros [= <-]. cbn [delegate_ set_delegate set_values calls record].
      rewrite count_snoc, Hq by reflexivity. lia.
    + destruct v as [| s | |]; cbn; try discriminate.
      intros [= <-]. cbn [delegate_ set_delegate set_values calls record].
      rewrite count_snoc, Hq by reflexivity. lia.
    + now intros [= <-].
Qed.

Lemma pairs_fix (structural : bool) (body : list (Item N)) (r : Recorder N) :
  (fix go (l : list (Item N)) (r : Recorder N) : nat :=
     match l with
     | [] => 0%nat
     | i :: l' => (pairsItem structural i r + go l' (walkItem i r))%nat
     end) body r
  = pairs structural body r.
Proof.
  revert r. induction body as [|i body IH]; intros r; [reflexivity|].
  cbn [pairs]. now rewrite <- IH.
Qed.

Lemma foldl_typed_count (p : Call N -> bool) (ps : list (P70 N)) (r : Recorder N) :
  (forall c, p c = true -> isBlockCall c = true) ->
  count p (calls (foldl (fun r q => record (typedCall q) r) r ps)) = count p (calls r).
Proof.
  intros Hp. revert r. induction ps as [|q ps IH]; intros r; [reflexivity|].
  cbn [foldl]. rewrite IH. cbn [record calls]. rewrite count_snoc.
  destruct (p (typedCall q)) eqn:E; [|lia]. apply Hp in E. discriminate.
Qed.

(** The walk through a document makes one [endBlock] call, and one [block]
    call that is answered Enter, for each block it does not skip. *)
Lemma walk_count (items : list (Item N)) (toks : list (Token.t N)) :
  ItemsTokens items toks ->
  forall r : Recorder N,
    count isEndBlock (calls (walk items r))
    = (count isEndBlock (calls r) + pairs false items r)%nat
    /\ count isEntered (calls (walk items r))
       = (count isEntered (calls r) + pairs false items r)%nat.
Proof.
  revert items toks.
  apply (ItemsTokens_mut
           (fun it _ => forall r : Recorder N,
              count isEndBlock (calls (walkItem it r))
              = (count isEndBlock (calls r) + pairsItem false it r)%nat
              /\ count isEntered (calls (walkItem it r))
                 = (count isEntered (calls r) + pairsItem false it r)%nat)
           (fun items _ => forall r : Recorder N,
              count isEndBlock (calls (walk items r))
              = (count isEndBlock (calls r) + pairs false items r)%nat
              /\ count isEntered (calls (walk items r))
                 = (count isEntered (calls r) + pairs false items r)%nat)).
  - intros k v vs tk ts _ _ _ r. cbn [walkItem pairsItem record calls].
    rewrite !count_snoc. cbn. lia.
  - intros k x xs cnt tk tn to ta ts tc _ _ _ _ _ _ _ _ _ r.
    cbn [walkItem pairsItem record calls]. rewrite !count_snoc. cbn. lia.
  - intros k vs body tk tvs to tbody tc _ _ _ _ _ _ IH _ r.
    cbn [walkItem pairsItem]. rewrite pairs_fix.
    destruct (answer r (calls r) k (map scalarValue vs)).
    + fold (walk body (record (CBlock k (map scalarValue vs) Enter) r)).
      cbn [record calls]. rewrite !count_snoc.
      destruct (IH (record (CBlock k (map scalarValue vs) Enter) r)) as [-> ->].
      cbn [record calls]. rewrite !count_snoc. cbn. lia.
    + cbn [record calls]. rewrite !count_snoc. cbn. lia.
  - intros ps tk to tps tc _ _ _ _ r. cbn [walkItem pairsItem].
    rewrite !foldl_typed_count; [lia| |]; intros [] E; try discriminate; try reflexivity;
      destruct action; try discriminate; reflexivity.
  - intros r. cbn. lia.
  - intros it items t ts _ IHit _ IHitems r. cbn [walk foldl pairs].
    fold (walk items (walkItem it r)).
    destruct (IHitems (walkItem it r)) as [-> ->]. destruct (IHit r) as [-> ->]. lia.
Qed.

(** The run of [parse] over a well-formed document whose braces are at
    most 1000 deep: the parse ends at the end of the input, at depth 0, and
    the calls it has made, with the property that is still pending, are
    those of the walk through the document. *)
Lemma run_document (doc : list (Item N)) (toks : list (Token.t N)) (r0 : Recorder N)
    (eofOffset : Z) :
  ItemsTokens doc toks -> heights doc <= 1000 ->
  exists st st0 : Parser,
    run eofOffset toks (new r0) = Ok st
    /\ eof_ st = true /\ depth_ st = 0
    /\ flush st = Ok st0 /\ delegate_ st0 = walk doc r0.
Proof.
  intros Hdoc Hh.
  assert (HR : Ready 0 1000 false (new r0)) by (ready; lia).
  destruct (feed_items _ _ Hdoc true 0 1000 (new r0) (new r0) ltac:(lia) HR
              ltac:(cbn; lia) eq_refl)
    as (st' & Hfeed & HR' & st0' & Hflush' & Hdel).
  destruct st' as [e' nk' eof' d' p70' S' a' al' ai' vals' del'].
  destruct HR' as (HR1 & HR2 & HR3 & HR4 & HR5 & HR6 & HK' & HC').
  cbn in HR1, HR2, HR3, HR4, HR5, HR6, HK', HC'. subst.
  destruct (flush_shape _ _ _ _ _ _ _ _ _ _ _ _ Hflush') as [E _].
  exists (mk e' None true 0 false 1000 None al' ai' vals' del'),
    (mk e' None true 0 false 1000 None al' ai' [] (delegate_ st0')).
  split; [|split; [reflexivity|split; [reflexivity|split]]].
  - rewrite <- (app_nil_r toks), (run_feed _ _ _ _ _ Hfeed). reflexivity.
  - revert Hflush'. unfold flush, reportProperty. cbn.
    destruct vals' as [|v vals']; cbn; [now intros [= <-]|].
    destruct v as [| s | |]; cbn; try discriminate.
    intros [= <-]. reflexivity.
  - exact Hdel.
Qed.

Lemma foldl_typed (ps : list (P70 N)) (r : Recorder N) :
  foldl (fun r q => record (typedCall q) r) r ps
  = mkRecorder (answer r) (calls r ++ map typedCall ps).
Proof.
  revert r. induction ps as [|q ps IH]; intros r; cbn [foldl map].
  - rewrite app_nil_r. now destruct r.
  - rewrite IH. cbn [record answer calls]. now rewrite <- (assoc_L (++)).
Qed.

Lemma arrayKind_table (key : string) :
  arrayKindForKey (N:=N) (Some (VString key))
  = default Float64Array (tableLookup arrayKeyTable key).
Proof.
  unfold arrayKindForKey, keyIs, arrayKeyTable, tableLookup.
  repeat match goal with
         | |- context [String.eqb ?s key] => rewrite (String.eqb_sym s key)
         end.
  repeat match goal with
         | |- context [String.eqb key ?s] => destruct (String.eqb key s); try reflexivity
         end.
Qed.

(** C5, as amended.  For every well-formed document whose braces are at
    most 1000 deep and every delegate, the parse reaches the end of the
    input with the depth back at 0; the number of [endBlock] calls it has
    made, and the number of [block] calls that were answered Enter, is the
    number of OpenBlock/CloseBlock pairs of the document that are not
    skipped and are neither those of a Properties70 block nor those of the
    wrapper of an array. *)
Theorem parse_depth_balanced (doc : list (Item N)) (toks : list (Token.t N))
    (r0 : Recorder N) (eofOffset : Z)
    (Hdoc : ItemsTokens doc toks) (Hdepth : heights doc <= 1000) :
  exists st : Parser,
    run eofOffset toks (new r0) = Ok st
    /\ eof_ st = true
    /\ depth_ st = 0
    /\ count isEndBlock (calls (delegate_ st))
       = (count isEndBlock (calls r0) + pairs false doc r0)%nat
    /\ count isEntered (calls (delegate_ st))
       = (count isEntered (calls r0) + pairs false doc r0)%nat.
Proof.
  destruct (run_document doc toks r0 eofOffset Hdoc Hdepth)
    as (st & st0 & Hrun & Heof & Hd & Hflush & Hdel).
  destruct (walk_count doc toks Hdoc r0) as [Hend Hent].
  exists st. repeat split; try assumption.
  - rewrite <- (flush_count isEndBlock st st0), Hdel; [exact Hend| |exact Hflush].
    now intros [].
  - rewrite <- (flush_count isEntered st st0), Hdel; [exact Hent| |exact Hflush].
    intros [] E; try discriminate; reflexivity.
Qed.

(** C6.  The opening brace of a Properties70 block or of the wrapper of an
    array makes no [block] call, and a closing brace that is read while
    the Properties70 flag or the array is set makes no [endBlock] call, in
    whatever state the parser is.  Where the parser reports what it reads,
    the rounds for a Properties70 block that holds only [P] records make
    exactly one [typedProperty] call for each record, in order, whose
    values are those of the record from index 4 on and whose type is what
    [fbxTypeNameMapping] has for the type name in lower case, and the
    rounds for an array property make exactly one [property] call: no
    [block] and no [endBlock] call is made for either. *)
Theorem properties70_and_array_opaque :
  (forall (tok : Token.t N) (st st' : Parser) (fl : Flow),
      isA TokenType.OpenBlock tok ->
      array_ st <> None \/ values_ st !! 0%nat = Some (VString "Properties70") ->
      step tok st = Ok (fl, st') ->
      count isBlockCall (calls (delegate_ st')) = count isBlockCall (calls (delegate_ st)))
  /\ (forall (tok : Token.t N) (st st' : Parser) (fl : Flow),
         isA TokenType.CloseBlock tok ->
         array_ st <> None \/ inProp70Block_ st = true ->
         step tok st = Ok (fl, st') ->
         count isBlockCall (calls (delegate_ st')) = count isBlockCall (calls (delegate_ st)))
  /\ (forall (ps : list (P70 N)) (toks : list (Token.t N)) d (st st0 : Parser),
         ItemTokens (Properties70 ps) toks ->
         0 <= d -> d + 1 <= 1000 -> Ready d 1000 false st -> flush st = Ok st0 ->
         Fed toks st d 1000 false
             (mkRecorder (answer (delegate_ st0))
                (calls (delegate_ st0)
                 ++ map (fun p => CTypedProperty (p_name p)
                                    (propertyTypeFor (p_typeName p))
                                    (p_typeName p)
                                    (drop 4 (map scalarValue (p70Scalars p)))) ps)))
  /\ (forall (key : string) (x : N) (xs : list N) (toks : list (Token.t N)) d
             (st st0 : Parser),
         ItemTokens (ArrayProperty key x xs) toks ->
         0 <= d -> d + 1 <= 1000 -> Ready d 1000 false st -> flush st = Ok st0 ->
         Fed toks st d 1000 false
             (mkRecorder (answer (delegate_ st0))
                (calls (delegate_ st0) ++ [CProperty key [VArray (arrayOf key (x :: xs))]]))).
Proof.
  split; [|split; [|split]].
  - intros tok st st' fl Hty Hcase. token tok Hty.
    destruct st as [e nk eof d p70 S a al ai vals del].
    unfold step, reportBlock, unexpected. cbn. cbn in Hcase.
    destruct (has e Expect.Open); cbn.
    + destruct vals as [|v vals]; cbn; [discriminate|]. cbn in Hcase.
      destruct a as [arr|]; cbn.
      * destruct nk; intros [= <- <-]; reflexivity.
      * destruct Hcase as [Hcase|[= ->]]; [congruence|]. cbn.
        destruct nk; intros [= <- <-]; reflexivity.
    + destruct val; cbn; try discriminate; intros [= <- <-];
        cbn [delegate_ set_delegate set_eof record calls]; rewrite count_snoc; cbn; lia.
  - intros tok st st' fl Hty Hcase. token tok Hty.
    destruct st as [e nk eof d p70 S a al ai vals del]. cbn in Hcase.
    unfold step. cbn [Token.type expectNextKey_ expect_].
    destruct (match nk with None => true | Some _ => false end && has e Expect.Close) eqn:Ec.
    + fold (flush (mk e nk eof d p70 S a al ai vals del)).
      destruct (flush (mk e nk eof d p70 S a al ai vals del)) as [st1|] eqn:Hflush;
        cbn; [|discriminate].
      pose proof (flush_count isBlockCall _ _ (fun c E => E) Hflush) as Hc.
      destruct (flush_shape _ _ _ _ _ _ _ _ _ _ _ _ Hflush) as [E _].
      rewrite E. cbn. cbn in Hcase, Hc.
      destruct a as [arr|]; cbn.
      * intros [= <- <-]. unfold withClose. cbn.
        repeat match goal with |- context [if ?b then _ else _] => destruct b end;
          cbn; exact Hc.
      * destruct Hcase as [Hcase|[= ->]]; [congruence|]. cbn.
        intros [= <- <-]. unfold withClose. cbn.
        repeat match goal with |- context [if ?b then _ else _] => destruct b end;
          cbn; exact Hc.
    + unfold unexpected. cbn.
      destruct val; cbn; try discriminate; intros [= <- <-];
        cbn [delegate_ set_delegate set_eof record calls]; rewrite count_snoc; cbn; lia.
  - intros ps toks d st st0 Hit Hd Hd1 HR Hflush.
    pose proof (feed_item _ _ Hit true d 1000 st st0 Hd HR ltac:(cbn; lia) Hflush) as HF.
    cbn [walkItem] in HF. rewrite foldl_typed in HF. exact HF.
  - intros key x xs toks d st st0 Hit Hd Hd1 HR Hflush.
    exact (feed_item _ _ Hit true d 1000 st st0 Hd HR ltac:(cbn; lia) Hflush).
Qed.

(** C7.  The array type that [arrayForKey] picks is the one the fixed table
    gives for the field name, and a 64-bit float array for every name
    that is not in the table: a 64-bit float array for Vertices, a 32-bit
    signed integer array for PolygonVertexIndex.  The round for an
    ArrayCount token makes the array of that type for the field name that
    is pending, and for a well-formed array property the array that is
    passed to the delegate has that type, whatever numbers the element
    tokens carry. *)
Theorem array_type_by_field_name :
  (forall key : string,
      arrayKindForKey (N:=N) (Some (VString key))
      = default Float64Array (tableLookup arrayKeyTable key))
  /\ arrayKindForKey (N:=N) (Some (VString "Vertices")) = Float64Array
  /\ arrayKindForKey (N:=N) (Some (VString "PolygonVertexIndex")) = Int32Array
  /\ (forall key : string,
         tableLookup arrayKeyTable key = None ->
         arrayKindForKey (N:=N) (Some (VString key)) = Float64Array)
  /\ (forall (tok : Token.t N) (count : N) d p70 S a al ai key rest (del : Recorder N),
         isA TokenType.ArrayCount tok -> Token.val tok = vnumber count ->
         exists st' : Parser,
           step tok (mk Expect.ValueOrOpen None false d p70 S a al ai
                        (VString key :: rest) del) = Ok (Break, st')
           /\ array_ st'
              = Some (mkTypedArray (default Float64Array (tableLookup arrayKeyTable key))
                        (replicate (Z.to_nat (toInt32 count)) zero)))
  /\ (forall (key : string) (x : N) (xs : list N) (toks : list (Token.t N)) d
             (st st0 : Parser),
         ItemTokens (ArrayProperty key x xs) toks ->
         0 <= d -> d + 1 <= 1000 -> Ready d 1000 false st -> flush st = Ok st0 ->
         let k := default Float64Array (tableLookup arrayKeyTable key) in
         Fed toks st d 1000 false
             (record (CProperty key [VArray (mkTypedArray k (map (stored k) (x :: xs)))])
                     (delegate_ st0))).
Proof.
  split; [exact arrayKind_table|].
  split; [reflexivity|]. split; [reflexivity|].
  split; [intros key Hkey; now rewrite arrayKind_table, Hkey|].
  split.
  - intros tok count d p70 S a al ai key rest del Hty Hval.
    eexists. split; [apply (step_count count); assumption|].
    cbn [array_ lookup list_lookup]. unfold arrayForKey, newArray.
    now rewrite arrayKind_table.
  - intros key x xs toks d st st0 Hit Hd Hd1 HR Hflush k.
    pose proof (feed_item _ _ Hit true d 1000 st st0 Hd HR ltac:(cbn; lia) Hflush) as HF.
    cbn [walkItem] in HF. unfold arrayOf in HF. rewrite arrayKind_table in HF. exact HF.
Qed.
End ParserFacts.

(** ** The parser on concrete documents *)

(** A single item is a document. *)
Lemma items_one {N : Type} `{JSNumber N} (it : Item N) (t : list (Token.t N)) :
  ItemTokens it t -> ItemsTokens [it] t.
Proof.
  intros Hit. rewrite <- (app_nil_r t). exact (ITs_cons _ _ _ _ Hit ITs_nil).
Qed.

(** The document [Objects: { Version: 7 }] and its tokens. *)
Lemma objects_document_tokens :
  ItemsTokens (N:=Z)
    [Block "Objects" [] [Property "Version" (SNumber 7) []]]
    [keyToken "Objects"; openToken; keyToken "Version";
     Token.mk TokenType.Number 0 (vnumber 7); closeToken].
Proof.
  apply items_one.
  refine (IT_Block "Objects" [] _ (keyToken "Objects") [] openToken
            [keyToken "Version"; Token.mk TokenType.Number 0 (vnumber 7)] closeToken
            _ _ _ _ _ _ _).
  - split; reflexivity.
  - discriminate.
  - discriminate.
  - left. split; reflexivity.
  - reflexivity.
  - apply items_one.
    refine (IT_Property "Version" (SNumber 7) [] (keyToken "Version")
              [Token.mk TokenType.Number 0 (vnumber 7)] _ _ _).
    + split; reflexivity.
    + discriminate.
    + apply VT_last. split; reflexivity.
  - reflexivity.
Qed.

(** The theorem [parse_depth_balanced] on the document
    [Objects: { Version: 7 }]. *)
Lemma parse_depth_balanced_witness :
  exists st : FBXTextParser.t Z (Recorder Z),
    FBXTextParser.run 0
      [keyToken "Objects"; openToken; keyToken "Version";
       Token.mk TokenType.Number 0 (vnumber 7); closeToken]
      (FBXTextParser.new entersAll) = Ok st
    /\ FBXTextParser.depth_ st = 0
    /\ count isEndBlock (calls (FBXTextParser.delegate_ st)) = 1%nat
    /\ count isEntered (calls (FBXTextParser.delegate_ st)) = 1%nat.
Proof.
  destruct (parse_depth_balanced (N:=Z) _ _ entersAll 0 objects_document_tokens)
    as (st & Hrun & _ & Hd & Hend & Hent).
  - vm_compute. discriminate.
  - exists st. split; [exact Hrun|]. split; [exact Hd|]. split; [exact Hend|exact Hent].
Defined.

(** C5 as it was claimed fails: the document [Properties70: { }] has one
    pair of an OpenBlock and a CloseBlock token, which is not skipped, and
    the delegate receives no [block] and no [endBlock] call for it. *)
Lemma parse_structural_pair_not_reported :
  let doc := [Properties70 (N:=Z) []] in
  let toks := [keyToken "Properties70"; openToken; closeToken] in
  ItemsTokens doc toks
  /\ pairs true doc entersAll = 1%nat
  /\ exists st : FBXTextParser.t Z (Recorder Z),
       FBXTextParser.run 0 toks (FBXTextParser.new entersAll) = Ok st
       /\ count isEndBlock (calls (FBXTextParser.delegate_ st))
          <> pairs true doc entersAll
       /\ count isEntered (calls (FBXTextParser.delegate_ st))
          <> pairs true doc entersAll.
Proof.
  split; [|split; [reflexivity|]].
  - apply items_one.
    refine (IT_Properties70 [] (keyToken "Properties70") openToken [] closeToken
              _ _ PT_nil _).
    + split; reflexivity.
    + reflexivity.
    + reflexivity.
  - eexists. split; [vm_compute; reflexivity|]. split; vm_compute; discriminate.
Qed.

(** Blocks nested one inside the other are a document. *)
Lemma nested_tokens (n : nat) : ItemsTokens (N:=Z) (nested n) (nestedTokens n).
Proof.
  induction n as [|n IH]; [constructor|].
  cbn [nested nestedTokens]. apply items_one.
  refine (IT_Block "B" [] _ (keyToken "B") [] openToken (nestedTokens n) closeToken
            _ _ _ _ _ IH _).
  - split; reflexivity.
  - discriminate.
  - discriminate.
  - left. split; reflexivity.
  - reflexivity.
  - reflexivity.
Qed.

(** Beyond 1000 nested blocks the calls are no longer balanced: of 1001
    blocks, one inside the other, all are reported and entered, and the end
    of the innermost one is not reported. *)
Lemma deep_nesting_unbalanced :
  match FBXTextParser.run 0 (nestedTokens 1001)
          (FBXTextParser.new (entersAll (N:=Z))) with
  | Ok st =>
      count isEntered (calls (FBXTextParser.delegate_ st)) = 1001%nat
      /\ count isEndBlock (calls (FBXTextParser.delegate_ st)) = 1000%nat
  | Throw _ => False
  end.
Proof.
  vm_compute. split; reflexivity.
Qed.


(** The parser as it is made is between two items, at depth 0. *)
Lemma new_Ready (r : Recorder Z) :
  Ready 0 1000 false (FBXTextParser.new (N:=Z) r).
Proof.
  repeat split. cbn. lia.
Qed.

(** The theorem [properties70_and_array_opaque] on a Properties70 block of
    one record: one [typedProperty] call and nothing else. *)
Lemma properties70_and_array_opaque_witness :
  Fed translationTokens (FBXTextParser.new entersAll) 0 1000 false
      (mkRecorder (fun _ _ _ => Enter)
         [CTypedProperty "Lcl Translation" (Own Vector3D) "Lcl Translation"
            [VNumber 1; VNumber 2; VNumber 3]]).
Proof.
  refine (proj1 (proj2 (proj2 (properties70_and_array_opaque (N:=Z))))
            [mkP70 "Lcl Translation" "Lcl Translation" (SString "A") (SString "A+")
               [SNumber 1; SNumber 2; SNumber 3]]
            translationTokens 0 (FBXTextParser.new entersAll) (FBXTextParser.new entersAll)
            _ _ _ (new_Ready _) eq_refl); [|lia|lia].
  refine (IT_Properties70 _ (keyToken "Properties70") openToken
            (keyToken "P" :: translationValues) closeToken _ _ _ _).
  - split; reflexivity.
  - reflexivity.
  - refine (PT_cons _ [] (keyToken "P") translationValues [] _ _ PT_nil).
    + split; reflexivity.
    + repeat (first [ apply VT_last; split; reflexivity
                    | apply VT_more; [split; reflexivity | reflexivity | ] ]).
  - reflexivity.
Defined.

(** C6 as it was claimed fails: in the document
    [Properties70: { Foo: { } P: "n", "int", "", "", 1 }] the block [Foo]
    inside the Properties70 block is reported with a [block] call; its
    closing brace takes away the Properties70 flag and is not reported, so
    that the [P] record after it is forwarded with a [property] call, all
    of its values in the payload, and the closing brace of the
    Properties70 block itself is reported with an [endBlock] call. *)
Lemma properties70_nested_block_not_opaque :
  exists st : FBXTextParser.t Z (Recorder Z),
    FBXTextParser.parse nestedInProperties70 entersAll = Some (Ok st)
    /\ calls (FBXTextParser.delegate_ st)
       = [CBlock "Foo" [] Enter;
          CProperty "P" [VString "n"; VString "int"; VString EmptyString;
                         VString EmptyString; VNumber 1];
          CEndBlock].
Proof.
  eexists. split; vm_compute; reflexivity.
Qed.

(** The theorem [array_type_by_field_name] on an array of polygon vertex
    indexes: the delegate receives a 32-bit signed integer array. *)
Lemma array_type_by_field_name_witness :
  Fed indexTokens (FBXTextParser.new entersAll) 0 1000 false
      (mkRecorder (fun _ _ _ => Enter)
         [CProperty "PolygonVertexIndex"
            [VArray (mkTypedArray Int32Array [0; 1; -3])]]).
Proof.
  refine (proj2 (proj2 (proj2 (proj2 (proj2 (array_type_by_field_name (N:=Z))))))
            "PolygonVertexIndex"%string 0 [1; -3]
            indexTokens 0 (FBXTextParser.new entersAll) (FBXTextParser.new entersAll)
            _ _ _ (new_Ready _) eq_refl); [|lia|lia].
  refine (IT_ArrayProperty "PolygonVertexIndex" 0 [1; -3] 3 (keyToken "PolygonVertexIndex")
            (Token.mk TokenType.ArrayCount 0 (vnumber 3)) openToken (keyToken "a")
            indexValues closeToken _ _ _ _ _ _ _ _ _).
  - split; reflexivity.
  - discriminate.
  - reflexivity.
  - reflexivity.
  - reflexivity.
  - reflexivity.
  - split; reflexivity.
  - repeat (first [ apply VT_last; split; reflexivity
                  | apply VT_more; [split; reflexivity | reflexivity | ] ]).
  - reflexivity.
Defined.

(* ===================================================================== *)
(** * Part III: further properties of the sources *)

(** ** The tokenizer: termination and order of the tokens *)

Section TokenizerRuns.
Context {N : Type} `{JSNumber N}.

Import FBXTextTokenizer.

Lemma scan_offset_le (stop : ascii -> bool) (fuel : nat) (this : t) :
  offset this <= offset (scan stop fuel this).
Proof.
  revert this. induction fuel as [|fuel IH]; intros this; [cbn; lia|].
  cbn [scan nextChar].
  destruct (if offset this + 1 <? length this
            then charAt (source this) (offset this + 1) else None) as [ch|];
    [|cbn; lia].
  destruct (stop ch); [cbn; lia|].
  etransitivity; [|apply IH]. cbn. lia.
Qed.

(** A scanning loop reads at least one character. *)
Lemma scan_offset_lt (stop : ascii -> bool) (fuel : nat) (this : t) :
  offset this < offset (scan stop (S fuel) this).
Proof.
  cbn [scan nextChar].
  destruct (if offset this + 1 <? length this
            then charAt (source this) (offset this + 1) else None) as [ch|];
    [|cbn; lia].
  destruct (stop ch); [cbn; lia|].
  eapply Z.lt_le_trans; [|apply scan_offset_le]. cbn. lia.
Qed.

Lemma word_snd (this : t) (tokenStart : Z) (firstChar : option ascii) :
  snd (@word N _ this tokenStart firstChar)
  = mk (source this) (offset (scan isBreak (rounds this) this) - 1)
       (lastChar (scan isBreak (rounds this) this)).
Proof.
  unfold word. rewrite scan_source.
  repeat match goal with
         | |- context [if ?b then _ else _] => destruct b
         | |- context [match ?o with Some _ => _ | None => _ end] => destruct o
         end; reflexivity.
Qed.

Lemma word_offset (this : t) (tokenStart : Z) (firstChar : option ascii) :
  Token.offset (fst (@word N _ this tokenStart firstChar)) = tokenStart.
Proof.
  unfold word, invalid.
  repeat match goal with
         | |- context [if ?b then _ else _] => destruct b
         | |- context [match ?o with Some _ => _ | None => _ end] => destruct o
         end; reflexivity.
Qed.

(** A call of [nextToken] returns once it has more fuel than there are
    characters left to read. *)
Lemma nextToken_fuel_returns (fuel : nat) (this : t) :
  (1 <= fuel)%nat -> length this - 1 - offset this < Z.of_nat fuel ->
  exists r, @nextToken_fuel N _ fuel this = Some r.
Proof.
  revert this. induction fuel as [|fuel IH]; intros this Hpos Hfuel; [lia|].
  cbn [nextToken_fuel].
  pose proof (scan_offset_lt (fun c => negb (isWS c)) (List.length (source this)) this) as Hws.
  fold (rounds this) in Hws. fold (skipWS this) in Hws.
  assert (Hlen : length (skipWS this) = length this)
    by (unfold length, skipWS; now rewrite scan_source).
  destruct (length (skipWS this) <=? offset (skipWS this)) eqn:Eend; [eauto|].
  apply Z.leb_gt in Eend.
  destruct (ceq (lastChar (skipWS this)) ";").
  { apply IH.
    - lia.
    - pose proof (scan_offset_lt isEOL (List.length (source (skipWS this))) (skipWS this)) as Hc.
      fold (rounds (skipWS this)) in Hc. fold (skipToLineEnd (skipWS this)) in Hc.
      assert (length (skipToLineEnd (skipWS this)) = length this)
        by (unfold length, skipToLineEnd, skipWS; now rewrite !scan_source).
      lia. }
  repeat match goal with
         | |- context [if ?b then _ else _] => destruct b
         end; eauto.
Qed.

(** What a call of [nextToken] does to the tokenizer: the source stays,
    and a token other than [EOF] starts after the cursor, inside the
    source, and leaves the cursor at or after its start. *)
Lemma nextToken_fuel_progress (fuel : nat) (this this' : t) (tok : Token.t N) :
  nextToken_fuel fuel this = Some (tok, this') ->
  source this' = source this
  /\ (Token.type tok = TokenType.EOF
      \/ (offset this < Token.offset tok
          /\ Token.offset tok < length this
          /\ Token.offset tok <= offset this')).
Proof.
  revert this. induction fuel as [|fuel IH]; intros this; [discriminate|].
  cbn [nextToken_fuel].
  pose proof (scan_offset_lt (fun c => negb (isWS c)) (List.length (source this)) this) as Hws.
  fold (rounds this) in Hws. fold (skipWS this) in Hws.
  assert (Hsrc : source (skipWS this) = source this) by apply scan_source.
  assert (Hlen : length (skipWS this) = length this) by (unfold length; now rewrite Hsrc).
  destruct (length (skipWS this) <=? offset (skipWS this)) eqn:Eend.
  { intros [= <- <-]. cbn. auto. }
  apply Z.leb_gt in Eend.
  destruct (ceq (lastChar (skipWS this)) ";").
  { intros E. destruct (IH _ E) as [E1 E2].
    pose proof (scan_offset_lt isEOL (List.length (source (skipWS this))) (skipWS this)) as Hc.
    fold (rounds (skipWS this)) in Hc. fold (skipToLineEnd (skipWS this)) in Hc.
    assert (Hsrc' : source (skipToLineEnd (skipWS this)) = source this)
      by (unfold skipToLineEnd; now rewrite scan_source).
    assert (length (skipToLineEnd (skipWS this)) = length this)
      by (unfold length; now rewrite Hsrc').
    split; [congruence|].
    destruct E2 as [E2|E2]; [now left|right]. lia. }
  destruct (ceq (lastChar (skipWS this)) "034").
  { pose proof (scan_offset_lt isStringEnd (List.length (source (skipWS this))) (skipWS this))
      as Hc.
    fold (rounds (skipWS this)) in Hc.
    pose proof (scan_source isStringEnd (rounds (skipWS this)) (skipWS this)) as Hs1.
    remember (scan isStringEnd (rounds (skipWS this)) (skipWS this)) as this1 eqn:E1.
    clear E1.
    destruct (negb _); intros [= <- <-]; (split; [congruence|]);
      right; cbn [Token.offset invalid]; lia. }
  destruct (ceq (lastChar (skipWS this)) ",").
  { intros [= <- <-]. split; [assumption|]. right. cbn [Token.offset]. lia. }
  destruct (ceq (lastChar (skipWS this)) "{").
  { intros [= <- <-]. split; [assumption|]. right. cbn [Token.offset]. lia. }
  destruct (ceq (lastChar (skipWS this)) "}").
  { intros [= <- <-]. split; [assumption|]. right. cbn [Token.offset]. lia. }
  intros [= E].
  assert (E1 : tok = fst (word (skipWS this) (offset (skipWS this)) (lastChar (skipWS this))))
    by now rewrite E.
  assert (E2 : this' = snd (word (skipWS this) (offset (skipWS this)) (lastChar (skipWS this))))
    by now rewrite E.
  rewrite word_snd in E2. rewrite E1, E2, word_offset. cbn [source offset].
  split; [assumption|]. right.
  pose proof (scan_offset_lt isBreak (List.length (source (skipWS this))) (skipWS this)) as Hc.
  fold (rounds (skipWS this)) in Hc. lia.
Qed.

(** Successive calls hand out the tokens of a source before they run out
    of fuel. *)
Lemma tokens_fuel_returns (fuel : nat) (this : t) :
  -1 <= offset this -> Z.max 0 (length this - 1 - offset this) < Z.of_nat fuel ->
  exists toks : list (Token.t N),
    tokens_fuel fuel this = Some toks
    /\ Z.of_nat (List.length toks) <= Z.max 0 (length this - 1 - offset this)
    /\ Forall (fun tok => Token.type tok <> TokenType.EOF
                          /\ offset this < Token.offset tok < length this) toks
    /\ StronglySorted Z.lt (map Token.offset toks).
Proof.
  revert this. induction fuel as [|fuel IH]; intros this Hoff Hfuel.
  { lia. }
  cbn [tokens_fuel].
  destruct (nextToken_fuel_returns (rounds this) this) as [[tok this'] Hnext].
  { unfold rounds. lia. }
  { unfold rounds, length in *. lia. }
  unfold nextToken. rewrite Hnext.
  destruct (nextToken_fuel_progress _ _ _ _ Hnext) as [Hsrc Hprog].
  destruct (TokenType.eqb (Token.type tok) TokenType.EOF) eqn:Etype.
  { exists []. repeat split; [cbn; lia|constructor|constructor]. }
  destruct Hprog as [Hprog|(Hp1 & Hp2 & Hp3)]; [rewrite Hprog in Etype; discriminate|].
  assert (Hlen : length this' = length this) by (unfold length; now rewrite Hsrc).
  destruct (IH this') as (toks & Htoks & Hcount & Hall & Hsorted); [lia|lia|].
  exists (tok :: toks). rewrite Htoks. cbn [option_map List.length map].
  split; [reflexivity|]. split; [lia|].
  assert (Hall' : Forall (fun tok' => Token.offset tok < Token.offset tok') toks).
  { eapply Forall_impl; [exact Hall|]. cbn. intros tok' [_ Ht]. lia. }
  split.
  - constructor.
    + split; [|lia]. intros E. rewrite E in Etype. discriminate.
    + eapply Forall_impl; [exact Hall|]. cbn. intros tok' [Hne Ht]. split; [exact Hne|lia].
  - constructor; [exact Hsorted|]. now apply Forall_fmap.
Qed.

(** X1.  The tokenizer terminates on every text: the calls of [nextToken] hand
    out at most as many tokens as the text has characters before they
    return [EOF]; each token starts inside the text, and each starts after
    the one before it. *)
Theorem tokenize_returns (text : string) :
  exists toks : list (Token.t N),
    tokenize text = Some toks
    /\ (List.length toks <= String.length text)%nat
    /\ Forall (fun tok => Token.type tok <> TokenType.EOF
                          /\ 0 <= Token.offset tok < Z.of_nat (String.length text)) toks
    /\ StronglySorted Z.lt (map Token.offset toks).
Proof.
  assert (Hlen : List.length (chars text) = String.length text).
  { unfold chars. induction text as [|c text IH]; [reflexivity|]. cbn. now rewrite IH. }
  destruct (tokens_fuel_returns (S (String.length text)) (new text))
    as (toks & Htoks & Hcount & Hall & Hsorted).
  { cbn. lia. }
  { unfold length, new. cbn [source offset]. rewrite Hlen. lia. }
  exists toks. unfold tokenize. split; [exact Htoks|].
  unfold length, new in *. cbn [source offset] in *. rewrite Hlen in *.
  split; [lia|]. split; [|exact Hsorted].
  eapply Forall_impl; [exact Hall|]. cbn. intros tok [Hne Ht]. split; [exact Hne|lia].
Qed.
End TokenizerRuns.

(** ** The parser and its delegate: which callbacks are used *)

Section DelegateInvariant.
Context {N D : Type} `{JSNumber N} `{FBXParserDelegate N D}.

Import FBXTextParser.

(** A property of the delegate that the five callbacks [block],
    [endBlock], [property], [typedProperty] and [error] keep; nothing is
    asked of [completed]. *)
Variable Inv : D -> Prop.
Hypothesis Inv_block : forall name values d action d',
  block name values d = Ok (action, d') -> Inv d -> Inv d'.
Hypothesis Inv_endBlock : forall d d', endBlock d = Ok d' -> Inv d -> Inv d'.
Hypothesis Inv_property : forall name values d d',
  property name values d = Ok d' -> Inv d -> Inv d'.
Hypothesis Inv_typedProperty : forall name type typeName values d d',
  typedProperty name type typeName values d = Ok d' -> Inv d -> Inv d'.
Hypothesis Inv_error : forall msg offset token d d',
  error msg offset token d = Ok d' -> Inv d -> Inv d'.

Local Abbreviation Parser := (FBXTextParser.t N D).

Lemma unexpected_keeps (this this' : Parser) (tok : Token.t N) :
  unexpected this tok = Ok this' -> Inv (delegate_ this) -> Inv (delegate_ this').
Proof.
  unfold unexpected. destruct (valToString _) as [s|]; cbn; [|discriminate].
  destruct (error _ _ _ _) as [d|] eqn:E; cbn; [|discriminate].
  intros [= <-]. cbn. eauto.
Qed.

Lemma reportProperty_keeps (this this' : Parser) :
  reportProperty this = Ok this' -> Inv (delegate_ this) -> Inv (delegate_ this').
Proof.
  unfold reportProperty, assert.
  destruct (0 <? length (values_ this))%nat; cbn; [|discriminate].
  destruct (depth_ this <=? skippingUntilDepth_ this).
  - destruct (inProp70Block_ this).
    + destruct (match values_ this !! 0%nat with Some (VString s) => _ | _ => false end);
        cbn; [|discriminate].
      destruct (interpretProp70P _) as [p|]; cbn; [|discriminate].
      destruct (typedProperty _ _ _ _ _) as [d|] eqn:E; cbn; [|discriminate].
      intros [= <-]. cbn. eauto.
    + destruct (asString _ _); cbn; [|discriminate].
      destruct (property _ _ _) as [d|] eqn:E; cbn; [|discriminate].
      intros [= <-]. cbn. eauto.
  - cbn. now intros [= <-].
Qed.

Lemma reportBlock_keeps (this this' : Parser) (action : FBXBlockAction) :
  reportBlock this = Ok (action, this') -> Inv (delegate_ this) -> Inv (delegate_ this').
Proof.
  unfold reportBlock, assert.
  destruct (0 <? length (values_ this))%nat; cbn; [|discriminate].
  destruct (array_ this); [now intros [= <- <-]|].
  destruct (asString _ _) as [blockName|]; cbn; [|discriminate].
  destruct (String.eqb blockName "Properties70"); [now intros [= <- <-]|].
  destruct (depth_ this <=? skippingUntilDepth_ this); [|now intros [= <- <-]].
  destruct (block _ _ _) as [[a d]|] eqn:E; cbn; [|discriminate].
  intros [= <- <-]. cbn. eauto.
Qed.

Lemma flush_keeps (this this' : Parser) :
  (if (0 <? length (values_ this))%nat then reportProperty this else Ok this) = Ok this' ->
  Inv (delegate_ this) -> Inv (delegate_ this').
Proof.
  destruct (0 <? length (values_ this))%nat; [apply reportProperty_keeps|now intros [= <-]].
Qed.

(** A round of the loop keeps the property. *)
Lemma step_keeps (tok : Token.t N) (this this' : Parser) (flow : Flow) :
  step tok this = Ok (flow, this') -> Inv (delegate_ this) -> Inv (delegate_ this').
Proof.
  unfold step.
  assert (Hun : forall fl,
             (this1 ← unexpected this tok; Ok (fl, this1)) = Ok (flow, this') ->
             Inv (delegate_ this) -> Inv (delegate_ this')).
  { intros fl. destruct (unexpected this tok) as [this1|] eqn:E; cbn; [|discriminate].
    intros [= <- <-]. now apply unexpected_keeps with (tok := tok). }
  destruct (Token.type tok).
  - apply Hun.
  - now intros [= <- <-].
  - destruct (has _ _); [|apply Hun].
    destruct (match expectNextKey_ this with None => true | Some k => _ end); [|apply Hun].
    destruct (negb _).
    + destruct (if (0 <? length (values_ this))%nat then reportProperty this else Ok this)
        as [this1|] eqn:E; cbn; [|discriminate].
      destruct (valValue _); cbn; [|discriminate].
      intros [= <- <-]. cbn. now apply flush_keeps with (this := this).
    + cbn. now intros [= <- <-].
  - destruct (_ && _); [|apply Hun].
    destruct (array_ this) as [a|].
    + destruct (valToString _); cbn; [|discriminate].
      destruct (error _ _ _ _) as [d|] eqn:E; cbn; [|discriminate].
      intros [= <- <-]. cbn. eauto.
    + destruct (valValue _); cbn; [|discriminate].
      intros [= <- <-]. unfold withClose. cbn. now destruct (0 <? depth_ this).
  - destruct (_ && _); [|apply Hun].
    destruct (array_ this) as [a|].
    + destruct (Token.val tok); try discriminate.
      intros [= <- <-]. unfold withClose. cbn.
      repeat match goal with |- context [if ?b then _ else _] => destruct b end;
        cbn; trivial.
    + destruct (valValue _); cbn; [|discriminate].
      intros [= <- <-]. unfold withClose. cbn. now destruct (0 <? depth_ this).
  - destruct (_ && _); [|apply Hun].
    destruct (Token.val tok); try discriminate.
    now intros [= <- <-].
  - destruct (has _ _); [|apply Hun].
    destruct (reportBlock this) as [[action this1]|] eqn:E; cbn; [|discriminate].
    intros [= <- <-] HI. apply (reportBlock_keeps _ _ _ E) in HI.
    destruct action; cbn; now destruct (expectNextKey_ this1).
  - destruct (_ && _); [|apply Hun].
    destruct (if (0 <? length (values_ this))%nat then reportProperty this else Ok this)
      as [this1|] eqn:E; cbn; [|discriminate].
    intros E2 HI. apply (flush_keeps _ _ E) in HI.
    destruct (array_ this1); cbn in E2.
    + injection E2 as <- <-. unfold withClose. cbn.
      repeat match goal with |- context [if ?b then _ else _] => destruct b end;
        cbn; trivial.
    + destruct (inProp70Block_ this1); cbn in E2.
      * injection E2 as <- <-. unfold withClose. cbn.
        repeat match goal with |- context [if ?b then _ else _] => destruct b end;
          cbn; trivial.
      * destruct (depth_ this1 <=? skippingUntilDepth_ this1); cbn in E2.
        -- destruct (endBlock _) as [d|] eqn:E3; cbn in E2; [|discriminate].
           injection E2 as <- <-. unfold withClose. cbn.
           repeat match goal with |- context [if ?b then _ else _] => destruct b end;
             cbn; eauto.
        -- injection E2 as <- <-. unfold withClose. cbn.
           repeat match goal with |- context [if ?b then _ else _] => destruct b end;
             cbn; trivial.
  - destruct (_ && _); [|apply Hun].
    now intros [= <- <-].
Qed.

(** The whole parse keeps the property. *)
Lemma run_keeps (eofOffset : Z) (toks : list (Token.t N)) (this this' : Parser) :
  run eofOffset toks this = Ok this' -> Inv (delegate_ this) -> Inv (delegate_ this').
Proof.
  revert this. induction toks as [|tok toks IH]; intros this; cbn [run].
  - destruct (step _ this) as [[fl this1]|] eqn:E; cbn; [|discriminate].
    intros [= <-]. now apply step_keeps with (1 := E).
  - destruct (step tok this) as [[fl this1]|] eqn:E; cbn; [|discriminate].
    intros E2 HI. apply (step_keeps _ _ _ _ E) in HI.
    destruct fl; [|now injection E2 as <-].
    destruct (eof_ this1); [now injection E2 as <-|]. now apply (IH this1).
Qed.
End DelegateInvariant.

Section NeverCompleted.
Context {N : Type} `{JSNumber N}.

Import FBXTextParser.

(** X13.  The text parser never calls [completed]: whatever the tokens and
    whatever the state of the parser, the calls that a parse makes on its
    delegate follow those made before and none of them is [completed]. *)
Theorem parse_never_calls_completed (eofOffset : Z) (toks : list (Token.t N))
    (this this' : FBXTextParser.t N (Recorder N))
    (Hrun : run eofOffset toks this = Ok this') :
  exists made : list (Call N),
    calls (delegate_ this') = calls (delegate_ this) ++ made
    /\ Forall (fun c => c <> CCompleted) made.
Proof.
  pose (Inv := fun r : Recorder N =>
          exists made, calls r = calls (delegate_ this) ++ made
                       /\ Forall (fun c : Call N => c <> CCompleted) made).
  assert (Hrec : forall (c : Call N) r, c <> CCompleted -> Inv r -> Inv (record c r)).
  { intros c r Hc (made & E & Hmade). exists (made ++ [c]).
    cbn. rewrite E, <- (assoc_L (++)). split; [reflexivity|].
    apply Forall_app. split; [exact Hmade|]. now constructor. }
  refine (run_keeps Inv _ _ _ _ _ eofOffset toks this this' Hrun _).
  - intros name values d action d' E. cbn in E. injection E as <- <-. now apply Hrec.
  - intros d d' E. cbn in E. injection E as <-. now apply Hrec.
  - intros name values d d' E. cbn in E. injection E as <-. now apply Hrec.
  - intros name type typeName values d d' E. cbn in E. injection E as <-. now apply Hrec.
  - intros msg offset token d d' E. cbn in E. injection E as <-. now apply Hrec.
  - exists []. rewrite app_nil_r. split; [reflexivity|constructor].
Qed.
End NeverCompleted.

(** The theorem above on the tokens of [Objects: { Version: 7 }]. *)
Lemma parse_never_calls_completed_witness :
  exists made : list (Call Z),
    made = [CBlock "Objects" [] Enter; CProperty "Version" [VNumber 7]; CEndBlock]
    /\ Forall (fun c => c <> CCompleted) made.
Proof.
  destruct (parse_never_calls_completed (N:=Z) 0
              [keyToken "Objects"; openToken; keyToken "Version";
               Token.mk TokenType.Number 0 (vnumber 7); closeToken]
              (FBXTextParser.new entersAll)
              (FBXTextParser.mk 1 None true 0 false 1000 None 0 0 []
                 (mkRecorder (fun _ _ _ => Enter)
                    [CBlock "Objects" [] Enter; CProperty "Version" [VNumber 7];
                     CEndBlock]))
              eq_refl) as (made & E & Hmade).
  exists made. split; [|exact Hmade]. exact (eq_sym E).
Defined.

(** ** The parser on whole documents *)

Section ParserRuns.
Context {N : Type} `{JSNumber N}.

Import FBXTextParser.

Local Abbreviation Parser := (FBXTextParser.t N (Recorder N)).

(** A well-formed document is fed to the parser without a throw and
    without an error, and leaves it between two items at depth 0. *)
Lemma run_document_fed (doc : list (Item N)) (toks : list (Token.t N)) (r0 : Recorder N)
    (eofOffset : Z) :
  ItemsTokens doc toks -> heights doc <= 1000 ->
  exists st' st0 : Parser,
    feed toks (new r0) = Some st'
    /\ run eofOffset toks (new r0) = Ok (set_eof true st')
    /\ Ready 0 1000 false st'
    /\ flush st' = Ok st0 /\ delegate_ st0 = walk doc r0.
Proof.
  intros Hdoc Hh.
  assert (HR : Ready 0 1000 false (new r0)).
  { unfold Ready. cbn. repeat split; try reflexivity. lia. }
  destruct (feed_items _ _ Hdoc true 0 1000 (new r0) (new r0) ltac:(lia) HR
              ltac:(cbn; lia) eq_refl)
    as (st' & Hfeed & HR' & st0' & Hflush' & Hdel).
  exists st', st0'. repeat split; try assumption; try apply HR'.
  rewrite <- (app_nil_r toks), (run_feed _ _ _ _ _ Hfeed). reflexivity.
Qed.

(** After the round for a closing brace nothing is pending. *)
Lemma step_close_values (tok : Token.t N) (st st' : Parser) :
  isA TokenType.CloseBlock tok ->
  step tok st = Ok (Break, st') -> eof_ st' = false -> values_ st' = [].
Proof.
  intros Hty. destruct tok as [ty off val]. unfold isA in Hty. cbn in Hty. subst ty.
  destruct st as [e nk eof d p70 S a al ai vals del].
  unfold step. cbn [Token.type expectNextKey_ expect_].
  destruct (_ && _).
  - fold (flush (mk e nk eof d p70 S a al ai vals del)).
    destruct (flush (mk e nk eof d p70 S a al ai vals del)) as [st1|] eqn:Hflush;
      cbn; [|intros E; discriminate E].
    destruct (flush_shape _ _ _ _ _ _ _ _ _ _ _ _ Hflush) as [-> _].
    destruct a as [arr|]; cbn.
    + intros [= <-] _. unfold withClose. cbn.
      repeat match goal with |- context [if ?b then _ else _] => destruct b end;
        reflexivity.
    + destruct p70; cbn.
      * intros [= <-] _. unfold withClose. cbn.
        repeat match goal with |- context [if ?b then _ else _] => destruct b end;
          reflexivity.
      * destruct (d <=? S); cbn; intros [= <-] _; unfold withClose; cbn;
          repeat match goal with |- context [if ?b then _ else _] => destruct b end;
          reflexivity.
  - unfold unexpected. destruct val; cbn; try (intros E; discriminate E);
      intros [= <-]; cbn; discriminate.
Qed.

Lemma feed_close_values (ts : list (Token.t N)) (tc : Token.t N) (st st' : Parser) :
  isA TokenType.CloseBlock tc ->
  feed (ts ++ [tc]) st = Some st' -> values_ st' = [].
Proof.
  intros Hc. rewrite feed_app.
  destruct (feed ts st) as [st1|]; [|discriminate].
  cbn [feed]. destruct (step tc st1) as [[[] st2]|] eqn:E; try discriminate.
  destruct (eof_ st2) eqn:Eeof; [discriminate|].
  intros [= <-]. exact (step_close_values _ _ _ Hc E Eeof).
Qed.

Lemma ItemsTokens_snoc (doc : list (Item N)) (it : Item N) (toks : list (Token.t N)) :
  ItemsTokens (doc ++ [it]) toks ->
  exists toks1 t, toks = toks1 ++ t /\ ItemsTokens doc toks1 /\ ItemTokens it t.
Proof.
  revert toks. induction doc as [|i doc IH]; intros toks Htoks.
  - inversion Htoks as [|it' items' t ts Hit Hits]; subst.
    inversion Hits; subst. exists [], t. rewrite app_nil_r.
    repeat split; [constructor|assumption].
  - inversion Htoks as [|it' items' t ts Hit Hits]; subst.
    destruct (IH _ Hits) as (toks1 & t' & -> & H1 & H2).
    exists (t ++ toks1), t'. rewrite (assoc_L (++)).
    repeat split; [now constructor|assumption].
Qed.

Lemma ItemsTokens_app (doc1 doc2 : list (Item N)) (t1 t2 : list (Token.t N)) :
  ItemsTokens doc1 t1 -> ItemsTokens doc2 t2 -> ItemsTokens (doc1 ++ doc2) (t1 ++ t2).
Proof.
  revert t1. induction doc1 as [|i doc1 IH]; intros t1 H1 H2.
  - inversion H1; subst. exact H2.
  - inversion H1 as [|it' items' t ts Hit Hits]; subst.
    rewrite <- (assoc_L (++)). cbn [app]. constructor; [assumption|]. now apply IH.
Qed.

(** The tokens of an item that is not a plain property end with a closing
    brace. *)
Lemma closed_item_tokens (it : Item N) (t : list (Token.t N)) :
  ItemTokens it t ->
  match it with Property _ _ _ => True | _ =>
    exists ts tc, t = ts ++ [tc] /\ isA TokenType.CloseBlock tc end.
Proof.
  destruct 1 as [k v vs tk ts Hk Hka Hts
                |k x xs count tk tn to ta ts tc Hk Hka Hn Hcount Hlen Ho Ha Hts Hc
                |k vs body tk tvs to tbody tc Hk Hka Hkp Hvs Ho Hbody Hc
                |ps tk to tps tc Hk Ho Hps Hc]; [exact I| | |].
  - exists (tk :: tn :: to :: ta :: ts), tc. split; [reflexivity|assumption].
  - exists (tk :: tvs ++ to :: tbody), tc. split; [|assumption].
    cbn. now rewrite <- !(assoc_L (++)).
  - exists (tk :: to :: tps), tc. split; [reflexivity|assumption].
Qed.

Lemma run_closed_document (doc : list (Item N)) (toks : list (Token.t N))
    (r0 : Recorder N) (eofOffset : Z) :
  ItemsTokens doc toks -> heights doc <= 1000 -> endsClosed doc ->
  exists st : Parser,
    run eofOffset toks (new r0) = Ok st
    /\ eof_ st = true /\ depth_ st = 0 /\ values_ st = []
    /\ delegate_ st = walk doc r0.
Proof.
  intros Hdoc Hdepth Hlast.
  destruct (run_document_fed doc toks r0 eofOffset Hdoc Hdepth)
    as (st' & st0 & Hfeed & Hrun & HR & Hflush & Hdel).
  assert (Hvals : values_ st' = []).
  { destruct (decide (doc = [])) as [->|Hne].
    - inversion Hdoc; subst. cbn in Hfeed. now injection Hfeed as <-.
    - destruct (exists_last Hne) as (doc1 & it & ->).
      destruct (ItemsTokens_snoc _ _ _ Hdoc) as (toks1 & t & -> & _ & Hit).
      unfold endsClosed in Hlast. rewrite last_snoc in Hlast.
      pose proof (closed_item_tokens _ _ Hit) as Hshape.
      destruct it; [contradiction| | |];
        destruct Hshape as (ts & tc & -> & Hc);
        rewrite (assoc_L (++)) in Hfeed;
        exact (feed_close_values _ _ _ _ Hc Hfeed). }
  exists (set_eof true st'). split; [exact Hrun|].
  destruct st' as [e nk eof d p70 S a al ai vals del]. cbn in Hvals. subst vals.
  rewrite flush_empty in Hflush. injection Hflush as <-.
  destruct HR as (_ & _ & Hd & _). cbn in Hd, Hdel. cbn.
  repeat split; assumption.
Qed.

(** X8.  The parse of a well-formed document whose braces are at most 1000
    deep and whose last item is closed by a brace returns at the end of the
    input, with nothing pending, and has made on its delegate exactly the
    calls of the walk through the document, in their order. *)
Theorem parse_reports_document (doc : list (Item N)) (toks : list (Token.t N))
    (r0 : Recorder N) (eofOffset : Z)
    (Hdoc : ItemsTokens doc toks) (Hdepth : heights doc <= 1000)
    (Hlast : endsClosed doc) :
  exists st : Parser,
    run eofOffset toks (new r0) = Ok st
    /\ eof_ st = true /\ depth_ st = 0 /\ values_ st = []
    /\ delegate_ st = walk doc r0.
Proof.
  now apply run_closed_document.
Qed.

(** X9.  A property that is the last item of a document, outside every block,
    is never reported: the parse returns with the property pending, and
    the calls made on the delegate are those for the document before
    it. *)
Theorem trailing_property_not_reported (doc : list (Item N)) (toks tp : list (Token.t N))
    (k : string) (v : Scalar N) (vs : list (Scalar N)) (r0 : Recorder N) (eofOffset : Z)
    (Hdoc : ItemsTokens doc toks) (Hdepth : heights doc <= 1000)
    (Hp : ItemTokens (Property k v vs) tp) :
  exists st : Parser,
    run eofOffset (toks ++ tp) (new r0) = Ok st
    /\ eof_ st = true
    /\ values_ st = VString k :: map scalarValue (v :: vs)
    /\ delegate_ st = walk doc r0
    /\ walk (doc ++ [Property k v vs]) r0
       = record (CProperty k (map scalarValue (v :: vs))) (walk doc r0).
Proof.
  destruct (run_document_fed doc toks r0 eofOffset Hdoc Hdepth)
    as (st' & st0 & Hfeed & _ & HR & Hflush & Hdel).
  inversion Hp as [k' v' vs' tk ts Hk Hka Hts| | |]; subst.
  destruct st' as [e nk eof d p70 S a al ai vals del].
  destruct HR as (HR1 & HR2 & HR3 & HR4 & HR5 & HR6 & HK & HC).
  cbn in HR1, HR2, HR3, HR4, HR5, HR6, HK. subst.
  eassert (Hfeed2 : feed (toks ++ tk :: ts) (new r0) = Some _).
  { rewrite feed_app, Hfeed. cbn [feed].
    rewrite (step_key k tk _ _ _ _ _ _ _ _ _ st0) by assumption.
    cbn [eof_]. rewrite (feed_values _ _ Hts) by reflexivity. reflexivity. }
  eexists. split.
  - rewrite <- (app_nil_r (toks ++ tk :: ts)), (run_feed _ _ _ _ _ Hfeed2). reflexivity.
  - cbn. repeat split; try assumption.
    unfold walk. now rewrite foldl_app.
Qed.

(** X10.  A block for which the delegate answers Skip is passed over in
    silence: of all the tokens of the block, however deep its content, the
    delegate sees the [block] call that it answered and nothing else, not
    even an [endBlock]. *)
Theorem skipped_block_is_silent (k : string) (vs : list (Scalar N)) (body : list (Item N))
    (toks : list (Token.t N)) (r0 : Recorder N) (eofOffset : Z)
    (Hit : ItemTokens (Block k vs body) toks)
    (Hdepth : height (Block k vs body) <= 1000)
    (Hskip : answer r0 (calls r0) k (map scalarValue vs) = Skip) :
  exists st : Parser,
    run eofOffset toks (new r0) = Ok st
    /\ depth_ st = 0
    /\ calls (delegate_ st) = calls r0 ++ [CBlock k (map scalarValue vs) Skip].
Proof.
  assert (Hdoc : ItemsTokens [Block k vs body] toks).
  { rewrite <- (app_nil_r toks). constructor; [assumption|constructor]. }
  destruct (run_closed_document [Block k vs body] toks r0 eofOffset Hdoc)
    as (st & Hrun & _ & Hd & _ & Hdel).
  - unfold heights. cbn [foldr]. lia.
  - exact I.
  - exists st. split; [exact Hrun|]. split; [exact Hd|].
    rewrite Hdel. unfold walk. cbn [foldl walkItem]. rewrite Hskip. reflexivity.
Qed.
End ParserRuns.

(** ** The parser: errors *)

Section ParserErrors.
Context {N : Type} `{JSNumber N}.

Import FBXTextParser.

Local Abbreviation Parser := (FBXTextParser.t N (Recorder N)).

(** What a round of the loop adds to the calls of the delegate: an
    [error] call can only be the last of them, and the loop ends with
    it. *)
Lemma step_calls (tok : Token.t N) (this this' : Parser) (flow : Flow) :
  step tok this = Ok (flow, this') ->
  exists made : list (Call N),
    calls (delegate_ this') = calls (delegate_ this) ++ made
    /\ (Forall (fun c => isErrorCall c = false) made
        \/ (exists before msg offset token,
              made = before ++ [CError msg offset token]
              /\ Forall (fun c => isErrorCall c = false) before
              /\ (flow = Return \/ eof_ this' = true))).
Proof.
  destruct this as [e nk eof d p70 S a al ai vals del].
  destruct tok as [ty off val].
  unfold step, unexpected, reportBlock, reportProperty, assert, withClose.
  cbn [Token.type Token.val Token.offset expect_ expectNextKey_ eof_ depth_
         inProp70Block_ skippingUntilDepth_ array_ arrayLength_ arrayIndex_ values_
         delegate_].
  destruct ty; cbn;
    repeat match goal with
           | |- context [valToString ?v] => destruct v; cbn
           | |- context [valValue ?v] => destruct v; cbn
           | |- context [interpretProp70P ?v] => destruct (interpretProp70P v); cbn
           | |- context [asString ?w ?v] => destruct (asString w v); cbn
           | |- context [if ?b then _ else _] => destruct b; cbn
           | |- context [match ?x with _ => _ end] =>
               lazymatch x with
               | context [mbind] => fail
               | _ => destruct x; cbn
               end
           end;
    try (intros E; discriminate E);
    intros E; injection E as <- <-; cbn;
    first
      [ exists []; split; [now rewrite app_nil_r|left; constructor]
      | eexists [_]; split; [reflexivity|];
        first [ solve [left; repeat first [apply List.Forall_nil
                                          |apply List.Forall_cons; [reflexivity|]]]
              | right; exists []; do 3 eexists;
                split; [reflexivity|]; split; [constructor|]; auto ]
      | eexists [_; _]; split; [now rewrite <- (assoc_L (++))|];
        first [ solve [left; repeat first [apply List.Forall_nil
                                          |apply List.Forall_cons; [reflexivity|]]]
              | right; eexists [_]; do 3 eexists;
                split; [reflexivity|];
                split; [repeat first [apply List.Forall_nil
                                     |apply List.Forall_cons; [reflexivity|]]|]; auto ] ].
Qed.

(** X12.  Once the parser has reported an error to its delegate it makes no
    further call: among the calls of a parse an [error] call can only be
    the last one. *)
Theorem error_ends_parse (eofOffset : Z) (toks : list (Token.t N)) (this this' : Parser)
    (Hrun : run eofOffset toks this = Ok this') :
  exists made : list (Call N),
    calls (delegate_ this') = calls (delegate_ this) ++ made
    /\ Forall (fun c => isErrorCall c = false) (removelast made).
Proof.
  revert this Hrun. induction toks as [|tok toks IH]; intros this; cbn [run].
  - destruct (step _ this) as [[fl this1]|] eqn:E; cbn; [|discriminate].
    intros [= <-]. destruct (step_calls _ _ _ _ E) as (made & Hmade & Hcase).
    exists made. split; [exact Hmade|].
    destruct Hcase as [Hall|(before & msg & offset & token & -> & Hall & _)].
    + clear -Hall. induction Hall as [|c [|c' made] Hc Hall IHall]; cbn; constructor;
        assumption.
    + now rewrite removelast_last.
  - destruct (step tok this) as [[fl this1]|] eqn:E; cbn; [|discriminate].
    destruct (step_calls _ _ _ _ E) as (made & Hmade & Hcase).
    assert (Hend : Forall (fun c => isErrorCall c = false) (removelast made)).
    { destruct Hcase as [Hall|(before & msg & offset & token & -> & Hall & _)].
      - clear -Hall. induction Hall as [|c [|c' made] Hc Hall IHall]; cbn; constructor;
          assumption.
      - now rewrite removelast_last. }
    destruct fl.
    + destruct (eof_ this1) eqn:Eeof.
      * intros [= <-]. eauto.
      * intros Hrun. destruct (IH _ Hrun) as (made2 & Hmade2 & Hall2).
        exists (made ++ made2). rewrite Hmade2, Hmade, <- (assoc_L (++)).
        split; [reflexivity|].
        destruct Hcase as [Hall|(before & msg & offset & token & _ & _ & [Hfl|Hfl])];
          [|discriminate|congruence].
        destruct made2 as [|c made2]; [now rewrite app_nil_r|].
        rewrite removelast_app by discriminate.
        apply Forall_app. split; assumption.
    + intros [= <-]. eauto.
Qed.
End ParserErrors.

(** ** The parser: an array shorter than its count *)

Section ShortArrays.
Context {N : Type} `{JSNumber N}.

Import FBXTextParser.

Local Abbreviation Parser := (FBXTextParser.t N (Recorder N)).

(** The rounds for the elements of an array that are fewer than the array
    is long: the parser is left waiting for a comma, and nothing is
    pending. *)
Lemma feed_elements_short (vs : list (Scalar N)) (ts : list (Token.t N)) :
  ValuesTokens vs ts ->
  forall (xs : list N), vs = map SNumber xs ->
  forall e d p70 S k (done todo extra : list N) (len ai : Z) vals del,
    has e Expect.Value = true ->
    length todo = length xs ->
    extra <> [] ->
    ai = Z.of_nat (length done) ->
    len = ai + Z.of_nat (length todo + length extra) ->
    feed ts (mk e None false d p70 S (Some (mkTypedArray k (done ++ todo ++ extra)))
                len ai vals del)
    = Some (mk (closeIf d Expect.Comma) None false d p70 S
               (Some (mkTypedArray k (done ++ map (stored k) xs ++ extra)))
               len (ai + Z.of_nat (length xs)) vals del).
Proof.
  induction 1 as [v t Hv | v vs t c ts Hv Hc Hvs IH];
    intros xs Exs e d p70 S k done todo extra len ai vals del He Hlen Hex Hai Hl.
  - destruct xs as [|x [|x' xs]]; try discriminate. injection Exs as ->.
    destruct todo as [|z [|z' todo]]; try discriminate.
    destruct extra as [|y extra]; [congruence|].
    cbn [feed app].
    rewrite (step_element x t e d p70 S k done (y :: extra) z len ai)
      by (try assumption; cbn [length] in *; lia).
    cbn [eof_ map length app]. do 2 f_equal.
  - destruct xs as [|x xs]; try discriminate. injection Exs as -> ->.
    destruct xs as [|x' xs]; [inversion Hvs|].
    destruct todo as [|z [|z' todo]]; try discriminate.
    cbn [feed app].
    rewrite (step_element x t e d p70 S k done (z' :: todo ++ extra) z len ai)
      by (try assumption; cbn [length] in *; rewrite ?length_app; lia).
    cbn [eof_].
    rewrite step_comma by (try assumption; apply has_closeIf; reflexivity).
    cbn [eof_].
    specialize (IH (x' :: xs) eq_refl Expect.Value d p70 S k (done ++ [stored k x])
                   (z' :: todo) extra len (ai + 1) vals del eq_refl).
    rewrite <- !(assoc_L (++)) in IH. cbn [app] in IH.
    rewrite IH.
    + cbn [map length app]. do 2 f_equal. lia.
    + cbn [length] in *. lia.
    + assumption.
    + rewrite length_app. cbn [length]. lia.
    + cbn [length] in *. lia.
Qed.

(** X11.  An array property with fewer elements than its count announces is
    accepted, and the delegate receives a [property] call for its key with
    no value at all: the array that was being filled is dropped. *)
Theorem short_array_reported_empty (k : string) (x : N) (xs : list N) (count : N)
    (tk tn to ta : Token.t N) (ts : list (Token.t N)) (tc : Token.t N)
    (r0 : Recorder N) (eofOffset : Z)
    (Hk : isKey k tk) (Hka : k <> "a"%string)
    (Hn : isA TokenType.ArrayCount tn) (Hcount : Token.val tn = vnumber count)
    (Hshort : Z.of_nat (Datatypes.S (length xs)) < toInt32 count)
    (Ho : isA TokenType.OpenBlock to) (Ha : isKey "a" ta)
    (Hts : ValuesTokens (map SNumber (x :: xs)) ts)
    (Hc : isA TokenType.CloseBlock tc) :
  exists st : Parser,
    run eofOffset (tk :: tn :: to :: ta :: ts ++ [tc]) (new r0) = Ok st
    /\ eof_ st = true /\ depth_ st = 0 /\ values_ st = []
    /\ delegate_ st = record (CProperty k []) r0.
Proof.
  set (kd := arrayKindForKey (N:=N) (Some (VString k))).
  set (n := Datatypes.S (length xs)).
  set (m := (Z.to_nat (toInt32 count) - n)%nat).
  assert (Hsplit : Z.to_nat (toInt32 count) = (n + m)%nat) by (unfold m, n in *; lia).
  assert (Hm : replicate m (zero (N:=N)) <> []).
  { destruct m eqn:Em; [unfold n in *; lia|discriminate]. }
  eassert (Hfeed : feed (tk :: tn :: to :: ta :: ts ++ [tc]) (new r0) = Some _).
  { cbn [feed]. unfold new.
    rewrite (step_key k tk _ _ _ _ _ _ _ _ _ (new r0)) by (try assumption; reflexivity).
    cbn [eof_ delegate_ new]. rewrite (step_count count) by assumption. cbn [eof_].
    rewrite step_open_array by (try assumption; try reflexivity; cbn; lia).
    cbn [eof_]. rewrite step_key_a by (try assumption; auto).
    cbn [eof_]. rewrite feed_app.
    unfold arrayForKey, newArray. cbn [lookup list_lookup elems]. fold kd.
    rewrite Hsplit, replicate_add.
    pose proof (feed_elements_short _ _ Hts (x :: xs) eq_refl Expect.ValueOrOpen (0 + 1)
                  false 1000 kd [] (replicate n zero) (replicate m zero)
                  (Z.of_nat (length (replicate n (zero (N:=N)) ++ replicate m (zero (N:=N)))))
                  0 [VString k] r0 eq_refl) as E.
    cbn [app] in E. rewrite E; clear E;
      [|unfold n; now rewrite length_replicate|assumption|reflexivity
       |rewrite length_app; lia].
    cbn [feed].
    erewrite (step_close tc);
      [|assumption|apply closeIf_Close; lia
       |apply (flush_property true); cbn; lia].
    cbn [eof_]. reflexivity. }
  eexists. split.
  - rewrite <- (app_nil_r (tk :: _)), (run_feed _ _ _ _ _ Hfeed). reflexivity.
  - cbn. repeat split; reflexivity.
Qed.
End ShortArrays.

(** ** The tokenizer: punctuation, string literals, comments, numbers *)

Section TokenizerTokens.
Context {N : Type} `{JSNumber N}.

Import FBXTextTokenizer.

(** [skipWS] leaves the cursor on the first character that is not white
    space. *)
Lemma skipWS_at (pre ws rest : list ascii) (c : ascii) (lc : option ascii) :
  Forall (fun c => isWS c = true) ws ->
  isWS c = false ->
  skipWS (mk (pre ++ ws ++ c :: rest) (Z.of_nat (List.length pre) - 1) lc)
  = mk (pre ++ ws ++ c :: rest) (Z.of_nat (List.length pre + List.length ws)) (Some c).
Proof.
  intros Hws Hc. unfold skipWS.
  rewrite (scan_at _ _ pre ws (c :: rest)); try reflexivity.
  - eapply Forall_impl; [exact Hws|]. intros c' Hc'. simpl. now rewrite Hc'.
  - simpl. now rewrite Hc.
  - unfold rounds. cbn [source]. rewrite !length_app. lia.
Qed.

(** The first round of [nextToken] at a character that is not white
    space: the cursor is on it, inside the source. *)
Lemma nextToken_at (pre ws rest : list ascii) (c : ascii) (lc : option ascii) :
  Forall (fun c => isWS c = true) ws ->
  isWS c = false ->
  let src := pre ++ ws ++ c :: rest in
  let start := Z.of_nat (List.length pre + List.length ws) in
  let this := mk src start (Some c) in
  @nextToken N _ (mk src (Z.of_nat (List.length pre) - 1) lc)
  = if Ascii.eqb c ";" then nextToken_fuel (List.length src) (skipToLineEnd this)
    else if Ascii.eqb c "034" then
      let this1 := scan isStringEnd (rounds this) this in
      if negb (ceq (lastChar this1) "034") then
        Some (invalid this1 start (offset this1), this1)
      else
        Some (Token.mk TokenType.String start
                (vstring (str (substring src (start + 1) (offset this1)))), this1)
    else if Ascii.eqb c "," then Some (Token.mk TokenType.Comma start undefined, this)
    else if Ascii.eqb c "{" then Some (Token.mk TokenType.OpenBlock start undefined, this)
    else if Ascii.eqb c "}" then Some (Token.mk TokenType.CloseBlock start undefined, this)
    else Some (word this start (Some c)).
Proof.
  intros Hws Hc src start this. subst src start this.
  unfold nextToken. cbn [rounds nextToken_fuel source].
  rewrite skipWS_at by assumption.
  cbn [offset lastChar source ceq].
  match goal with
  | |- context [length ?t <=? ?s] => replace (length t <=? s) with false; [reflexivity|]
  end.
  symmetry. apply Z.leb_gt. unfold length. cbn [source].
  rewrite !length_app. cbn [List.length]. lia.
Qed.

(** A comma or a brace is a token of its own, with no value; the cursor
    stays on it. *)
Lemma punctuation_token (pre ws rest : list ascii) (c : ascii) (lc : option ascii)
    (ty : TokenType.t)
    (Hws : Forall (fun c => isWS c = true) ws)
    (Hc : (c, ty) = (","%char, TokenType.Comma)
          \/ (c, ty) = ("{"%char, TokenType.OpenBlock)
          \/ (c, ty) = ("}"%char, TokenType.CloseBlock)) :
  let src := pre ++ ws ++ c :: rest in
  let start := Z.of_nat (List.length pre + List.length ws) in
  @nextToken N _ (mk src (Z.of_nat (List.length pre) - 1) lc)
  = Some (Token.mk ty start undefined, mk src start (Some c)).
Proof.
  intros src start.
  destruct Hc as [E|[E|E]]; injection E as -> ->;
    unfold src, start; now rewrite nextToken_at.
Qed.
End TokenizerTokens.

(** X7.  A text whose first character after white space is a comma or a brace
    makes [parse] throw a [TypeError], whatever follows and whatever the
    delegate: the token has no value, and the parser reads [toString] of
    it to report the token as unexpected. *)
Theorem leading_punctuation_throws {N D : Type} `{JSNumber N} `{FBXParserDelegate N D}
    (ws rest : list ascii) (c : ascii) (delegate : D)
    (Hws : Forall (fun c => FBXTextTokenizer.isWS c = true) ws)
    (Hc : c = ","%char \/ c = "{"%char \/ c = "}"%char) :
  FBXTextParser.parse (N:=N) (str (ws ++ c :: rest)) delegate
  = Some (Throw (TypeError "Cannot read property 'toString' of undefined")).
Proof.
  unfold FBXTextParser.parse, FBXTextTokenizer.tokenize.
  assert (Hlen : String.length (str (ws ++ c :: rest)) = List.length (ws ++ c :: rest)).
  { unfold str. generalize (ws ++ c :: rest). intros l.
    induction l as [|a l IH]; [reflexivity|]. cbn. now rewrite IH. }
  rewrite Hlen. cbn [FBXTextTokenizer.tokens_fuel].
  unfold FBXTextTokenizer.new, chars, str.
  rewrite list_ascii_of_string_of_list_ascii.
  set (ty := if Ascii.eqb c "," then TokenType.Comma
             else if Ascii.eqb c "{" then TokenType.OpenBlock else TokenType.CloseBlock).
  pose proof (punctuation_token (N:=N) [] ws rest c None ty Hws) as Hnext.
  change (Z.of_nat (List.length (@nil ascii)) - 1) with (-1) in Hnext.
  change (List.length (@nil ascii) + List.length ws)%nat with (List.length ws) in Hnext.
  change ([] ++ ws ++ c :: rest) with (ws ++ c :: rest) in Hnext.
  rewrite Hnext by (unfold ty; destruct Hc as [-> | [-> | ->]]; cbn; auto).
  cbn [Token.type].
  replace (TokenType.eqb ty TokenType.EOF) with false
    by (unfold ty; destruct Hc as [-> | [-> | ->]]; reflexivity).
  destruct (tokens_fuel_returns (N:=N) (List.length (ws ++ c :: rest))
              (FBXTextTokenizer.mk (ws ++ c :: rest) (Z.of_nat (List.length ws)) (Some c)))
    as (toks & -> & _).
  { cbn. lia. }
  { unfold FBXTextTokenizer.length. cbn [FBXTextTokenizer.source FBXTextTokenizer.offset].
    rewrite length_app. cbn [List.length]. lia. }
  cbn [option_map FBXTextParser.run]. f_equal.
  unfold ty. destruct Hc as [-> | [-> | ->]]; reflexivity.
Qed.

Section TokenizerWords.
Context {N : Type} `{JSNumber N}.

Import FBXTextTokenizer.

(** [substring] up to the end of the string or beyond it. *)
Lemma substring_tail (pre mid : list ascii) (b : Z) :
  Z.of_nat (List.length pre + List.length mid) <= b ->
  substring (pre ++ mid) (Z.of_nat (List.length pre)) b = mid.
Proof.
  intros Hb. unfold substring. rewrite !length_app.
  rewrite Z.max_l, Z.min_l by lia. rewrite Z.max_l, Z.min_r by lia.
  rewrite !Nat2Z.id. rewrite Nat.min_l, Nat.max_r by lia.
  rewrite drop_app_length.
  apply take_ge. lia.
Qed.

(** More fuel does not change what a call of [nextToken] returns. *)
Lemma nextToken_fuel_more (fuel : nat) (this : t) (r : Token.t N * t) :
  nextToken_fuel fuel this = Some r ->
  forall fuel', (fuel <= fuel')%nat -> nextToken_fuel fuel' this = Some r.
Proof.
  revert this. induction fuel as [|fuel IH]; intros this E fuel' Hle; [discriminate|].
  destruct fuel' as [|fuel']; [lia|].
  revert E. cbn [nextToken_fuel].
  destruct (length (skipWS this) <=? offset (skipWS this)); [trivial|].
  destruct (ceq (lastChar (skipWS this)) ";"); [|trivial].
  intros E. apply (IH _ E). lia.
Qed.

(** X2.  A string literal: the characters between two double quotes on one
    line, with no escape sequences.  A literal that is cut short by the
    end of the line or of the source is an [Invalid] token, whose text
    takes in the line end. *)
Theorem string_literal_token (pre ws body rest : list ascii) (lc : option ascii)
    (Hws : Forall (fun c => isWS c = true) ws)
    (Hbody : Forall (fun c => isStringEnd c = false) body)
    (Hrest : match rest with [] => True | c :: _ => isStringEnd c = true end) :
  let src := pre ++ ws ++ "034"%char :: body ++ rest in
  let start := Z.of_nat (List.length pre + List.length ws) in
  @nextToken N _ (mk src (Z.of_nat (List.length pre) - 1) lc)
  = Some (if ceq (head rest) "034"
          then Token.mk TokenType.String start (vstring (str body))
          else Token.mk TokenType.Invalid start
                 (vstring (str ("034"%char :: body ++ take 1 rest))),
          mk src (start + 1 + Z.of_nat (List.length body)) (head rest)).
Proof.
  intros src start. unfold src, start. rewrite nextToken_at by (assumption || reflexivity).
  change (Ascii.eqb "034" ";") with false. change (Ascii.eqb "034" "034") with true.
  cbv iota.
  rewrite (scan_at _ _ (pre ++ ws ++ ["034"%char]) body rest); try assumption.
  2: { cbn [source]. now rewrite <- !(assoc_L (++)). }
  2: { cbn [offset]. rewrite !length_app. cbn [List.length]. lia. }
  2: { unfold rounds. cbn [source]. rewrite !length_app. cbn [List.length].
       rewrite length_app. lia. }
  cbv zeta. cbn [source offset lastChar].
  replace (Z.of_nat (List.length (pre ++ ws ++ ["034"%char]) + List.length body))
    with (Z.of_nat (List.length pre + List.length ws) + 1 + Z.of_nat (List.length body))
    by (rewrite !length_app; cbn [List.length]; lia).
  destruct (ceq (head rest) "034") eqn:Eq; cbn [negb]; do 2 f_equal.
  - f_equal. f_equal. f_equal.
    pose proof (substring_middle (pre ++ ws ++ ["034"%char]) body rest) as E.
    rewrite <- !(assoc_L (++)) in E. cbn [app] in E.
    etransitivity; [|exact E]. f_equal; rewrite !length_app; cbn [List.length]; lia.
  - unfold invalid. cbn [source]. f_equal. f_equal. f_equal.
    destruct rest as [|c rest].
    + cbn [take app]. rewrite app_nil_r.
      pose proof (substring_tail (pre ++ ws) ("034"%char :: body)
                    (Z.of_nat (List.length pre + List.length ws) + 1
                     + Z.of_nat (List.length body) + 1)) as E.
      rewrite <- !(assoc_L (++)) in E. rewrite length_app in E. apply E.
      cbn [List.length]. lia.
    + pose proof (substring_middle (pre ++ ws) ("034"%char :: body ++ [c]) rest) as E.
      rewrite <- !(assoc_L (++)) in E. cbn [app] in E.
      rewrite <- !(assoc_L (++)) in E. cbn [app] in E.
      cbn [take]. rewrite take_0.
      etransitivity; [|exact E]. f_equal; rewrite !length_app; cbn [List.length];
        rewrite ?length_app; cbn [List.length]; lia.
Qed.

(** X3.  A comment runs from a semicolon to the end of its line and is passed
    over: the call returns what a call returns that starts with the cursor
    on the line end (or at the end of the source). *)
Theorem comment_is_skipped (pre ws comment rest : list ascii) (lc : option ascii)
    (Hws : Forall (fun c => isWS c = true) ws)
    (Hcomment : Forall (fun c => isEOL c = false) comment)
    (Hrest : match rest with [] => True | c :: _ => isEOL c = true end) :
  let src := pre ++ ws ++ ";"%char :: comment ++ rest in
  let stop := Z.of_nat (List.length pre + List.length ws + 1 + List.length comment) in
  @nextToken N _ (mk src (Z.of_nat (List.length pre) - 1) lc)
  = nextToken (mk src stop (head rest))
  /\ exists r, @nextToken N _ (mk src stop (head rest)) = Some r.
Proof.
  intros src stop. unfold src, stop. rewrite nextToken_at by (assumption || reflexivity).
  change (Ascii.eqb ";" ";") with true. cbv iota zeta.
  unfold skipToLineEnd.
  rewrite (scan_at _ _ (pre ++ ws ++ [";"%char]) comment rest); try assumption.
  2: { cbn [source]. now rewrite <- !(assoc_L (++)). }
  2: { cbn [offset]. rewrite !length_app. cbn [List.length]. lia. }
  2: { unfold rounds. cbn [source]. rewrite !length_app. cbn [List.length].
       rewrite length_app. lia. }
  cbn [source].
  replace (List.length (pre ++ ws ++ [";"%char]) + List.length comment)%nat
    with (List.length pre + List.length ws + 1 + List.length comment)%nat
    by (rewrite !length_app; cbn [List.length]; lia).
  match goal with
  | |- nextToken_fuel ?f ?st = _ /\ _ =>
      destruct (nextToken_fuel_returns f st) as [r Hr]
  end.
  { rewrite !length_app. cbn [List.length]. lia. }
  { unfold length. cbn [source offset]. rewrite !length_app. cbn [List.length].
    rewrite length_app. lia. }
  rewrite Hr. unfold nextToken.
  rewrite (nextToken_fuel_more _ _ _ Hr) by (unfold rounds; cbn [source]; lia).
  eauto.
Qed.
End TokenizerWords.

Section TokenizerNumbers.
Context {N : Type} `{JSNumber N}.

Import FBXTextTokenizer.

(** The state in which a call of [nextToken] that meets a word leaves the
    tokenizer, whatever the word starts with, and the text of the word,
    without and with the character that ends it. *)
Lemma word_cut_plain (pre ws tok' rest : list ascii) (c0 : ascii) (lc : option ascii) :
  let src := pre ++ ws ++ (c0 :: tok') ++ rest in
  let start := Z.of_nat (List.length pre + List.length ws) in
  let stop := start + 1 + Z.of_nat (List.length tok') in
  Forall (fun c => isWS c = true) ws ->
  startsWord c0 = true ->
  Forall (fun c => isBreak c = false) tok' ->
  match rest with [] => True | c :: _ => isBreak c = true end ->
  nextToken (mk src (Z.of_nat (List.length pre) - 1) lc)
  = Some (@word N _ (mk src start (Some c0)) start (Some c0))
  /\ scan isBreak (rounds (mk src start (Some c0))) (mk src start (Some c0))
     = mk src stop (head rest)
  /\ substring src start stop = c0 :: tok'
  /\ substring src start (stop + 1) = c0 :: tok' ++ take 1 rest.
Proof.
  intros src start stop Hws Hc0 Htok Hrest.
  unfold startsWord in Hc0. rewrite negb_true_iff, !orb_false_iff in Hc0.
  destruct Hc0 as (((((Hw & H1) & H2) & H3) & H4) & H5).
  split; [|split; [|split]].
  - unfold src, start. cbn [app]. rewrite nextToken_at by assumption.
    now rewrite H1, H2, H3, H4, H5.
  - rewrite (scan_at _ _ (pre ++ ws ++ [c0]) tok' rest); try assumption.
    + cbn [source]. f_equal. unfold stop, start. rewrite !length_app. cbn [List.length]. lia.
    + unfold src. cbn [source]. now rewrite <- !(assoc_L (++)).
    + unfold start. cbn [offset]. rewrite !length_app. cbn [List.length]. lia.
    + unfold rounds, src. cbn [source]. rewrite !length_app. cbn [List.length]. lia.
  - unfold src, start, stop.
    pose proof (substring_middle (pre ++ ws) (c0 :: tok') rest) as E.
    rewrite <- !(assoc_L (++)) in E. rewrite length_app in E.
    etransitivity; [|exact E]. f_equal. cbn [List.length]. lia.
  - unfold src, start, stop. destruct rest as [|c rest].
    + cbn [take]. rewrite !app_nil_r.
      pose proof (substring_tail (pre ++ ws) (c0 :: tok')
                    (Z.of_nat (List.length pre + List.length ws) + 1
                     + Z.of_nat (List.length tok') + 1)) as E.
      rewrite <- !(assoc_L (++)) in E. rewrite length_app in E. apply E.
      cbn [List.length]. lia.
    + pose proof (substring_middle (pre ++ ws) (c0 :: tok' ++ [c]) rest) as E.
      rewrite <- !(assoc_L (++)) in E. cbn [app] in E.
      rewrite <- !(assoc_L (++)) in E. cbn [app] in E.
      cbn [take app]. rewrite take_0.
      etransitivity; [|exact E]. f_equal; rewrite !length_app; cbn [List.length];
        rewrite ?length_app; cbn [List.length]; lia.
Qed.

(** A digit or a minus sign starts a word and is no letter and no
    asterisk. *)
Lemma digit_plain (c : ascii) :
  ceq (Some c) "-" || cbetween (Some c) "0" "9" = true ->
  startsWord c = true /\ isLetter (Some c) = false /\ ceq (Some c) "*" = false.
Proof.
  destruct c as [[] [] [] [] [] [] [] []]; vm_compute; intros; try discriminate;
    repeat split; reflexivity.
Qed.

(** X4.  A word that starts with a digit or a minus sign is a [Number] token
    whose value is what [parseFloat] makes of the whole word, and an
    [Invalid] token when that is NaN.  The cursor is left on the last
    character of the word. *)
Theorem number_token (pre ws tok' rest : list ascii) (c0 : ascii) (lc : option ascii)
    (Hws : Forall (fun c => isWS c = true) ws)
    (Hc0 : ceq (Some c0) "-" || cbetween (Some c0) "0" "9" = true)
    (Htok : Forall (fun c => isBreak c = false) tok')
    (Hrest : match rest with [] => True | c :: _ => isBreak c = true end) :
  let src := pre ++ ws ++ (c0 :: tok') ++ rest in
  let start := Z.of_nat (List.length pre + List.length ws) in
  @nextToken N _ (mk src (Z.of_nat (List.length pre) - 1) lc)
  = Some (match parseFloat (str (c0 :: tok')) with
          | Some number => Token.mk TokenType.Number start (vnumber number)
          | None => Token.mk TokenType.Invalid start
                      (vstring (str (c0 :: tok' ++ take 1 rest)))
          end,
          mk src (start + Z.of_nat (List.length tok')) (head rest)).
Proof.
  intros src start.
  destruct (digit_plain c0 Hc0) as (Hplain & Hletter & Hstar).
  destruct (word_cut_plain pre ws tok' rest c0 lc Hws Hplain Htok Hrest)
    as (Hnext & Hscan & Hsub & Hsub1).
  fold src start in Hnext, Hscan, Hsub, Hsub1. rewrite Hnext. f_equal.
  unfold word, invalid. rewrite Hscan. cbn [offset source lastChar].
  rewrite Hsub, Hsub1, Hletter, Hstar.
  cbn [orb]. rewrite Hc0.
  replace (start + 1 + Z.of_nat (List.length tok') - 1)
    with (start + Z.of_nat (List.length tok')) by lia.
  destruct (parseFloat (str (c0 :: tok'))); reflexivity.
Qed.

(** X5.  A word that starts with an asterisk is an [ArrayCount] token exactly
    when what follows the asterisk is a number that is an integer and at
    least 1, and its value is that integer; it is an [Invalid] token in
    every other case, as for [*], [*0], [*-3] or [*1.5]. *)
Theorem array_count_token (pre ws tok' rest : list ascii) (lc : option ascii)
    (Hws : Forall (fun c => isWS c = true) ws)
    (Htok : Forall (fun c => isBreak c = false) tok')
    (Hrest : match rest with [] => True | c :: _ => isBreak c = true end) :
  let src := pre ++ ws ++ ("*"%char :: tok') ++ rest in
  let start := Z.of_nat (List.length pre + List.length ws) in
  let counted count :=
    tok' <> [] /\ parseFloat (str tok') = Some count
    /\ isInt32 count = true /\ 1 <= toInt32 count in
  exists token : Token.t N,
    nextToken (mk src (Z.of_nat (List.length pre) - 1) lc)
    = Some (token, mk src (start + Z.of_nat (List.length tok')) (head rest))
    /\ Token.offset token = start
    /\ (Token.type token = TokenType.ArrayCount <-> exists count, counted count)
    /\ (forall count, counted count ->
          Token.val token = vnumber (ofInt32 (toInt32 count)))
    /\ (Token.type token = TokenType.Invalid <-> ~ exists count, counted count)
    /\ (Token.type token = TokenType.Invalid ->
          Token.val token = vstring (str ("*"%char :: tok' ++ take 1 rest))).
Proof.
  intros src start counted.
  destruct (word_cut_plain pre ws tok' rest "*" lc Hws eq_refl Htok Hrest)
    as (Hnext & Hscan & Hsub & Hsub1).
  fold src start in Hnext, Hscan, Hsub, Hsub1. rewrite Hnext.
  unfold word, invalid. rewrite Hscan. cbn [offset source lastChar].
  rewrite Hsub, Hsub1.
  change (isLetter (Some "*"%char)) with false.
  change (ceq (Some "*"%char) "*") with true.
  cbn [orb List.length drop].
  replace (start + 1 + Z.of_nat (List.length tok') - 1)
    with (start + Z.of_nat (List.length tok')) by lia.
  destruct tok' as [|c tok'].
  { cbn [List.length Nat.ltb Nat.leb]. eexists. split; [reflexivity|].
    cbn [Token.offset Token.type Token.val].
    repeat split; try discriminate; try tauto.
    - intros (count & Hne & _). congruence.
    - intros count (Hne & _). congruence.
    - intros _ (count & Hne & _). congruence. }
  cbn [List.length Nat.ltb Nat.leb]. rewrite drop_0.
  destruct (parseFloat (str (c :: tok'))) as [count|] eqn:Ep.
  - destruct (negb (isInt32 count) || (toInt32 count <? 1)) eqn:Ebad.
    + eexists. split; [reflexivity|].
      cbn [Token.offset Token.type Token.val].
      assert (Hno : ~ exists count', counted count').
      { intros (count' & _ & Ep' & Hint & Hone). try rewrite Ep in Ep'.
        injection Ep' as <-. rewrite Hint in Ebad. cbn in Ebad. apply Z.ltb_lt in Ebad. lia. }
      repeat split; try discriminate; try tauto.
      intros count' Hc. destruct Hno. eauto.
    + apply orb_false_iff in Ebad as [Hint Hone].
      apply negb_false_iff in Hint. apply Z.ltb_ge in Hone.
      assert (Hyes : counted count)
        by (repeat split; try discriminate; try assumption; reflexivity).
      eexists. split; [reflexivity|].
      cbn [Token.offset Token.type Token.val].
      repeat split; try discriminate; try tauto; eauto.
      * intros count' (_ & Ep' & _). try rewrite Ep in Ep'. now injection Ep' as <-.
      * intros Hno. destruct Hno. eauto.
  - eexists. split; [reflexivity|].
    cbn [Token.offset Token.type Token.val].
    assert (Hno : ~ exists count', counted count').
    { intros (count' & _ & Ep' & _). try rewrite Ep in Ep'. discriminate. }
    repeat split; try discriminate; try tauto.
    intros count' Hc. destruct Hno. eauto.
Qed.

(** X6.  A word that starts with any other character -- not a letter, a digit,
    a minus sign or an asterisk -- is an [Invalid] token: a number cannot
    start with a plus sign or with a decimal point. *)
Theorem other_word_is_invalid (pre ws tok' rest : list ascii) (c0 : ascii)
    (lc : option ascii)
    (Hws : Forall (fun c => isWS c = true) ws)
    (Hc0 : startsWord c0 = true)
    (Hother : isLetter (Some c0) || ceq (Some c0) "*" || ceq (Some c0) "-"
              || cbetween (Some c0) "0" "9" = false)
    (Htok : Forall (fun c => isBreak c = false) tok')
    (Hrest : match rest with [] => True | c :: _ => isBreak c = true end) :
  let src := pre ++ ws ++ (c0 :: tok') ++ rest in
  let start := Z.of_nat (List.length pre + List.length ws) in
  @nextToken N _ (mk src (Z.of_nat (List.length pre) - 1) lc)
  = Some (Token.mk TokenType.Invalid start (vstring (str (c0 :: tok' ++ take 1 rest))),
          mk src (start + Z.of_nat (List.length tok')) (head rest)).
Proof.
  intros src start.
  destruct (word_cut_plain pre ws tok' rest c0 lc Hws Hc0 Htok Hrest)
    as (Hnext & Hscan & _ & Hsub1).
  fold src start in Hnext, Hscan, Hsub1. rewrite Hnext. f_equal.
  unfold word, invalid. rewrite Hscan. cbn [offset source lastChar].
  rewrite Hsub1.
  rewrite !orb_false_iff in Hother. destruct Hother as (((-> & ->) & ->) & ->).
  cbn [orb].
  replace (start + 1 + Z.of_nat (List.length tok') - 1)
    with (start + Z.of_nat (List.length tok')) by lia.
  reflexivity.
Qed.
End TokenizerNumbers.

(** ** The document graph: objects and connections *)

Section ObjectSets.

Lemma os_get_replace (id id' : Z) (r : NodeRef) (s : ObjectSet) :
  os_get id' (os_replace id r s)
  = if id' =? id then (if os_get id s is Some _ then Some r else None) else os_get id' s.
Proof.
  induction s as [|[k x] s IH]; cbn.
  - now destruct (id' =? id).
  - destruct (Z.eqb_spec k id) as [->|Hk]; cbn.
    + destruct (Z.eqb_spec id id') as [->|Hi]; [now rewrite Z.eqb_refl|].
      destruct (Z.eqb_spec id' id); [congruence|reflexivity].
    + destruct (Z.eqb_spec k id') as [->|Hi].
      * destruct (Z.eqb_spec id' id); [congruence|reflexivity].
      * exact IH.
Qed.

Lemma os_get_insertIndex (id id' : Z) (r : NodeRef) (s : ObjectSet) :
  os_get id s = None ->
  os_get id' (os_insertIndex id r s) = if id' =? id then Some r else os_get id' s.
Proof.
  induction s as [|[k x] s IH]; cbn; intros Hnone.
  - rewrite (Z.eqb_sym id id'). now destruct (id' =? id).
  - destruct (Z.eqb_spec k id) as [->|Hk]; [discriminate|].
    destruct (isArrayIndex k && (k <? id)); cbn.
    + destruct (Z.eqb_spec k id') as [->|Hi].
      * destruct (Z.eqb_spec id' id); [congruence|reflexivity].
      * now apply IH.
    + rewrite (Z.eqb_sym id id'). destruct (Z.eqb_spec id' id) as [->|Hi]; [reflexivity|].
      reflexivity.
Qed.

Lemma os_get_app (id : Z) (s t : ObjectSet) :
  os_get id (s ++ t) = if os_get id s is Some r then Some r else os_get id t.
Proof.
  induction s as [|[k x] s IH]; cbn; [reflexivity|].
  now destruct (k =? id).
Qed.

(** Reading what [set[id] = node] has written, and reading another key. *)
Lemma os_get_set (id id' : Z) (r : NodeRef) (s : ObjectSet) :
  os_get id' (os_set id r s) = if id' =? id then Some r else os_get id' s.
Proof.
  unfold os_set. destruct (os_get id s) as [x|] eqn:E.
  - rewrite os_get_replace, E. reflexivity.
  - destruct (isArrayIndex id).
    + now apply os_get_insertIndex.
    + rewrite os_get_app. cbn. rewrite (Z.eqb_sym id id').
      destruct (Z.eqb_spec id' id) as [->|Hi]; [now rewrite E|].
      now destruct (os_get id' s).
Qed.
End ObjectSets.

Section GraphObjects.

Import FBXDocumentGraph.

(** X16.  [addObject] on a node of one of the five classes, with a number as
    its id: a model that is no mesh and a video that is no clip are left
    out of the graph altogether; any other node is found under its id
    afterwards, in the map of all objects and in the set of its class, and
    every other id of every set maps to what it did before. *)
Theorem addObject_registers (r : NodeRef) (n : Node.t) (c : ObjectClass) (id : Z)
    (g : FBXDocumentGraph.t)
    (Hn : heap g !! r = Some n)
    (Hc : typeSetMap (Node.name n) = Some c)
    (Hid : Node.values n !! 0%nat = Some (VNumber id)) :
  exists g' : FBXDocumentGraph.t,
    addObject (Some r) g = Ok g'
    /\ heap g' = heap g /\ connections g' = connections g /\ globals g' = globals g
    /\ if ignoredObject n then g' = g
       else os_get id (allObjects g') = Some r
            /\ os_get id (setOf c g') = Some r
            /\ (forall id', id' <> id ->
                  os_get id' (allObjects g') = os_get id' (allObjects g))
            /\ (forall c' id', c' <> c \/ id' <> id ->
                  os_get id' (setOf c' g') = os_get id' (setOf c' g)).
Proof.
  unfold addObject, deref, ignoredObject. rewrite Hn. cbn. rewrite Hc, Hid.
  destruct c; cbn.
  all: try destruct (valueIsNot (Node.values n !! 2%nat) _);
    eexists; (split; [reflexivity|]); cbn; repeat split; try reflexivity.
  all: try (rewrite os_get_set, Z.eqb_refl; reflexivity).
  all: try (intros id' Hne; rewrite os_get_set;
            destruct (Z.eqb_spec id' id); [congruence|reflexivity]).
  all: intros c' id' Hne; destruct c'; cbn; try reflexivity;
    rewrite os_get_set; destruct (Z.eqb_spec id' id); try reflexivity;
    destruct Hne; congruence.
Qed.

(** X17.  [addConnection] between two known objects: the connection, with the
    two nodes filled in, is appended to the connections of the graph, to
    the outgoing connections of the node it comes from and to the incoming
    connections of the node it goes to -- also when the two are the same
    node.  Nothing else changes: the map of all objects, the five sets,
    the globals, the root node and the file path of the graph are what
    they were, no node is added or removed, and every node keeps its name,
    type, type name, values, children and parent.  Nothing is written to
    the console. *)
Theorem addConnection_links (conn : Connection) (g : FBXDocumentGraph.t) (f t : NodeRef)
    (Hf : os_get (fromID conn) (allObjects g) = Some f)
    (Ht : os_get (toID conn) (allObjects g) = Some t) :
  let linked := mkConnection (fromID conn) (Some f) (toID conn) (Some t) (propName conn) in
  exists g' : FBXDocumentGraph.t,
    addConnection conn g = mkEff [] (Ok g')
    /\ connections g' = connections g ++ [linked]
    /\ allObjects g' = allObjects g
    /\ (forall c : ObjectClass, setOf c g' = setOf c g)
    /\ globals g' = globals g
    /\ rootNode g' = rootNode g
    /\ fbxFilePath g' = fbxFilePath g
    /\ length (heap g') = length (heap g)
    /\ (forall r : NodeRef,
          Node.connectionsOut <$> heap g' !! r
          = (fun n => if decide (r = f) then Node.connectionsOut n ++ [linked]
                      else Node.connectionsOut n) <$> heap g !! r)
    /\ (forall r : NodeRef,
          Node.connectionsIn <$> heap g' !! r
          = (fun n => if decide (r = t) then Node.connectionsIn n ++ [linked]
                      else Node.connectionsIn n) <$> heap g !! r)
    /\ (forall r : NodeRef,
          (fun n => (Node.name n, Node.type n, Node.typeName n, Node.values n,
                     Node.children n, Node.parent n))
            <$> heap g' !! r
          = (fun n => (Node.name n, Node.type n, Node.typeName n, Node.values n,
                       Node.children n, Node.parent n))
              <$> heap g !! r).
Proof.
  intros linked. unfold addConnection. cbn [fromNode toNode]. rewrite Hf, Ht.
  eexists. split; [reflexivity|].
  cbn [connections allObjects heap globals rootNode fbxFilePath].
  split; [reflexivity|]. split; [reflexivity|].
  split; [intros []; reflexivity|].
  split; [reflexivity|]. split; [reflexivity|]. split; [reflexivity|].
  split; [now rewrite !length_alter|].
  fold linked.
  assert (Hlook : forall r : NodeRef,
            alter (Node.push_connectionIn linked) t
              (alter (Node.push_connectionOut linked) f (heap g)) !! r
            = (fun n => (if decide (r = t) then Node.push_connectionIn linked else id)
                          ((if decide (r = f) then Node.push_connectionOut linked else id) n))
                <$> heap g !! r).
  { intros r. rewrite !list_lookup_alter.
    repeat case_decide; subst; try congruence; now destruct (heap g !! _). }
  repeat split; intros r; rewrite Hlook;
    (destruct (heap g !! r) as [n|]; [|reflexivity]);
    cbn; repeat case_decide; reflexivity.
Qed.
End GraphObjects.

(** ** Nodes *)

Section Nodes.

(** X18.  [appendChild] makes the node the last child of its new parent and
    sets its parent, changes no other node, and can be done only once for
    a node: every later attempt to append the node, to whatever parent,
    fails the assertion that a node is not re-parented. *)
Theorem appendChild_once (p c : NodeRef) (h h' : Heap)
    (Hpc : p <> c)
    (Happ : appendChild p c h = Ok h') :
  exists nc : Node.t,
    h !! c = Some nc
    /\ Node.parent nc = None
    /\ h' !! c = Some (Node.set_parent (Some p) nc)
    /\ h' !! p = Node.push_child c <$> h !! p
    /\ (forall r : NodeRef, r <> p -> r <> c -> h' !! r = h !! r)
    /\ length h' = length h
    /\ forall q : NodeRef,
         appendChild q c h' = Throw (AssertionFailed "Can't re-parent a Node").
Proof.
  revert Happ. unfold appendChild, deref.
  destruct (h !! c) as [nc|] eqn:Hc; cbn; [|discriminate].
  destruct (Node.parent nc) eqn:Hparent; cbn; [discriminate|].
  intros [= <-]. exists nc.
  assert (Hlook : forall r : NodeRef,
            alter (Node.push_child c) p (alter (Node.set_parent (Some p)) c h) !! r
            = if decide (r = p) then Node.push_child c <$> h !! r
              else if decide (r = c) then Node.set_parent (Some p) <$> h !! r
              else h !! r).
  { intros r. rewrite !list_lookup_alter.
    repeat case_decide; subst; try congruence; reflexivity. }
  split; [reflexivity|]. split; [exact Hparent|].
  split; [rewrite Hlook; repeat case_decide; try congruence; now rewrite Hc|].
  split; [rewrite Hlook; now rewrite decide_True by reflexivity|].
  split; [intros r Hrp Hrc; rewrite Hlook; now repeat case_decide|].
  split; [now rewrite !length_alter|].
  intros q. rewrite Hlook. repeat case_decide; try congruence. rewrite Hc. reflexivity.
Qed.

(** [s.split(sep)] gives back the two parts of a name that is written as
    class, two colons, name, when neither part holds a colon. *)
Lemma splitColons_pair (cls name : list ascii) (cur : list ascii) :
  Forall (fun c => c <> ":"%char) cls ->
  Forall (fun c => c <> ":"%char) name ->
  Node.splitColons (cls ++ ":"%char :: ":"%char :: name) cur
  = [rev cur ++ cls; name].
Proof.
  intros Hcls Hname. revert cur. induction Hcls as [|c cls Hc Hcls IH]; intros cur.
  - cbn. rewrite app_nil_r. f_equal.
    clear -Hname. assert (Hgen : forall cur', Node.splitColons name cur' = [rev cur' ++ name]).
    { induction Hname as [|c name Hc Hname IH]; intros cur'.
      - cbn. now rewrite app_nil_r.
      - cbn [Node.splitColons]. destruct name as [|c' name].
        + cbn. reflexivity.
        + replace (Ascii.eqb c ":") with false by (symmetry; now apply Ascii.eqb_neq).
          cbn [andb]. rewrite IH. cbn [rev]. now rewrite <- (assoc_L (++)). }
    exact (Hgen []).
  - cbn [app Node.splitColons].
    destruct (cls ++ ":"%char :: ":"%char :: name) as [|c' rest] eqn:E.
    { destruct cls; discriminate. }
    replace (Ascii.eqb c ":") with false by (symmetry; now apply Ascii.eqb_neq).
    cbn [andb]. rewrite IH. cbn [rev]. now rewrite <- (assoc_L (++)).
Qed.

Lemma splitColons_none (s cur : list ascii) :
  Forall (fun c => c <> ":"%char) s -> Node.splitColons s cur = [rev cur ++ s].
Proof.
  intros Hs. revert cur. induction Hs as [|c s Hc Hs IH]; intros cur.
  - cbn. now rewrite app_nil_r.
  - cbn [Node.splitColons]. destruct s as [|c' s].
    + reflexivity.
    + replace (Ascii.eqb c ":") with false by (symmetry; now apply Ascii.eqb_neq).
      cbn [andb]. rewrite IH. cbn [rev]. now rewrite <- (assoc_L (++)).
Qed.

(** X19.  [objectName()] of a node whose second value is written as class, two
    colons, name -- neither of which holds a colon -- is the name; it is
    [undefined] when the value holds no colon at all, and reading it throws
    when the node has no second value or one that is no string. *)
Theorem objectName_splits (n : Node.t) :
  (forall cls name : list ascii,
      Forall (fun c => c <> ":"%char) cls ->
      Forall (fun c => c <> ":"%char) name ->
      Node.values n !! 1%nat = Some (VString (str (cls ++ ":"%char :: ":"%char :: name))) ->
      Node.objectName n = Ok (Some (str name)))
  /\ (forall s : list ascii,
        Forall (fun c => c <> ":"%char) s ->
        Node.values n !! 1%nat = Some (VString (str s)) ->
        Node.objectName n = Ok None)
  /\ ((forall s, Node.values n !! 1%nat <> Some (VString s)) ->
      exists e, Node.objectName n = Throw e).
Proof.
  unfold Node.objectName. split; [|split].
  - intros cls name Hcls Hname ->. unfold chars, str.
    rewrite list_ascii_of_string_of_list_ascii, splitColons_pair by assumption.
    reflexivity.
  - intros s Hs ->. unfold chars, str.
    rewrite list_ascii_of_string_of_list_ascii, splitColons_none by assumption.
    reflexivity.
  - intros Hno. destruct (Node.values n !! 1%nat) as [[| s | |]|]; eauto.
    destruct (Hno s eq_refl).
Qed.
End Nodes.

(** ** The passes of resolve *)

Section Passes.
Context {Image TexDesc : Type} `{Platform Image TexDesc}.

Import FBXDocumentGraph.

Lemma outcome_bind {A B} (m : Eff A) (k : A -> Eff B) :
  outcome (m ≫= k) = outcome m ≫= (fun a => outcome (k a)).
Proof.
  unfold mbind at 1, Eff_bind. destruct (outcome m); reflexivity.
Qed.

(** What every round of a loop keeps, the loop keeps. *)
Lemma forOf_keeps {A S} (P : S -> Prop) (body : A -> S -> Eff S) (xs : list A) (s s' : S) :
  (forall x s s', outcome (body x s) = Ok s' -> P s -> P s') ->
  outcome (forOf xs body s) = Ok s' -> P s -> P s'.
Proof.
  intros Hbody. revert s. induction xs as [|x xs IH]; intros s; cbn [forOf].
  - now intros [= <-].
  - rewrite outcome_bind. destruct (outcome (body x s)) as [s1|] eqn:E; cbn; [|discriminate].
    intros E2 HP. apply (IH _ E2). now apply (Hbody x s).
Qed.

(** A loop that appends one element per round. *)
Lemma forOf_appends {A B S} (item : A -> B -> Prop) (get : S -> list B)
    (body : A -> S -> Eff S) (xs : list A) (s s' : S) :
  (forall x s s', outcome (body x s) = Ok s' -> exists b, get s' = get s ++ [b] /\ item x b) ->
  outcome (forOf xs body s) = Ok s' ->
  exists bs, get s' = get s ++ bs /\ Forall2 item xs bs.
Proof.
  intros Hbody. revert s. induction xs as [|x xs IH]; intros s; cbn [forOf].
  - intros [= <-]. exists []. rewrite app_nil_r. split; [reflexivity|constructor].
  - rewrite outcome_bind. destruct (outcome (body x s)) as [s1|] eqn:E; cbn; [|discriminate].
    intros E2. destruct (Hbody _ _ _ E) as (b & Hb & Hitem).
    destruct (IH _ E2) as (bs & Hbs & Hitems).
    exists (b :: bs). rewrite Hbs, Hb, <- (assoc_L (++)). split; [reflexivity|].
    now constructor.
Qed.

Lemma videoChild_userRef (h : Heap) (cref : NodeRef)
    (acc acc' : Texture2D TexDesc * option (FBXValue Z)) :
  outcome (videoChild h cref acc) = Ok acc' -> tex_userRef (fst acc') = tex_userRef (fst acc).
Proof.
  destruct acc as [tex fileData]. unfold videoChild. rewrite outcome_bind.
  cbn [quiet outcome]. destruct (deref h (Some cref)) as [c|]; cbn [mbind Result_bind];
    [|discriminate].
  destruct (String.eqb (Node.name c) "UseMipMap").
  { rewrite outcome_bind. cbn [quiet outcome].
    destruct (asNumber _ _); cbn [mbind Result_bind]; [|discriminate]. now intros [= <-]. }
  destruct (String.eqb (Node.name c) "RelativeFilename").
  { rewrite outcome_bind. cbn [quiet outcome].
    destruct (Node.values c !! 0%nat) as [[]|]; cbn [mbind Result_bind];
      try discriminate; now intros [= <-]. }
  destruct (String.eqb (Node.name c) "Content"); now intros [= <-].
Qed.

(** The texture that the promise for a Video node fulfills with refers to
    the node by its id. *)
Lemma textureOf_userRef (this : FBXDocumentGraph.t) (options : FBXResolveOptions) (vidID : Z)
    (tex : Texture2D TexDesc) :
  outcome (textureOf this options vidID) = Ok (Fulfilled (Some tex)) ->
  tex_userRef tex = vidID.
Proof.
  unfold textureOf. rewrite outcome_bind. cbn [quiet outcome].
  destruct (deref _ _) as [fbxVideo|]; cbn [mbind Result_bind]; [|discriminate].
  rewrite outcome_bind. cbn [quiet outcome].
  destruct (Node.objectName fbxVideo) as [name|]; cbn [mbind Result_bind]; [|discriminate].
  rewrite outcome_bind.
  destruct (outcome (forOf _ _ _)) as [[tex' fileData]|] eqn:E; cbn [mbind Result_bind];
    [|discriminate].
  assert (Href : tex_userRef tex' = vidID).
  { apply (forOf_keeps (fun acc => tex_userRef (fst acc) = vidID)) in E; [exact E| |reflexivity].
    intros x s s' Hs Hp. apply videoChild_userRef in Hs. congruence. }
  unfold missing.
  repeat match goal with
         | |- context [if ?b then _ else _] => destruct b; cbn
         | |- context [match ?x with _ => _ end] => destruct x; cbn
         end;
    try discriminate; intros [= <-]; exact Href.
Qed.

Lemma promiseAll_fulfilled {A} (ps : list (Settled A)) (vs : list A) :
  promiseAll ps = Fulfilled vs -> ps = map Fulfilled vs.
Proof.
  revert vs. induction ps as [|[a|r] ps IH]; intros vs; cbn.
  - now intros [= <-].
  - destruct (promiseAll ps) as [l|]; [|discriminate].
    intros [= <-]. cbn. f_equal. now apply IH.
  - discriminate.
Qed.

(** X20.  When [loadTextures] fulfills with a group, it has appended to the
    textures of the group exactly one entry for each Video node, in the
    order of the keys: the texture that refers to the node, or [null] in
    its place.  The other collections of the group are as they were. *)
Theorem loadTextures_one_per_video (this : FBXDocumentGraph.t)
    (group group' : AssetGroup TexDesc) (options : FBXResolveOptions)
    (Hload : outcome (loadTextures this group options) = Ok (Fulfilled (Some group'))) :
  exists texs : list (option (Texture2D TexDesc)),
    textures group' = textures group ++ texs
    /\ Forall2 (fun vidID tex => if tex is Some t then tex_userRef t = vidID else True)
               (os_keys (videoNodes this)) texs
    /\ materials group' = materials group
    /\ meshes group' = meshes group
    /\ models group' = models group.
Proof.
  revert Hload. unfold loadTextures. rewrite outcome_bind.
  destruct (outcome (forOf _ _ _)) as [fileProms|] eqn:E; cbn [mbind Result_bind];
    [|discriminate].
  apply (forOf_appends
           (fun vidID p => outcome (textureOf this options vidID) = Ok p) (fun s => s)) in E.
  2: { intros x s s'. rewrite outcome_bind.
       destruct (outcome (textureOf this options x)) as [p|]; cbn [mbind Result_bind];
         [|discriminate].
       intros [= <-]. eauto. }
  destruct E as (proms & -> & Hproms). cbn [app].
  destruct (promiseAll proms) as [texs|] eqn:Eall; cbn; [|discriminate].
  intros [= <-]. apply promiseAll_fulfilled in Eall. subst proms.
  exists texs.
  assert (Hfold : forall (l : list (option (Texture2D TexDesc))) g,
            textures (foldl (fun g tex => addTexture tex g) g l) = textures g ++ l
            /\ materials (foldl (fun g tex => addTexture tex g) g l) = materials g
            /\ meshes (foldl (fun g tex => addTexture tex g) g l) = meshes g
            /\ models (foldl (fun g tex => addTexture tex g) g l) = models g).
  { induction l as [|t l IH]; intros g; cbn [foldl].
    - now rewrite app_nil_r.
    - destruct (IH (addTexture t g)) as (-> & -> & -> & ->). cbn.
      now rewrite <- (assoc_L (++)). }
  destruct (Hfold texs group) as (-> & -> & -> & ->).
  repeat split; try reflexivity.
  apply Forall2_fmap_r in Hproms.
  eapply Forall2_impl; [exact Hproms|]. cbn. intros vidID [tex|] Htex; [|exact I].
  now apply textureOf_userRef in Htex.
Qed.
End Passes.

Section BuildPasses.
Context {Image TexDesc : Type} `{Platform Image TexDesc}.

Import FBXDocumentGraph.

Local Abbreviation Group := (AssetGroup TexDesc).

Local Ltac bind_ok :=
  rewrite outcome_bind; cbn [quiet outcome];
  match goal with
  | |- context [mbind _ ?r] =>
      let E := fresh "E" in
      destruct r eqn:E; cbn [mbind Result_bind]; [|discriminate]
  end.

Lemma materialChild_userRef (h : Heap) (cref : NodeRef) (mat mat' : Material TexDesc) :
  outcome (materialChild h cref mat) = Ok mat' -> mat_userRef mat' = mat_userRef mat.
Proof.
  unfold materialChild. bind_ok.
  repeat match goal with
         | |- context [if ?b then _ else _] => destruct b
         end; now intros [= <-].
Qed.

Lemma textureChild_userRef (h : Heap) (cref : NodeRef) (mat mat' : Material TexDesc) :
  outcome (textureChild h cref mat) = Ok mat' -> mat_userRef mat' = mat_userRef mat.
Proof.
  unfold textureChild. bind_ok.
  repeat match goal with
         | |- context [if ?b then _ else _] => destruct b
         end; now intros [= <-].
Qed.

(** What a round of [buildMaterials] does to the group. *)
Lemma materialOf_adds (this : FBXDocumentGraph.t) (matID : Z) (group group' : option Group) :
  outcome (materialOf this matID group) = Ok group' ->
  exists g mat, group = Some g /\ group' = Some (addMaterial mat g)
                /\ mat_userRef mat = Some matID.
Proof.
  unfold materialOf. bind_ok. bind_ok.
  rewrite outcome_bind.
  destruct (outcome (forOf _ _ _)) as [mat1|] eqn:Hm1; cbn [mbind Result_bind];
    [|discriminate].
  apply (forOf_keeps (fun m => mat_userRef m = Some matID)) in Hm1;
    [| intros x s s' Hs Hp; apply materialChild_userRef in Hs; congruence | reflexivity].
  rewrite outcome_bind.
  match goal with
  | |- context [mbind _ (outcome ?m)] =>
      destruct (outcome m) as [mat2|] eqn:Hm2; cbn [mbind Result_bind]; [|discriminate]
  end.
  assert (Href : mat_userRef mat2 = Some matID).
  { revert Hm2. destruct (Node.connectionsIn _) as [|conn0 conns].
    - now intros [= <-].
    - bind_ok. bind_ok. bind_ok.
      destruct (findTexture _ _) as [tex2D|].
      + intros Hm2.
        apply (forOf_keeps (fun m => mat_userRef m = Some matID)) in Hm2;
          [exact Hm2| |exact Hm1].
        intros x s s' Hs Hp. apply textureChild_userRef in Hs. congruence.
      + rewrite outcome_bind. cbn. now intros [= <-]. }
  bind_ok. intros [= <-].
  destruct group as [g|]; [|discriminate]. cbn in *.
  match goal with E : Ok _ = Ok _ |- _ => injection E as <- end.
  eauto.
Qed.

(** X21.  When [buildMaterials] returns, it has appended to the materials of
    the group exactly one material for each Material node, in the order of
    the keys, each referring to its node by the key; the other collections
    of the group are as they were. *)
Theorem buildMaterials_one_per_node (this : FBXDocumentGraph.t) (g : Group)
    (group' : option Group) (options : FBXResolveOptions)
    (Hbuild : outcome (buildMaterials this (Some g) options) = Ok group') :
  exists (g' : Group) (mats : list (Material TexDesc)),
    group' = Some g'
    /\ materials g' = materials g ++ mats
    /\ Forall2 (fun matID mat => mat_userRef mat = Some matID)
               (os_keys (materialNodes this)) mats
    /\ textures g' = textures g
    /\ meshes g' = meshes g
    /\ models g' = models g.
Proof.
  unfold buildMaterials in Hbuild.
  pose proof Hbuild as Hkeep.
  apply (forOf_keeps (fun s : option Group =>
           exists g1, s = Some g1 /\ textures g1 = textures g
                      /\ meshes g1 = meshes g /\ models g1 = models g)) in Hkeep.
  - destruct Hkeep as (g' & -> & Ht & Hm & Hmo).
    apply (forOf_appends (fun matID mat => mat_userRef mat = Some matID)
             (fun s : option Group => if s is Some g1 then materials g1 else [])) in Hbuild.
    + destruct Hbuild as (mats & Hmats & Hall). exists g', mats. cbn in Hmats. auto 10.
    + intros x s s' Hs. destruct (materialOf_adds _ _ _ _ Hs) as (g1 & mat & -> & -> & Href).
      exists mat. cbn. auto.
  - intros x s s' Hs (g1 & -> & Ht & Hm & Hmo).
    destruct (materialOf_adds _ _ _ _ Hs) as (g2 & mat & [= <-] & -> & _).
    eexists. split; [reflexivity|]. cbn. auto.
  - eauto.
Qed.
End BuildPasses.

Section BuildPasses2.
Context {Image TexDesc : Type} `{Platform Image TexDesc}.

Import FBXDocumentGraph.

Local Abbreviation Group := (AssetGroup TexDesc).

Local Ltac bind_ok :=
  rewrite outcome_bind; cbn [quiet outcome];
  match goal with
  | |- context [mbind _ ?r] =>
      let E := fresh "E" in
      destruct r eqn:E; cbn [mbind Result_bind]; [|discriminate]
  end.

Lemma geometryChild_keeps (this : FBXDocumentGraph.t) (cref : NodeRef)
    (acc acc' : Mesh * option (FBXValue Z)) :
  outcome (geometryChild this cref acc) = Ok acc' ->
  mesh_name (fst acc') = mesh_name (fst acc)
  /\ mesh_userRef (fst acc') = mesh_userRef (fst acc).
Proof.
  destruct acc as [sdMesh polygonIndexes]. unfold geometryChild. bind_ok.
  destruct (String.eqb (Node.name _) "Vertices"); [now intros [= <-]|].
  destruct (String.eqb (Node.name _) "PolygonVertexIndex"); [now intros [= <-]|].
  destruct (_ || _); [|now intros [= <-]].
  bind_ok. destruct (_ =? 0).
  - rewrite outcome_bind.
    destruct (outcome (makeLayerElementStream _ _)); cbn [mbind Result_bind];
      [|discriminate].
    now intros [= <-].
  - rewrite outcome_bind. cbn. now intros [= <-].
Qed.

(** What a round of [buildMeshes] does to the group. *)
Lemma meshOf_adds (this : FBXDocumentGraph.t) (geomID : Z) (group group' : option Group) :
  outcome (meshOf this geomID group) = Ok group' ->
  exists g m n,
    group = Some g /\ group' = Some (addMesh m g)
    /\ deref (heap this) (os_get geomID (geometryNodes this)) = Ok n
    /\ Node.objectName n = Ok (mesh_name m)
    /\ mesh_userRef m = Node.values n !! 0%nat
    /\ is_Some (meshData m).
Proof.
  unfold meshOf. bind_ok. bind_ok.
  rewrite outcome_bind.
  destruct (outcome (forOf _ _ _)) as [[sdMesh polygonIndexes]|] eqn:Hloop;
    cbn [mbind Result_bind]; [|discriminate].
  apply (forOf_keeps (fun acc => mesh_name (fst acc) = a0
                                 /\ mesh_userRef (fst acc) = Node.values a !! 0%nat))
    in Hloop; [| |split; reflexivity].
  2: { intros x s s' Hs [Hp1 Hp2]. apply geometryChild_keeps in Hs as [-> ->]. auto. }
  destruct Hloop as [Hname Href]. cbn [fst] in Hname, Href.
  bind_ok. bind_ok. intros [= <-].
  destruct group as [g|]; [|discriminate].
  match goal with E : theGroup _ = Ok _ |- _ => cbn in E; injection E as <- end.
  eexists _, _, a. repeat split; try reflexivity; cbn; try assumption.
  - now rewrite Hname.
  - eauto.
Qed.

(** X22.  When [buildMeshes] returns, it has appended to the meshes of the
    group exactly one mesh for each Geometry node, in the order of the
    keys: the mesh is named after the node, refers to it by the first value
    of the node, and has its mesh data built.  The other collections of the
    group are as they were. *)
Theorem buildMeshes_one_per_node (this : FBXDocumentGraph.t) (g : Group)
    (group' : option Group) (options : FBXResolveOptions)
    (Hbuild : outcome (buildMeshes this (Some g) options) = Ok group') :
  exists (g' : Group) (ms : list Mesh),
    group' = Some g'
    /\ meshes g' = meshes g ++ ms
    /\ Forall2 (fun geomID m =>
                  exists n, deref (heap this) (os_get geomID (geometryNodes this)) = Ok n
                            /\ Node.objectName n = Ok (mesh_name m)
                            /\ mesh_userRef m = Node.values n !! 0%nat
                            /\ is_Some (meshData m))
               (os_keys (geometryNodes this)) ms
    /\ textures g' = textures g
    /\ materials g' = materials g
    /\ models g' = models g.
Proof.
  unfold buildMeshes in Hbuild.
  pose proof Hbuild as Hkeep.
  apply (forOf_keeps (fun s : option Group =>
           exists g1, s = Some g1 /\ textures g1 = textures g
                      /\ materials g1 = materials g /\ models g1 = models g)) in Hkeep.
  - destruct Hkeep as (g' & -> & Ht & Hm & Hmo).
    apply (forOf_appends
             (fun geomID m =>
                exists n, deref (heap this) (os_get geomID (geometryNodes this)) = Ok n
                          /\ Node.objectName n = Ok (mesh_name m)
                          /\ mesh_userRef m = Node.values n !! 0%nat
                          /\ is_Some (meshData m))
             (fun s : option Group => if s is Some g1 then meshes g1 else [])) in Hbuild.
    + destruct Hbuild as (ms & Hms & Hall). exists g', ms. cbn in Hms. auto 10.
    + intros x s s' Hs.
      destruct (meshOf_adds _ _ _ _ Hs) as (g1 & m & n & -> & -> & Hn & Hname & Href & Hd).
      exists m. cbn. eauto 10.
  - intros x s s' Hs (g1 & -> & Ht & Hm & Hmo).
    destruct (meshOf_adds _ _ _ _ Hs) as (g2 & m & n & [= <-] & -> & _).
    eexists. split; [reflexivity|]. cbn. auto.
  - eauto.
Qed.

Lemma modelChild_keeps (h : Heap) (cref : NodeRef) (m m' : Model TexDesc) :
  outcome (modelChild h cref m) = Ok m' ->
  model_name m' = model_name m /\ model_userRef m' = model_userRef m.
Proof.
  unfold modelChild. bind_ok.
  repeat match goal with
         | |- context [if ?b then _ else _] => destruct b
         end; now intros [= <-].
Qed.

Lemma modelConnection_keeps (this : FBXDocumentGraph.t) (group : option Group)
    (conn : Connection) (m m' : Model TexDesc) :
  outcome (modelConnection this group conn m) = Ok m' ->
  model_name m' = model_name m /\ model_userRef m' = model_userRef m.
Proof.
  unfold modelConnection. bind_ok.
  destruct (String.eqb _ "Geometry").
  { bind_ok. destruct (List.find _ _).
    - now intros [= <-].
    - rewrite outcome_bind. cbn. now intros [= <-]. }
  destruct (String.eqb _ "Material").
  { bind_ok. destruct (List.find _ _).
    - now intros [= <-].
    - rewrite outcome_bind. cbn. now intros [= <-]. }
  now intros [= <-].
Qed.

(** What a round of [buildModels] does to the group. *)
Lemma modelOf_adds (this : FBXDocumentGraph.t) (modelID : Z) (group group' : option Group) :
  outcome (modelOf this modelID group) = Ok group' ->
  exists g m n,
    group = Some g /\ group' = Some (addModel m g)
    /\ deref (heap this) (os_get modelID (modelNodes this)) = Ok n
    /\ Node.objectName n = Ok (model_name m)
    /\ model_userRef m = Node.values n !! 0%nat.
Proof.
  unfold modelOf. bind_ok. bind_ok.
  rewrite outcome_bind.
  destruct (outcome (forOf _ _ _)) as [m1|] eqn:Hloop1; cbn [mbind Result_bind];
    [|discriminate].
  apply (forOf_keeps (fun m => model_name m = a0
                               /\ model_userRef m = Node.values a !! 0%nat))
    in Hloop1; [| |split; reflexivity].
  2: { intros x s s' Hs [Hp1 Hp2]. apply modelChild_keeps in Hs as [-> ->]. auto. }
  rewrite outcome_bind.
  destruct (outcome (forOf _ _ _)) as [m2|] eqn:Hloop2; cbn [mbind Result_bind];
    [|discriminate].
  apply (forOf_keeps (fun m => model_name m = a0
                               /\ model_userRef m = Node.values a !! 0%nat))
    in Hloop2; [| |exact Hloop1].
  2: { intros x s s' Hs [Hp1 Hp2]. apply modelConnection_keeps in Hs as [-> ->]. auto. }
  destruct Hloop2 as [Hname Href].
  bind_ok. intros [= <-].
  destruct group as [g|]; [|discriminate].
  match goal with E : theGroup _ = Ok _ |- _ => cbn in E; injection E as <- end.
  eexists _, _, a. repeat split; try reflexivity; try assumption.
  now rewrite Hname.
Qed.

(** X23.  When [buildModels] returns, it has appended to the models of the
    group exactly one model for each Model node, in the order of the keys:
    the model is named after the node and refers to it by the first value
    of the node.  The other collections of the group are as they were. *)
Theorem buildModels_one_per_node (this : FBXDocumentGraph.t) (g : Group)
    (group' : option Group) (options : FBXResolveOptions)
    (Hbuild : outcome (buildModels this (Some g) options) = Ok group') :
  exists (g' : Group) (ms : list (Model TexDesc)),
    group' = Some g'
    /\ models g' = models g ++ ms
    /\ Forall2 (fun modelID m =>
                  exists n, deref (heap this) (os_get modelID (modelNodes this)) = Ok n
                            /\ Node.objectName n = Ok (model_name m)
                            /\ model_userRef m = Node.values n !! 0%nat)
               (os_keys (modelNodes this)) ms
    /\ textures g' = textures g
    /\ materials g' = materials g
    /\ meshes g' = meshes g.
Proof.
  unfold buildModels in Hbuild.
  pose proof Hbuild as Hkeep.
  apply (forOf_keeps (fun s : option Group =>
           exists g1, s = Some g1 /\ textures g1 = textures g
                      /\ materials g1 = materials g /\ meshes g1 = meshes g)) in Hkeep.
  - destruct Hkeep as (g' & -> & Ht & Hm & Hmo).
    apply (forOf_appends
             (fun modelID m =>
                exists n, deref (heap this) (os_get modelID (modelNodes this)) = Ok n
                          /\ Node.objectName n = Ok (model_name m)
                          /\ model_userRef m = Node.values n !! 0%nat)
             (fun s : option Group => if s is Some g1 then models g1 else [])) in Hbuild.
    + destruct Hbuild as (ms & Hms & Hall). exists g', ms. cbn in Hms. auto 10.
    + intros x s s' Hs.
      destruct (modelOf_adds _ _ _ _ Hs) as (g1 & m & n & -> & -> & Hn & Hname & Href).
      exists m. cbn. eauto 10.
  - intros x s s' Hs (g1 & -> & Ht & Hm & Hmo).
    destruct (modelOf_adds _ _ _ _ Hs) as (g2 & m & n & [= <-] & -> & _).
    eexists. split; [reflexivity|]. cbn. auto.
  - eauto.
Qed.
End BuildPasses2.

(** ** The polygon scan: every entry is kept *)

Section PolygonScan.

Import FBXDocumentGraph.

(** The scan from any of its states: the committed polygons followed by
    the polygon that is being collected hold, in order, the positions and
    the decoded entries of the whole array; the polygon being collected is
    empty after a negative entry; and the two lists of a polygon are of the
    same length. *)
Lemma scanPolygons_all (indexes : list Z) :
  forall pvi pa va mb,
    length pa = length va ->
    Forall (fun p => length (fst p) = length (snd p)) (polygons mb) ->
    exists pa' va',
      concat (map fst (polygons (scanPolygons indexes pvi pa va mb))) ++ pa'
      = concat (map fst (polygons mb)) ++ pa ++ seqZ pvi (Z.of_nat (length indexes))
      /\ concat (map snd (polygons (scanPolygons indexes pvi pa va mb))) ++ va'
         = concat (map snd (polygons mb)) ++ va ++ map decodedIndex indexes
      /\ (closedIndexes indexes -> indexes <> [] -> pa' = [] /\ va' = [])
      /\ (indexes = [] -> pa' = pa /\ va' = va)
      /\ Forall (fun p => length (fst p) = length (snd p))
                (polygons (scanPolygons indexes pvi pa va mb)).
Proof.
  induction indexes as [|vi indexes IH]; intros pvi pa va mb Hlen Hmb.
  - exists pa, va. cbn. rewrite !app_nil_r. repeat split; try assumption; congruence.
  - cbn [scanPolygons length map].
    rewrite Nat2Z.inj_succ, seqZ_cons by lia.
    replace (Z.pred (Z.succ (Z.of_nat (length indexes)))) with (Z.of_nat (length indexes))
      by lia.
    unfold decodedIndex at 1.
    destruct (vi <? 0) eqn:Evi.
    + destruct (IH (pvi + 1) [] [] (addPolygon (pa ++ [pvi]) (va ++ [Z.lnot vi]) mb))
        as (pa' & va' & H1 & H2 & H3 & H4 & H5).
      { reflexivity. }
      { cbn [addPolygon polygons]. apply Forall_app. split; [assumption|].
        repeat constructor. cbn. rewrite !length_app. cbn. lia. }
      exists pa', va'. cbn [addPolygon polygons] in H1, H2.
      rewrite !map_app, !concat_app in H1, H2. cbn in H1, H2.
      rewrite !app_nil_r in H1, H2.
      rewrite H1, H2, <- !(assoc_L (++)). cbn [app]. replace (Z.succ pvi) with (pvi + 1) by lia.
      split; [reflexivity|]. split; [reflexivity|].
      split; [|split; [discriminate|assumption]].
      intros Hclosed _. destruct indexes as [|vi' indexes];
        [destruct H4; auto|apply H3; [exact Hclosed|discriminate]].
    + destruct (IH (pvi + 1) (pa ++ [pvi]) (va ++ [vi]) mb)
        as (pa' & va' & H1 & H2 & H3 & H4 & H5).
      { rewrite !length_app. cbn. lia. }
      { assumption. }
      exists pa', va'.
      rewrite H1, H2, <- !(assoc_L (++)). cbn [app]. replace (Z.succ pvi) with (pvi + 1) by lia.
      split; [reflexivity|]. split; [reflexivity|].
      split; [|split; [discriminate|assumption]].
      intros Hclosed _. destruct indexes as [|vi' indexes];
        [cbn in Hclosed; apply Z.ltb_ge in Evi; lia
        |apply H3; [exact Hclosed|discriminate]].
Qed.

(** X24.  The scan keeps every entry of an array that does not end inside a
    polygon: the polygons it commits hold, one after the other, every
    position of the array once, in order, and at each position the decoded
    entry; the two lists of every polygon are of the same length. *)
Theorem polygon_scan_keeps_every_index (indexes : list Z) (mb : MeshBuilder)
    (Hnew : polygons mb = [])
    (Hclosed : closedIndexes indexes) :
  let committed := polygons (scanPolygons indexes 0 [] [] mb) in
  concat (map fst committed) = seqZ 0 (Z.of_nat (length indexes))
  /\ concat (map snd committed) = map decodedIndex indexes
  /\ Forall (fun p => length (fst p) = length (snd p)) committed.
Proof.
  intros committed.
  destruct (scanPolygons_all indexes 0 [] [] mb eq_refl)
    as (pa' & va' & H1 & H2 & H3 & H4 & H5); [rewrite Hnew; constructor|].
  fold committed in H1, H2, H5. rewrite Hnew in H1, H2. cbn in H1, H2.
  assert (Hnil : pa' = [] /\ va' = []).
  { destruct indexes as [|vi indexes]; [now apply H4|apply H3; [assumption|discriminate]]. }
  destruct Hnil as [-> ->]. rewrite !app_nil_r in H1, H2. auto.
Qed.

(** X25.  Entries after the last negative one belong to a polygon that is never
    closed, and are dropped: the scan commits the same polygons with and
    without them. *)
Theorem unterminated_polygon_dropped (indexes tail : list Z) (mb : MeshBuilder)
    (Hclosed : closedIndexes indexes)
    (Htail : Forall (fun vi => 0 <= vi) tail) :
  polygons (scanPolygons (indexes ++ tail) 0 [] [] mb)
  = polygons (scanPolygons indexes 0 [] [] mb).
Proof.
  assert (Htail' : forall pvi pa va mb',
            polygons (scanPolygons tail pvi pa va mb') = polygons mb').
  { induction Htail as [|vi tail Hvi _ IH]; intros pvi pa va mb'; [reflexivity|].
    cbn [scanPolygons].
    replace (vi <? 0) with false by (symmetry; apply Z.ltb_ge; lia). apply IH. }
  assert (Hgen : forall pvi pa va mb',
            closedIndexes indexes -> indexes <> [] ->
            polygons (scanPolygons (indexes ++ tail) pvi pa va mb')
            = polygons (scanPolygons indexes pvi pa va mb')).
  { clear Hclosed. induction indexes as [|vi indexes IH]; intros pvi pa va mb' Hc Hne;
      [congruence|].
    cbn [app scanPolygons].
    destruct indexes as [|vi' indexes].
    - cbn in Hc. replace (vi <? 0) with true by (symmetry; apply Z.ltb_lt; lia).
      cbn [app scanPolygons]. apply Htail'.
    - destruct (vi <? 0); apply IH; try exact Hc; discriminate. }
  destruct indexes as [|vi indexes]; [apply Htail'|].
  apply Hgen; [assumption|discriminate].
Qed.
End PolygonScan.

(** ** The document builder: nested blocks *)

Section BuilderBlocks.
Context {Image TexDesc : Type} `{Platform Image TexDesc}.

Import FBX7DocumentParser.

Local Abbreviation Builder := (FBX7DocumentParser.t TexDesc).

Local Arguments appendChild : simpl never.
Local Arguments deref : simpl never.

(** X15.  Inside an object, a [block] call followed by the [endBlock] call for
    the same block leaves the builder where it was -- same state, same
    depth, same current object and same current parent -- with one node
    added to the heap: the node of the block, made the last child of the
    current parent. *)
Theorem block_endBlock_restores (name : string) (values : list (FBXValue Z))
    (b : Builder) (p : NodeRef) (np : Node.t)
    (Hstate : state b = BuilderState.Object)
    (Hparent : curNodeParent b = Some p)
    (Hp : FBXDocumentGraph.heap (doc b) !! p = Some np)
    (Hdepth : 2 <= depth b) :
  let h := FBXDocumentGraph.heap (doc b) in
  let r := length h in
  exists b1 b2 : Builder,
    block name values b = Ok (Enter, b1)
    /\ curNodeParent b1 = Some r /\ depth b1 = depth b + 1
    /\ endBlock b1 = Ok b2
    /\ state b2 = state b /\ depth b2 = depth b
    /\ curObject b2 = curObject b /\ curNodeParent b2 = Some p
    /\ FBXDocumentGraph.heap (doc b2)
       = <[p := Node.push_child r np]> h
         ++ [Node.set_parent (Some p) (Node.new name values (Own Unknown) EmptyString)].
Proof.
  destruct b as [d st dp co cnp assets con]. cbn [state curNodeParent doc depth curObject] in *.
  subst st cnp.
  set (h := FBXDocumentGraph.heap d) in *. set (r := length h) in *.
  assert (Hlt : (p < length h)%nat) by (apply lookup_lt_is_Some; unfold h; eauto).
  assert (Hheap : appendChild p r (h ++ [Node.new name values (Own Unknown) EmptyString])
                  = Ok (<[p := Node.push_child r np]> h
                        ++ [Node.set_parent (Some p)
                              (Node.new name values (Own Unknown) EmptyString)])).
  { unfold appendChild, deref. unfold r. rewrite lookup_app_r by lia.
    rewrite Nat.sub_diag. cbn. f_equal.
    apply list_eq. intros i. rewrite !list_lookup_alter.
    destruct (lt_eq_lt_dec i (length h)) as [[Hi|Hi]|Hi];
      repeat case_decide; try lia; try subst i.
    - rewrite !lookup_app_l by (rewrite ?length_insert; lia).
      rewrite list_lookup_insert_eq by lia.
      transitivity (Node.push_child (length h) <$> Some np); [f_equal; exact Hp|reflexivity].
    - rewrite !lookup_app_l by (rewrite ?length_insert; lia).
      now rewrite list_lookup_insert_ne by congruence.
    - rewrite !lookup_app_r by (rewrite ?length_insert; lia).
      rewrite length_insert, Nat.sub_diag. reflexivity.
    - rewrite !lookup_app_r by (rewrite ?length_insert; lia).
      rewrite length_insert.
      destruct (i - length h)%nat as [|k] eqn:Ek; [lia|reflexivity]. }
  eexists _, _. split.
  { unfold block. cbn. unfold newNode, alloc. cbn. fold h r. rewrite Hheap. reflexivity. }
  cbn. split; [reflexivity|]. split; [reflexivity|]. split.
  { unfold endBlock. cbn.
    replace (dp + 1 - 1 =? 1) with false by (symmetry; apply Z.eqb_neq; lia).
    replace (dp + 1 - 1 =? 0) with false by (symmetry; apply Z.eqb_neq; lia).
    unfold deref. rewrite lookup_app_r by (rewrite length_insert; unfold r; lia).
    rewrite length_insert. unfold r. rewrite Nat.sub_diag. cbn. reflexivity. }
  cbn. repeat split; try reflexivity. lia.
Qed.
End BuilderBlocks.

(** ** asset-io.ts: file extensions and mime types *)

Section FilePaths.

Lemma lastIndexOfDot_none (cs : list ascii) (i found : Z) :
  Forall (fun c => c <> "."%char) cs -> lastIndexOfDot cs i found = found.
Proof.
  intros Hcs. revert i. induction Hcs as [|c cs Hc _ IH]; intros i; [reflexivity|].
  cbn [lastIndexOfDot].
  replace (Ascii.eqb c ".") with false by (symmetry; now apply Ascii.eqb_neq).
  apply IH.
Qed.

Lemma lastIndexOfDot_last (base ext : list ascii) (i found : Z) :
  Forall (fun c => c <> "."%char) ext ->
  lastIndexOfDot (base ++ "."%char :: ext) i found = i + Z.of_nat (length base).
Proof.
  intros Hext. revert i found. induction base as [|c base IH]; intros i found.
  - cbn [app lastIndexOfDot length]. change (Ascii.eqb "." ".") with true. cbv iota.
    rewrite lastIndexOfDot_none by assumption. cbn. lia.
  - cbn [app lastIndexOfDot length]. rewrite IH. lia.
Qed.

Lemma fileExtension_with_dot (base ext : list ascii) :
  Forall (fun c => c <> "."%char) ext ->
  fileExtensionOfFilePath (str (base ++ "."%char :: ext)) = toLowerCase (str ext).
Proof.
  intros Hext. unfold fileExtensionOfFilePath, chars, str.
  rewrite list_ascii_of_string_of_list_ascii, lastIndexOfDot_last by assumption.
  replace (-1 <? 0 + Z.of_nat (length base)) with true by (symmetry; apply Z.ltb_lt; lia).
  replace (Z.to_nat (0 + Z.of_nat (length base) + 1)) with (length base + 1)%nat by lia.
  rewrite drop_app_add'. 2: reflexivity. reflexivity.
Qed.

Lemma fileExtension_without_dot (path : list ascii) :
  Forall (fun c => c <> "."%char) path ->
  fileExtensionOfFilePath (str path) = EmptyString.
Proof.
  intros Hpath. unfold fileExtensionOfFilePath, chars, str.
  rewrite list_ascii_of_string_of_list_ascii, lastIndexOfDot_none by assumption.
  reflexivity.
Qed.

(** X26.  The extension of a file path is what follows its last dot, in lower
    case, and the empty string for a path without a dot. *)
Theorem fileExtension_after_last_dot :
  (forall base ext : list ascii,
      Forall (fun c => c <> "."%char) ext ->
      fileExtensionOfFilePath (str (base ++ "."%char :: ext)) = toLowerCase (str ext))
  /\ (forall path : list ascii,
        Forall (fun c => c <> "."%char) path ->
        fileExtensionOfFilePath (str path) = EmptyString).
Proof.
  split; [exact fileExtension_with_dot | exact fileExtension_without_dot].
Qed.

(** X27.  The mime type of a file path is decided by its extension alone,
    whatever the case it is written in: a path whose extension is, in
    lower case, one of the six of the table has the mime type the table
    gives; a path without a dot has none. *)
Theorem mimeType_by_extension :
  (forall (base ext : list ascii) (key mime : string),
      Forall (fun c => c <> "."%char) ext ->
      toLowerCase (str ext) = key ->
      In (key, mime) mimeTypeMapping ->
      mimeTypeForFilePath (Some (str (base ++ "."%char :: ext))) = Ok (Some (Own mime)))
  /\ (forall path : list ascii,
        Forall (fun c => c <> "."%char) path ->
        mimeTypeForFilePath (Some (str path)) = Ok None).
Proof.
  split.
  - intros base ext key mime Hdots Hkey Hin. unfold mimeTypeForFilePath.
    rewrite fileExtension_with_dot, Hkey by assumption.
    cbn in Hin. repeat destruct Hin as [[= <- <-]|Hin]; try reflexivity. contradiction.
  - intros path Hpath. unfold mimeTypeForFilePath. now rewrite fileExtension_without_dot.
Qed.
End FilePaths.

(** ** asset-io.ts: relative file paths; core.ts: bytes to a string *)

Section RelativePaths.

Import AssetIO.

Lemma slashes_plain (parts : list (list ascii)) :
  Forall plainPart parts -> slashes (join parts) = join parts.
Proof.
  unfold slashes.
  assert (Hp : forall p, plainPart p
                         -> map (fun c => if Ascii.eqb c "092" then "/"%char else c) p = p).
  { induction 1 as [|c p [_ Hc] _ IH]; [reflexivity|]. cbn [map].
    replace (Ascii.eqb c "092") with false by (symmetry; now apply Ascii.eqb_neq).
    now f_equal. }
  induction 1 as [|p parts Hpl _ IH]; [reflexivity|].
  cbn [join]. destruct parts as [|q parts]; [now apply Hp|].
  rewrite map_app. cbn [map]. rewrite IH.
  change (Ascii.eqb "/" "092") with false. cbv iota. f_equal. now apply Hp.
Qed.

Lemma collapse_plain (p s : list ascii) :
  plainPart p -> collapse (p ++ s) = p ++ collapse s.
Proof.
  induction 1 as [|c p [Hc _] _ IH]; [reflexivity|].
  cbn [app collapse]. destruct (p ++ s) as [|c2 rest] eqn:E.
  - destruct p; [|discriminate]. cbn in E. subst s. reflexivity.
  - replace (Ascii.eqb c "/") with false by (symmetry; now apply Ascii.eqb_neq).
    cbn [andb]. f_equal. exact IH.
Qed.

Lemma collapse_join (parts : list (list ascii)) :
  Forall plainPart parts -> Forall (fun p => p <> []) parts ->
  collapse (join parts) = join parts.
Proof.
  induction 1 as [|p parts Hp Hparts IH]; intros Hne; [reflexivity|].
  apply Forall_cons in Hne as [Hp0 Hne].
  cbn [join]. destruct parts as [|q parts].
  - rewrite <- (app_nil_r p) at 1. rewrite collapse_plain by assumption.
    cbn. now rewrite app_nil_r.
  - rewrite collapse_plain by assumption. f_equal.
    specialize (IH Hne).
    apply Forall_cons in Hne as [Hq0 Hne']. apply Forall_cons in Hparts as [Hq Hparts'].
    destruct q as [|c q]; [congruence|]. apply Forall_cons in Hq as [[Hc _] _].
    assert (E : exists t, join ((c :: q) :: parts) = c :: t).
    { destruct parts; cbn; eauto. }
    destruct E as [t E]. rewrite E in *.
    change (collapse ("/"%char :: c :: t))
      with (if Ascii.eqb "/" "/" && Ascii.eqb c "/" then "/"%char :: collapse t
            else "/"%char :: collapse (c :: t)).
    replace (Ascii.eqb c "/") with false by (symmetry; now apply Ascii.eqb_neq).
    rewrite andb_false_r. f_equal. exact IH.
Qed.

Lemma stripLeading_join (parts : list (list ascii)) :
  Forall plainPart parts -> Forall (fun p => p <> []) parts ->
  stripLeading (join parts) = join parts.
Proof.
  intros Hp Hne. destruct parts as [|[|c p] parts]; [reflexivity| |].
  - apply Forall_cons in Hne as [Hne _]. congruence.
  - apply Forall_cons in Hp as [Hp _]. apply Forall_cons in Hp as [[Hc _] _].
    assert (E : exists t, join ((c :: p) :: parts) = c :: t).
    { destruct parts; cbn; eauto. }
    destruct E as [t ->]. cbn.
    now replace (Ascii.eqb c "/") with false by (symmetry; now apply Ascii.eqb_neq).
Qed.

Lemma split_plain (p s cur : list ascii) :
  plainPart p -> split (p ++ s) cur = split s (rev p ++ cur).
Proof.
  intros Hp. revert cur. induction Hp as [|c p [Hc _] _ IH]; intros cur; [reflexivity|].
  cbn [app split].
  replace (Ascii.eqb c "/") with false by (symmetry; now apply Ascii.eqb_neq).
  rewrite IH. cbn [rev]. now rewrite <- (assoc_L (++)).
Qed.

Lemma split_join (parts : list (list ascii)) :
  Forall plainPart parts -> parts <> [] -> split (join parts) [] = parts.
Proof.
  induction 1 as [|p parts Hp Hparts IH]; intros Hne; [congruence|].
  cbn [join]. destruct parts as [|q parts].
  - rewrite <- (app_nil_r p) at 1. rewrite split_plain by assumption.
    cbn. now rewrite app_nil_r, rev_involutive.
  - rewrite split_plain by assumption. cbn [split].
    change (Ascii.eqb "/" "/") with true. cbv iota.
    rewrite app_nil_r, rev_involutive. f_equal. apply IH. discriminate.
Qed.

(** X28.  A file that is named next to another one resolves into the directory
    of that file: a relative path of one plain part that is neither [.]
    nor [..], resolved against a base path of plain, non-empty parts whose
    last part is a file name -- it has a dot that is not its first
    character -- is the base path with the file name replaced. *)
Theorem resolve_sibling_file (dirs : list (list ascii)) (file name : list ascii)
    (Hdirs : Forall plainPart dirs) (Hdirs0 : Forall (fun p => p <> []) dirs)
    (Hfile : plainPart file) (Hdot : 0 < indexOfDot file 0)
    (Hname : plainPart name)
    (Hnodot : str name <> "."%string) (Hnodots : str name <> ".."%string) :
  resolveRelativeFilePath (str name) (str (join (dirs ++ [file])))
  = str (join (dirs ++ [name])).
Proof.
  assert (Hfile0 : file <> []) by (intros ->; cbn in Hdot; lia).
  assert (Hbase : Forall plainPart (dirs ++ [file])).
  { apply Forall_app. split; [assumption|now repeat constructor]. }
  assert (Hbase0 : Forall (fun p => p <> []) (dirs ++ [file])).
  { apply Forall_app. split; [assumption|now repeat constructor]. }
  unfold resolveRelativeFilePath, normalize, chars, str.
  rewrite !list_ascii_of_string_of_list_ascii.
  rewrite slashes_plain, collapse_join, stripLeading_join, split_join by
    (try assumption; destruct dirs; discriminate).
  rewrite last_snoc. change (default [] (Some file)) with file.
  replace (0 <? indexOfDot file 0) with true by (symmetry; apply Z.ltb_lt; lia).
  replace (0 <? length (dirs ++ [file]))%nat with true
    by (symmetry; apply Nat.ltb_lt; rewrite length_app; cbn; lia).
  cbn [andb]. unfold pop. rewrite length_app. cbn [length].
  replace (length dirs + 1 - 1)%nat with (length dirs) by lia.
  rewrite take_app_length.
  assert (Hrel : split (stripLeading (collapse (slashes name))) [] = [name]).
  { pose proof (slashes_plain [name] ltac:(now repeat constructor)) as E1.
    cbn [join] in E1. rewrite E1.
    rewrite <- (app_nil_r name) at 1. rewrite collapse_plain by assumption.
    cbn [collapse]. rewrite app_nil_r.
    assert (E2 : stripLeading name = name).
    { destruct Hname as [|c name' [Hc _] _]; [reflexivity|]. cbn.
      now replace (Ascii.eqb c "/") with false by (symmetry; now apply Ascii.eqb_neq). }
    rewrite E2. rewrite <- (app_nil_r name) at 1. rewrite split_plain by assumption.
    cbn. now rewrite app_nil_r, rev_involutive. }
  rewrite Hrel. cbn [foldl]. unfold enter, isEntry.
  replace (String.eqb (str name) ".") with false
    by (symmetry; now apply String.eqb_neq).
  replace (String.eqb (str name) "..") with false
    by (symmetry; now apply String.eqb_neq).
  reflexivity.
Qed.

(** The parts of a relative path are entered one after the other, from
    the directory of the base path. *)
Lemma resolve_parts (dirs rel : list (list ascii)) (file : list ascii) :
  Forall plainPart dirs -> Forall (fun p => p <> []) dirs ->
  plainPart file -> 0 < indexOfDot file 0 ->
  Forall plainPart rel -> Forall (fun p => p <> []) rel -> rel <> [] ->
  resolveRelativeFilePath (str (join rel)) (str (join (dirs ++ [file])))
  = str (join (foldl enter dirs rel)).
Proof.
  intros Hdirs Hdirs0 Hfile Hdot Hrel Hrel0 Hne.
  assert (Hfile0 : file <> []) by (intros ->; cbn in Hdot; lia).
  assert (Hbase : Forall plainPart (dirs ++ [file])).
  { apply Forall_app. split; [assumption|now repeat constructor]. }
  assert (Hbase0 : Forall (fun p => p <> []) (dirs ++ [file])).
  { apply Forall_app. split; [assumption|now repeat constructor]. }
  unfold resolveRelativeFilePath, normalize, chars, str.
  rewrite !list_ascii_of_string_of_list_ascii.
  rewrite !slashes_plain, !collapse_join, !stripLeading_join, !split_join by
    (try assumption; destruct dirs; discriminate).
  rewrite last_snoc. change (default [] (Some file)) with file.
  replace (0 <? indexOfDot file 0) with true by (symmetry; apply Z.ltb_lt; lia).
  replace (0 <? length (dirs ++ [file]))%nat with true
    by (symmetry; apply Nat.ltb_lt; rewrite length_app; cbn; lia).
  cbn [andb]. unfold pop. rewrite length_app. cbn [length].
  replace (length dirs + 1 - 1)%nat with (length dirs) by lia.
  now rewrite take_app_length.
Qed.

(** X29.  Each [..] at the start of a relative path takes one directory off the
    base path, and has no effect once there is none left: a relative path
    cannot climb above the start of the base path. *)
Theorem resolve_parent_directories (dirs : list (list ascii)) (file name : list ascii)
    (n : nat)
    (Hdirs : Forall plainPart dirs) (Hdirs0 : Forall (fun p => p <> []) dirs)
    (Hfile : plainPart file) (Hdot : 0 < indexOfDot file 0)
    (Hname : plainPart name) (Hname0 : name <> [])
    (Hnodot : str name <> "."%string) (Hnodots : str name <> ".."%string) :
  resolveRelativeFilePath (str (join (replicate n (chars "..") ++ [name])))
                          (str (join (dirs ++ [file])))
  = str (join (take (length dirs - n) dirs ++ [name])).
Proof.
  rewrite resolve_parts; try assumption.
  - f_equal. f_equal. rewrite foldl_app. cbn [foldl].
    assert (Hup : foldl enter dirs (replicate n (chars "..")) = take (length dirs - n) dirs).
    { clear. induction n as [|n IH].
      - cbn. rewrite Nat.sub_0_r. now rewrite take_ge by lia.
      - replace (Datatypes.S n) with (n + 1)%nat by lia.
        rewrite replicate_add, foldl_app, IH. cbn [replicate foldl].
        unfold enter, isEntry, pop. cbn [String.eqb chars str].
        change (String.eqb (string_of_list_ascii (list_ascii_of_string "..")) ".")
          with false.
        change (String.eqb (string_of_list_ascii (list_ascii_of_string "..")) "..")
          with true.
        cbv iota. rewrite length_take, take_take. f_equal. lia. }
    rewrite Hup. unfold enter, isEntry.
    replace (String.eqb (str name) ".") with false
      by (symmetry; now apply String.eqb_neq).
    replace (String.eqb (str name) "..") with false
      by (symmetry; now apply String.eqb_neq).
    reflexivity.
  - apply Forall_app. split; [|now repeat constructor].
    apply Forall_replicate. repeat constructor; discriminate.
  - apply Forall_app. split; [|now repeat constructor].
    apply Forall_replicate. discriminate.
  - destruct n; discriminate.
Qed.
End RelativePaths.

Section BytesToString.

Import AssetIO.

Lemma str_app (a b : list ascii) : str (a ++ b) = (str a ++ str b)%string.
Proof. unfold str. induction a as [|c a IH]; cbn; [reflexivity|]. now rewrite IH. Qed.

Lemma append_empty (s : string) : (s ++ EmptyString)%string = s.
Proof. induction s as [|c s IH]; cbn; [reflexivity|]. now rewrite IH. Qed.

Lemma append_assoc (a b c : string) : ((a ++ b) ++ c)%string = (a ++ b ++ c)%string.
Proof. induction a as [|x a IH]; cbn; [reflexivity|]. now rewrite IH. Qed.

Lemma concat_snoc (strings : list string) (s : string) :
  String.concat EmptyString (strings ++ [s])
  = (String.concat EmptyString strings ++ s)%string.
Proof.
  induction strings as [|x strings IH]; [reflexivity|].
  destruct strings as [|y strings].
  - reflexivity.
  - change (String.concat EmptyString ((x :: y :: strings) ++ [s]))
      with (x ++ EmptyString ++ String.concat EmptyString ((y :: strings) ++ [s]))%string.
    rewrite IH.
    change (String.concat EmptyString (x :: y :: strings))
      with (x ++ EmptyString ++ String.concat EmptyString (y :: strings))%string.
    cbn [String.append]. now rewrite append_assoc.
Qed.

(** The rounds of the loop: the strings collected, put together, are the
    characters of the bytes before the offset. *)
Lemma blocks_spec (bytes : list Byte.byte) (fuel : nat) :
  forall (bytesLeft offset : Z) (strings : list string),
    0 <= offset -> 0 <= bytesLeft ->
    offset + bytesLeft = Z.of_nat (length bytes) ->
    bytesLeft < Z.of_nat fuel ->
    String.concat EmptyString strings = fromCharCodes (take (Z.to_nat offset) bytes) ->
    exists strings',
      blocks fuel bytes bytesLeft offset strings = Some strings'
      /\ String.concat EmptyString strings' = fromCharCodes bytes.
Proof.
  induction fuel as [|fuel IH]; intros bytesLeft offset strings Ho Hl Hsum Hfuel Hinv; [lia|].
  cbn [blocks]. destruct (Z.ltb_spec 0 bytesLeft) as [Hpos|Hzero].
  - apply IH; unfold maxBlockSize; try lia.
    rewrite concat_snoc, Hinv. unfold fromCharCodes, subarray.
    rewrite <- str_app, <- map_app. do 2 f_equal.
    set (n := Z.min bytesLeft 65536).
    replace (Z.to_nat (offset + n - offset)) with (Z.to_nat n) by lia.
    replace (Z.to_nat (offset + n)) with (Z.to_nat offset + Z.to_nat n)%nat by lia.
    now rewrite take_take_drop.
  - exists strings. split; [reflexivity|]. rewrite Hinv.
    rewrite take_ge by lia. reflexivity.
Qed.

(** X30.  [convertBytesToString] returns for every array of bytes, and what it
    returns is the string of the characters with these codes, however
    many blocks the array was cut into. *)
Theorem convertBytesToString_is_fromCharCodes (bytes : list Byte.byte) :
  convertBytesToString bytes = Some (fromCharCodes bytes).
Proof.
  unfold convertBytesToString.
  destruct (blocks_spec bytes (S (length bytes)) (Z.of_nat (length bytes)) 0 []
              ltac:(lia) ltac:(lia) ltac:(lia) ltac:(lia) eq_refl)
    as (strings & -> & Hall).
  f_equal. destruct strings as [|s [|s' strings]]; exact Hall.
Qed.
End BytesToString.

(** ** Instances of the properties of the parser *)

(** The document [Objects: { Version: 7 }] is reported as it is walked. *)
Lemma parse_reports_document_witness :
  exists st : FBXTextParser.t Z (Recorder Z),
    FBXTextParser.run 0
      [keyToken "Objects"; openToken; keyToken "Version";
       Token.mk TokenType.Number 0 (vnumber 7); closeToken]
      (FBXTextParser.new entersAll) = Ok st
    /\ FBXTextParser.eof_ st = true /\ FBXTextParser.depth_ st = 0
    /\ FBXTextParser.values_ st = []
    /\ FBXTextParser.delegate_ st
       = walk [Block "Objects" [] [Property "Version" (SNumber 7) []]] entersAll.
Proof.
  apply (parse_reports_document (N:=Z) _ _ entersAll 0 objects_document_tokens).
  - vm_compute. discriminate.
  - exact I.
Defined.

(** [Objects: { Version: 7 }] followed by [Creator: "x"]: the last property
    is read and not reported. *)
Lemma trailing_property_not_reported_witness :
  exists st : FBXTextParser.t Z (Recorder Z),
    FBXTextParser.run 0
      ([keyToken "Objects"; openToken; keyToken "Version";
        Token.mk TokenType.Number 0 (vnumber 7); closeToken]
       ++ [keyToken "Creator"; Token.mk TokenType.String 0 (vstring "x")])
      (FBXTextParser.new entersAll) = Ok st
    /\ FBXTextParser.eof_ st = true
    /\ FBXTextParser.values_ st = VString "Creator" :: map scalarValue [SString "x"]
    /\ FBXTextParser.delegate_ st
       = walk [Block "Objects" [] [Property "Version" (SNumber 7) []]] entersAll
    /\ walk ([Block "Objects" [] [Property "Version" (SNumber 7) []]]
               ++ [Property "Creator" (SString "x") []]) entersAll
       = record (CProperty "Creator" (map scalarValue [SString "x"]))
           (walk [Block "Objects" [] [Property "Version" (SNumber 7) []]] entersAll).
Proof.
  apply (trailing_property_not_reported (N:=Z) _ _ _ "Creator" (SString "x") []
           entersAll 0 objects_document_tokens).
  - vm_compute. discriminate.
  - apply IT_Property.
    + split; reflexivity.
    + discriminate.
    + apply VT_last. split; reflexivity.
Defined.

(** The tokens of [Objects: { Version: 7 }], as one item. *)
Lemma objects_block_tokens :
  ItemTokens (N:=Z) (Block "Objects" [] [Property "Version" (SNumber 7) []])
    (keyToken "Objects"
       :: [] ++ openToken
       :: [keyToken "Version"; Token.mk TokenType.Number 0 (vnumber 7)] ++ [closeToken]).
Proof.
  apply IT_Block.
  - split; reflexivity.
  - discriminate.
  - discriminate.
  - left. split; reflexivity.
  - reflexivity.
  - apply items_one. apply IT_Property.
    + split; reflexivity.
    + discriminate.
    + apply VT_last. split; reflexivity.
  - reflexivity.
Qed.

(** A delegate that skips every block receives one call for
    [Objects: { Version: 7 }]. *)
Lemma skipped_block_is_silent_witness :
  exists st : FBXTextParser.t Z (Recorder Z),
    FBXTextParser.run 0
      [keyToken "Objects"; openToken; keyToken "Version";
       Token.mk TokenType.Number 0 (vnumber 7); closeToken]
      (FBXTextParser.new skipsAll) = Ok st
    /\ FBXTextParser.depth_ st = 0
    /\ calls (FBXTextParser.delegate_ st) = [] ++ [CBlock "Objects" (map scalarValue []) Skip].
Proof.
  apply (skipped_block_is_silent (N:=Z) "Objects" [] _ _ skipsAll 0 objects_block_tokens).
  - vm_compute. discriminate.
  - reflexivity.
Defined.

(** [Objects: { Version: 7 }] followed by a number: the parse ends with the
    [error] call, after the calls for the block. *)
Lemma error_ends_parse_witness :
  exists (this' : FBXTextParser.t Z (Recorder Z)) (made : list (Call Z)),
    FBXTextParser.run 0
      [keyToken "Objects"; openToken; keyToken "Version";
       Token.mk TokenType.Number 0 (vnumber 7); closeToken;
       Token.mk TokenType.Number 0 (vnumber 8)]
      (FBXTextParser.new entersAll) = Ok this'
    /\ calls (FBXTextParser.delegate_ this')
       = calls (FBXTextParser.delegate_ (FBXTextParser.new (N:=Z) entersAll)) ++ made
    /\ Forall (fun c => isErrorCall c = false) (removelast made)
    /\ isErrorCall <$> last made = Some true.
Proof.
  destruct (FBXTextParser.run 0
              [keyToken "Objects"; openToken; keyToken "Version";
               Token.mk TokenType.Number 0 (vnumber 7); closeToken;
               Token.mk TokenType.Number 0 (vnumber 8)]
              (FBXTextParser.new entersAll)) as [this'|e] eqn:Hrun.
  - destruct (error_ends_parse (N:=Z) _ _ _ _ Hrun) as (made & Hcalls & Hnone).
    exists this', made. split; [reflexivity|]. split; [exact Hcalls|].
    split; [exact Hnone|].
    vm_compute in Hrun. injection Hrun as <-. cbn in Hcalls.
    subst made. reflexivity.
  - vm_compute in Hrun. discriminate Hrun.
Defined.
(** [PolygonVertexIndex: *5 { a: 0,1 }]: two elements for a count of five. *)
Lemma short_array_reported_empty_witness :
  exists st : FBXTextParser.t Z (Recorder Z),
    FBXTextParser.run 0
      (keyToken "PolygonVertexIndex" :: Token.mk TokenType.ArrayCount 0 (vnumber 5)
         :: openToken :: keyToken "a"
         :: [Token.mk TokenType.Number 0 (vnumber 0); Token.mk TokenType.Comma 0 undefined;
             Token.mk TokenType.Number 0 (vnumber 1)] ++ [closeToken])
      (FBXTextParser.new entersAll) = Ok st
    /\ FBXTextParser.eof_ st = true /\ FBXTextParser.depth_ st = 0
    /\ FBXTextParser.values_ st = []
    /\ FBXTextParser.delegate_ st = record (CProperty "PolygonVertexIndex" []) entersAll.
Proof.
  apply (short_array_reported_empty (N:=Z) "PolygonVertexIndex" 0 [1] 5).
  - split; reflexivity.
  - discriminate.
  - reflexivity.
  - reflexivity.
  - vm_compute. reflexivity.
  - reflexivity.
  - split; reflexivity.
  - apply VT_more.
    + split; reflexivity.
    + reflexivity.
    + apply VT_last. split; reflexivity.
  - reflexivity.
Defined.

(** ** Instances of the properties of the tokenizer *)

(** The text [ ,a] throws in the parser. *)
Lemma leading_punctuation_throws_witness :
  FBXTextParser.parse (N:=Z) (str ([" "%char] ++ ","%char :: ["a"%char])) entersAll
  = Some (Throw (TypeError "Cannot read property 'toString' of undefined")).
Proof.
  apply (leading_punctuation_throws (N:=Z) (D:=Recorder Z)).
  - repeat constructor.
  - left. reflexivity.
Defined.

(** The string literal of the text [ 'ab',], with double quotes. *)
Lemma string_literal_token_witness :
  FBXTextTokenizer.nextToken (N:=Z)
    (FBXTextTokenizer.mk [" "; "034"; "a"; "b"; "034"; ","]%char (-1) None)
  = Some (Token.mk TokenType.String 1 (vstring "ab"),
          FBXTextTokenizer.mk [" "; "034"; "a"; "b"; "034"; ","]%char 4 (Some "034"%char)).
Proof.
  apply (string_literal_token (N:=Z) [] [" "%char] ["a"; "b"]%char ["034"; ","]%char None).
  - repeat constructor.
  - repeat constructor.
  - reflexivity.
Defined.

(** The comment of the text [; c], a line feed and [}]. *)
Lemma comment_is_skipped_witness :
  FBXTextTokenizer.nextToken (N:=Z)
    (FBXTextTokenizer.mk [";"; " "; "c"; "010"; "}"]%char (-1) None)
  = FBXTextTokenizer.nextToken
      (FBXTextTokenizer.mk [";"; " "; "c"; "010"; "}"]%char 3 (Some "010"%char))
  /\ exists r, FBXTextTokenizer.nextToken (N:=Z)
                 (FBXTextTokenizer.mk [";"; " "; "c"; "010"; "}"]%char 3 (Some "010"%char))
               = Some r.
Proof.
  apply (comment_is_skipped (N:=Z) [] [] [" "; "c"]%char ["010"; "}"]%char None).
  - constructor.
  - repeat constructor.
  - reflexivity.
Defined.

(** The number of the text [ 42,]. *)
Lemma number_token_witness :
  FBXTextTokenizer.nextToken (N:=Z)
    (FBXTextTokenizer.mk [" "; "4"; "2"; ","]%char (-1) None)
  = Some (Token.mk TokenType.Number 1 (vnumber 42),
          FBXTextTokenizer.mk [" "; "4"; "2"; ","]%char 2 (Some ","%char)).
Proof.
  refine (number_token (N:=Z) [] [" "%char] ["2"%char] [","%char] "4"%char None _ _ _ _).
  - repeat constructor.
  - reflexivity.
  - repeat constructor.
  - reflexivity.
Defined.

(** The array count of the text [*3 {]. *)
Lemma array_count_token_witness :
  exists token : Token.t Z,
    FBXTextTokenizer.nextToken
      (FBXTextTokenizer.mk ["*"; "3"; " "; "{"]%char (-1) None)
    = Some (token, FBXTextTokenizer.mk ["*"; "3"; " "; "{"]%char 1 (Some " "%char))
    /\ Token.offset token = 0
    /\ Token.type token = TokenType.ArrayCount
    /\ Token.val token = vnumber 3.
Proof.
  destruct (array_count_token (N:=Z) [] [] ["3"%char] [" "; "{"]%char None)
    as (token & Hnext & Hoffset & Htype & Hval & _).
  - constructor.
  - repeat constructor.
  - reflexivity.
  - assert (Hcounted : ["3"%char] <> [] /\ parseFloat (N:=Z) (str ["3"%char]) = Some 3
                       /\ isInt32 (N:=Z) 3 = true /\ 1 <= toInt32 (N:=Z) 3).
    { split; [discriminate|]. split; [reflexivity|]. split; [reflexivity|].
      vm_compute. discriminate. }
    exists token. split; [exact Hnext|]. split; [exact Hoffset|].
    split; [apply Htype; exists 3; exact Hcounted|exact (Hval 3 Hcounted)].
Defined.

(** The word [+1] of the text [+1,] is no number. *)
Lemma other_word_is_invalid_witness :
  FBXTextTokenizer.nextToken (N:=Z)
    (FBXTextTokenizer.mk ["+"; "1"; ","]%char (-1) None)
  = Some (Token.mk TokenType.Invalid 0 (vstring "+1,"),
          FBXTextTokenizer.mk ["+"; "1"; ","]%char 1 (Some ","%char)).
Proof.
  apply (other_word_is_invalid (N:=Z) [] [] ["1"%char] [","%char] "+"%char None).
  - constructor.
  - reflexivity.
  - reflexivity.
  - repeat constructor.
  - reflexivity.
Defined.
(** ** Instances of the properties of the document graph *)

(** The video node of [newVideoGraph] is added under its number. *)
Lemma addObject_registers_witness :
  exists g' : FBXDocumentGraph.t,
    FBXDocumentGraph.addObject (Some 1%nat) newVideoGraph = Ok g'
    /\ os_get 5 (FBXDocumentGraph.allObjects g') = Some 1%nat
    /\ os_get 5 (FBXDocumentGraph.videoNodes g') = Some 1%nat
    /\ os_get 0 (FBXDocumentGraph.allObjects g') = Some 0%nat.
Proof.
  destruct (addObject_registers 1%nat videoNode FBXDocumentGraph.VideoSet 5 newVideoGraph)
    as (g' & Hadd & _ & _ & _ & Hsets).
  - reflexivity.
  - reflexivity.
  - reflexivity.
  - change (ignoredObject videoNode) with false in Hsets. cbv iota in Hsets.
    destruct Hsets as (Hall & Hvideo & Hothers & _).
    exists g'. split; [exact Hadd|]. split; [exact Hall|]. split; [exact Hvideo|].
    rewrite Hothers by discriminate. reflexivity.
Defined.

(** A connection from the video of [videoDocument] to its root node. *)
Lemma addConnection_links_witness :
  exists g' : FBXDocumentGraph.t,
    FBXDocumentGraph.addConnection (mkConnection 5 None 0 None None) videoDocument
    = mkEff [] (Ok g')
    /\ FBXDocumentGraph.connections g'
       = FBXDocumentGraph.connections videoDocument
           ++ [mkConnection 5 (Some 1%nat) 0 (Some 0%nat) None]
    /\ FBXDocumentGraph.allObjects g' = FBXDocumentGraph.allObjects videoDocument.
Proof.
  destruct (addConnection_links (mkConnection 5 None 0 None None) videoDocument 1%nat 0%nat)
    as (g' & Hadd & Hconns & Hall & _).
  - reflexivity.
  - reflexivity.
  - exists g'. split; [exact Hadd|]. split; [exact Hconns|exact Hall].
Defined.

(** The video node of [videoDocument] is appended to the root node, once. *)
Lemma appendChild_once_witness :
  exists h' : Heap,
    appendChild 0%nat 1%nat (FBXDocumentGraph.heap videoDocument) = Ok h'
    /\ Node.parent <$> h' !! 1%nat = Some (Some 0%nat)
    /\ length h' = length (FBXDocumentGraph.heap videoDocument)
    /\ forall q : NodeRef,
         appendChild q 1%nat h' = Throw (AssertionFailed "Can't re-parent a Node").
Proof.
  destruct (appendChild 0%nat 1%nat (FBXDocumentGraph.heap videoDocument))
    as [h'|e] eqn:Happ.
  - destruct (appendChild_once 0%nat 1%nat _ h' ltac:(discriminate) Happ)
      as (nc & _ & _ & Hc & _ & _ & Hlen & Honce).
    exists h'. split; [reflexivity|]. split.
    { transitivity (Node.parent <$> Some (Node.set_parent (Some 0%nat) nc));
        [f_equal; exact Hc|reflexivity]. }
    split; [exact Hlen|exact Honce].
  - vm_compute in Happ. discriminate Happ.
Defined.

(** The name of the object [Video::v] is [v]. *)
Lemma objectName_splits_witness : Node.objectName videoNode = Ok (Some "v"%string).
Proof.
  refine (proj1 (objectName_splits videoNode) ["V"; "i"; "d"; "e"; "o"]%char ["v"%char]
            _ _ _).
  - repeat constructor; discriminate.
  - repeat constructor; discriminate.
  - reflexivity.
Defined.

(** The video of [videoDocument], on a platform that loads every image. *)
Lemma loadTextures_one_per_video_witness :
  exists (group' : AssetGroup string) (texs : list (option (Texture2D string))),
    outcome (FBXDocumentGraph.loadTextures (H:=PathImages) videoDocument newAssetGroup
               (mkOptions None))
    = Ok (Fulfilled (Some group'))
    /\ textures group' = textures (newAssetGroup (TexDesc:=string)) ++ texs
    /\ Forall2 (fun vidID tex => if tex is Some t then tex_userRef t = vidID else True)
               (os_keys (FBXDocumentGraph.videoNodes videoDocument)) texs.
Proof.
  eassert (Hload : outcome (FBXDocumentGraph.loadTextures (H:=PathImages) videoDocument
                              newAssetGroup (mkOptions None))
                   = Ok (Fulfilled (Some _))) by (vm_compute; reflexivity).
  destruct (loadTextures_one_per_video (H:=PathImages) _ _ _ _ Hload)
    as (texs & Htexs & Hall & _).
  eexists. exists texs. split; [exact Hload|]. split; [exact Htexs|exact Hall].
Defined.

(** The material of [materialDocument]. *)
Lemma buildMaterials_one_per_node_witness :
  exists (g' : AssetGroup string) (mats : list (Material string)),
    outcome (FBXDocumentGraph.buildMaterials materialDocument (Some newAssetGroup)
               (mkOptions None))
    = Ok (Some g')
    /\ materials g' = materials (newAssetGroup (TexDesc:=string)) ++ mats
    /\ Forall2 (fun matID mat => mat_userRef mat = Some matID)
               (os_keys (FBXDocumentGraph.materialNodes materialDocument)) mats.
Proof.
  eassert (Hbuild : outcome (FBXDocumentGraph.buildMaterials (TexDesc:=string)
                               materialDocument (Some newAssetGroup) (mkOptions None))
                    = Ok _) by (vm_compute; reflexivity).
  destruct (buildMaterials_one_per_node (TexDesc:=string) _ _ _ _ Hbuild)
    as (g' & mats & Hg & Hmats & Hall & _).
  exists g', mats. split; [now rewrite Hbuild, Hg|]. split; [exact Hmats|exact Hall].
Defined.

(** The geometry of [geometryDocument [0; 1; -3]]. *)
Lemma buildMeshes_one_per_node_witness :
  exists (g' : AssetGroup string) (ms : list Mesh),
    outcome (FBXDocumentGraph.buildMeshes (geometryDocument [0; 1; -3])
               (Some newAssetGroup) (mkOptions None))
    = Ok (Some g')
    /\ meshes g' = meshes (newAssetGroup (TexDesc:=string)) ++ ms
    /\ length ms = length (os_keys (FBXDocumentGraph.geometryNodes
                                      (geometryDocument [0; 1; -3]))).
Proof.
  eassert (Hbuild : outcome (FBXDocumentGraph.buildMeshes (TexDesc:=string)
                               (geometryDocument [0; 1; -3]) (Some newAssetGroup)
                               (mkOptions None))
                    = Ok _) by (vm_compute; reflexivity).
  destruct (buildMeshes_one_per_node (TexDesc:=string) _ _ _ _ Hbuild)
    as (g' & ms & Hg & Hms & Hall & _).
  exists g', ms. split; [now rewrite Hbuild, Hg|]. split; [exact Hms|].
  symmetry. exact (Forall2_length _ _ _ Hall).
Defined.

(** The model of [modelDocument]. *)
Lemma buildModels_one_per_node_witness :
  exists (g' : AssetGroup string) (ms : list (Model string)),
    outcome (FBXDocumentGraph.buildModels modelDocument (Some newAssetGroup)
               (mkOptions None))
    = Ok (Some g')
    /\ models g' = models (newAssetGroup (TexDesc:=string)) ++ ms
    /\ length ms = length (os_keys (FBXDocumentGraph.modelNodes modelDocument)).
Proof.
  eassert (Hbuild : outcome (FBXDocumentGraph.buildModels (TexDesc:=string)
                               modelDocument (Some newAssetGroup) (mkOptions None))
                    = Ok _) by (vm_compute; reflexivity).
  destruct (buildModels_one_per_node (TexDesc:=string) _ _ _ _ Hbuild)
    as (g' & ms & Hg & Hms & Hall & _).
  exists g', ms. split; [now rewrite Hbuild, Hg|]. split; [exact Hms|].
  symmetry. exact (Forall2_length _ _ _ Hall).
Defined.

(** The polygon [0; 1; -3]. *)
Lemma polygon_scan_keeps_every_index_witness :
  concat (map fst (polygons (FBXDocumentGraph.scanPolygons [0; 1; -3] 0 [] [] emptyMeshBuilder)))
  = seqZ 0 (Z.of_nat (length [0; 1; -3]))
  /\ concat (map snd (polygons (FBXDocumentGraph.scanPolygons [0; 1; -3] 0 [] [] emptyMeshBuilder)))
     = map decodedIndex [0; 1; -3]
  /\ Forall (fun p => length (fst p) = length (snd p))
            (polygons (FBXDocumentGraph.scanPolygons [0; 1; -3] 0 [] [] emptyMeshBuilder)).
Proof.
  apply (polygon_scan_keeps_every_index [0; 1; -3] emptyMeshBuilder).
  - reflexivity.
  - reflexivity.
Defined.

(** The polygon [0; 1; -3] followed by the two indexes [3; 4]. *)
Lemma unterminated_polygon_dropped_witness :
  polygons (FBXDocumentGraph.scanPolygons ([0; 1; -3] ++ [3; 4]) 0 [] [] emptyMeshBuilder)
  = polygons (FBXDocumentGraph.scanPolygons [0; 1; -3] 0 [] [] emptyMeshBuilder).
Proof.
  apply (unterminated_polygon_dropped [0; 1; -3] [3; 4] emptyMeshBuilder).
  - reflexivity.
  - repeat constructor; discriminate.
Defined.

(** A block [Vertices] inside the Geometry object of [insideGeometry]. *)
Lemma block_endBlock_restores_witness :
  exists b1 b2 : FBX7DocumentParser.t unit,
    FBX7DocumentParser.block "Vertices" [] insideGeometry = Ok (Enter, b1)
    /\ FBX7DocumentParser.curNodeParent b1 = Some 2%nat
    /\ FBX7DocumentParser.endBlock b1 = Ok b2
    /\ FBX7DocumentParser.depth b2 = FBX7DocumentParser.depth insideGeometry
    /\ FBX7DocumentParser.curNodeParent b2 = Some 1%nat.
Proof.
  destruct (block_endBlock_restores (TexDesc:=unit) "Vertices" [] insideGeometry 1%nat
              (Node.new "Geometry" [VNumber 1; VString "Geometry::g"; VString "Mesh"]
                 (Own Unknown) EmptyString))
    as (b1 & b2 & Hblock & Hparent & _ & Hend & _ & Hdepth & _ & Hparent2 & _).
  - reflexivity.
  - reflexivity.
  - reflexivity.
  - vm_compute. discriminate.
  - exists b1, b2. split; [exact Hblock|]. split; [exact Hparent|]. split; [exact Hend|].
    split; [exact Hdepth|exact Hparent2].
Defined.

(** ** Instances of the properties of file paths *)

(** The extension of [a/b.PNG]. *)
Lemma fileExtension_after_last_dot_witness :
  fileExtensionOfFilePath "a/b.PNG" = "png"%string.
Proof.
  refine (proj1 fileExtension_after_last_dot ["a"; "/"; "b"]%char ["P"; "N"; "G"]%char _).
  repeat constructor; discriminate.
Defined.

(** The mime type of [tex/wood.JPG]. *)
Lemma mimeType_by_extension_witness :
  mimeTypeForFilePath (Some "tex/wood.JPG"%string) = Ok (Some (Own "image/jpeg"%string)).
Proof.
  refine (proj1 mimeType_by_extension (chars "tex/wood") (chars "JPG") "jpg"%string "image/jpeg"%string
            _ _ _).
  - repeat constructor; discriminate.
  - reflexivity.
  - vm_compute. tauto.
Defined.

(** [tex.png] beside [models/car/car.fbx]. *)
Lemma resolve_sibling_file_witness :
  AssetIO.resolveRelativeFilePath "tex.png" "models/car/car.fbx"
  = "models/car/tex.png"%string.
Proof.
  refine (resolve_sibling_file [chars "models"; chars "car"] (chars "car.fbx")
            (chars "tex.png") _ _ _ _ _ _ _).
  - repeat constructor; discriminate.
  - repeat constructor; discriminate.
  - repeat constructor; discriminate.
  - vm_compute. reflexivity.
  - repeat constructor; discriminate.
  - discriminate.
  - discriminate.
Defined.

(** [../../../tex.png] from [models/car/car.fbx]: three steps up from a
    directory two levels deep. *)
Lemma resolve_parent_directories_witness :
  AssetIO.resolveRelativeFilePath "../../../tex.png" "models/car/car.fbx"
  = "tex.png"%string.
Proof.
  refine (resolve_parent_directories [chars "models"; chars "car"] (chars "car.fbx")
            (chars "tex.png") 3 _ _ _ _ _ _ _ _).
  - repeat constructor; discriminate.
  - repeat constructor; discriminate.
  - repeat constructor; discriminate.
  - vm_compute. reflexivity.
  - repeat constructor; discriminate.
  - discriminate.
  - discriminate.
  - discriminate.
Defined.
